(** * gpasswd: administer the group file

    A shallow embedding of [src/gpasswd.c] (shadow-utils).  The C program
    keeps its state in file-scope variables, talks to the two record
    stores through the [gr_*] / [sgr_*] adapter and leaves through
    [exit].  The embedding threads one [state] record through a small
    state-and-exit monad that also collects the observable events of a
    run (adapter calls, identity-store lookups, prompts, messages) in
    program order.

    Conditional compilation ([SHADOWGRP], [FIRST_MEMBER_IS_ADMIN]) is
    kept as a [build] record of booleans.  Syslog and audit records and
    the signal handlers are left out. *)

From Stdlib Require Import String Ascii List ZArith Bool Arith Lia.
From Equations Require Import Equations.
Import ListNotations.

Local Open Scope string_scope.
Local Open Scope list_scope.
Local Open Scope Z_scope.

Set Implicit Arguments.

(** ** Data model *)

(** [struct group] of <grp.h>. *)
Record group_t := mkGroup {
  gr_name : string;
  gr_passwd : string;
  gr_gid : Z;
  gr_mem : list string
}.

(** [struct sgrp] of the shadow group file. *)
Record sgrp_t := mkSgrp {
  sg_name : string;
  sg_passwd : string;
  sg_adm : list string;
  sg_mem : list string
}.

Inductive open_mode := O_RDONLY | O_RDWR.

(** The preprocessor configuration the file is compiled with.  [BUFSIZ]
    (of <stdio.h>) and [E_USAGE] (of exitcodes.h) are constants the
    source only names. *)
Record build := mkBuild {
  SHADOWGRP : bool;
  FIRST_MEMBER_IS_ADMIN : bool;
  BUFSIZ : nat;
  E_USAGE : Z
}.

Definition E_SUCCESS : Z := 0.

(** [RETRIES]: the number of retries for the user to provide and repeat
    a new password. *)
Definition RETRIES : nat := 3.

(** Modelled from the spec: [SHADOW_PASSWD_STRING] is defined in
    defines.h, which is not part of the sources at hand; the data model
    names the shadow marker ["x"]. *)
Definition SHADOW_PASSWD_STRING : string := "x".

(** ** Messages and events *)

Inductive message :=
| MsgUsage
| MsgPermissionDenied
| MsgUserNotExist (u : string)
| MsgShadowRequired
| MsgCannotLockGroup
| MsgCannotLockShadow
| MsgCannotOpenGroup
| MsgCannotOpenShadow
| MsgCannotRewriteGroup
| MsgCannotRewriteShadow
| MsgCannotUnlockGroup
| MsgCannotUnlockShadow
| MsgCannotUpdateGroup (g : string)
| MsgCannotUpdateShadow (g : string)
| MsgGroupNotExist (g : string)
| MsgWhoAreYou
| MsgNotMember (u g : string)
| MsgNotATty
| MsgTryAgainLater
| MsgCannotChangeId
| MsgChangingPassword (g : string)
| MsgDontMatch
| MsgAdding (u g : string)
| MsgRemoving (u g : string).

Inductive prompt := NewPassword | ReEnterNewPassword.

Inductive event :=
| EStderr (m : message)
| EStdout (m : message)
| EGetpwnam (name : string) (found : bool)
| EGetMyPwent (found : bool)
| EGrLock (ok : bool)
| ESgrLock (ok : bool)
| EGrUnlock (ok : bool)
| ESgrUnlock (ok : bool)
| EGrOpen (mode : open_mode) (ok : bool)
| ESgrOpen (mode : open_mode) (ok : bool)
| EGrLocate (name : string) (found : bool)
| ESgrLocate (name : string) (found : bool)
| EGrUpdate (g : group_t) (ok : bool)
| ESgrUpdate (g : sgrp_t) (ok : bool)
| EGrClose (ok : bool)
| ESgrClose (ok : bool)
| EGetpass (p : prompt) (answered : bool)
| EIsatty (fd : Z) (tty : bool)
| ESetuid (ok : bool)
| ENscdFlush.

(** ** The outside world *)

(** Everything the program reads from its surroundings and cannot
    influence. *)
Record environment := mkEnv {
  bywho : Z;                            (* getuid () *)
  sgr_file_present : bool;
  passwd : list string;                 (* names known to getpwnam *)
  my_pwent : option string;             (* get_my_pwent ()->pw_name *)
  gr_busy : bool;                       (* another process holds the lock *)
  sgr_busy : bool;
  gr_open_ok : open_mode -> bool;
  sgr_open_ok : open_mode -> bool;
  gr_close_ok : open_mode -> bool;
  sgr_close_ok : open_mode -> bool;
  gr_update_ok : bool;
  sgr_update_ok : bool;
  isatty : Z -> bool;
  setuid_ok : bool;
  pw_encrypt : string -> string;        (* with a salt of crypt_make_salt *)
  comma_to_list : string -> list string
}.

(** ** List algebra (lib/list.c) *)

Module ListAlgebra.

(** Modelled from the spec: [is_on_list] lives in the library, which is
    not part of the sources at hand; "contains(list, name) -> bool", a
    case-sensitive exact match. *)
Definition is_on_list (l : list string) (member : string) : bool :=
  existsb (String.eqb member) l.

(** Modelled from the spec: [add_list] (library); "appends if absent;
    no-op if already present". *)
Definition add_list (l : list string) (member : string) : list string :=
  if is_on_list l member then l else l ++ [member].

(** Modelled from the spec: [del_list] (library); "removes all
    occurrences". *)
Definition del_list (l : list string) (member : string) : list string :=
  filter (fun x => negb (String.eqb x member)) l.

(** Modelled from the spec: [dup_list] (library); the record pair is
    "deep-copied, independent of the on-disk buffer". *)
Definition dup_list (l : list string) : list string := l.

End ListAlgebra.
Export ListAlgebra.

(** ** Program state *)

(** The flags and arguments [process_flags] fills in. *)
Record options := mkOptions {
  aflg : bool;
  Aflg : bool;
  dflg : bool;
  Mflg : bool;
  rflg : bool;
  Rflg : bool;
  group : option string;       (* NULL until an operand is seen *)
  user : string;
  members : string;
  admins : string
}.

Definition no_options : options :=
  mkOptions false false false false false false None "" "" "".

(** Modelled from the spec: the state of the Record Store Adapter
    (lib/groupio.c, lib/sgroupio.c and lib/commonio.c are not part of
    the sources at hand): per store, the records on disk, the copy an
    open handle works on, and whether this process holds the lock. *)
Record adapter := mkAdapter {
  group_file : list group_t;
  gshadow_file : list sgrp_t;
  gr_db : option (open_mode * list group_t);
  sgr_db : option (open_mode * list sgrp_t);
  gr_lock_held : bool;
  sgr_lock_held : bool
}.

Record state := mkState {
  opts : options;
  group_locked : bool;
  gshadow_locked : bool;
  myname : string;
  pass : list ascii;              (* static char pass[BUFSIZ] *)
  grent : group_t;                (* locals of main *)
  sgent : sgrp_t;
  stores : adapter;
  tty_input : list (option string);
  getpass_buf : list ascii        (* the buffer getpass returns *)
}.

Definition set_opts (f : options -> options) (s : state) : state :=
  let '(mkState o gl sl n p g sg a i b) := s in mkState (f o) gl sl n p g sg a i b.
Definition set_group_locked (v : bool) (s : state) : state :=
  let '(mkState o _ sl n p g sg a i b) := s in mkState o v sl n p g sg a i b.
Definition set_gshadow_locked (v : bool) (s : state) : state :=
  let '(mkState o gl _ n p g sg a i b) := s in mkState o gl v n p g sg a i b.
Definition set_myname (v : string) (s : state) : state :=
  let '(mkState o gl sl _ p g sg a i b) := s in mkState o gl sl v p g sg a i b.
Definition set_pass (v : list ascii) (s : state) : state :=
  let '(mkState o gl sl n _ g sg a i b) := s in mkState o gl sl n v g sg a i b.
Definition set_grent (f : group_t -> group_t) (s : state) : state :=
  let '(mkState o gl sl n p g sg a i b) := s in mkState o gl sl n p (f g) sg a i b.
Definition set_sgent (f : sgrp_t -> sgrp_t) (s : state) : state :=
  let '(mkState o gl sl n p g sg a i b) := s in mkState o gl sl n p g (f sg) a i b.
Definition set_stores (f : adapter -> adapter) (s : state) : state :=
  let '(mkState o gl sl n p g sg a i b) := s in mkState o gl sl n p g sg (f a) i b.
Definition set_tty_input (v : list (option string)) (s : state) : state :=
  let '(mkState o gl sl n p g sg a _ b) := s in mkState o gl sl n p g sg a v b.
Definition set_getpass_buf (v : list ascii) (s : state) : state :=
  let '(mkState o gl sl n p g sg a i _) := s in mkState o gl sl n p g sg a i v.

Definition with_gr_passwd (v : string) (g : group_t) : group_t :=
  mkGroup (gr_name g) v (gr_gid g) (gr_mem g).
Definition with_gr_mem (v : list string) (g : group_t) : group_t :=
  mkGroup (gr_name g) (gr_passwd g) (gr_gid g) v.
Definition with_sg_passwd (v : string) (g : sgrp_t) : sgrp_t :=
  mkSgrp (sg_name g) v (sg_adm g) (sg_mem g).
Definition with_sg_adm (v : list string) (g : sgrp_t) : sgrp_t :=
  mkSgrp (sg_name g) (sg_passwd g) v (sg_mem g).
Definition with_sg_mem (v : list string) (g : sgrp_t) : sgrp_t :=
  mkSgrp (sg_name g) (sg_passwd g) (sg_adm g) v.

Definition with_gr_db (v : option (open_mode * list group_t)) (a : adapter) :=
  mkAdapter (group_file a) (gshadow_file a) v (sgr_db a)
            (gr_lock_held a) (sgr_lock_held a).
Definition with_sgr_db (v : option (open_mode * list sgrp_t)) (a : adapter) :=
  mkAdapter (group_file a) (gshadow_file a) (gr_db a) v
            (gr_lock_held a) (sgr_lock_held a).
Definition with_group_file (v : list group_t) (a : adapter) :=
  mkAdapter v (gshadow_file a) (gr_db a) (sgr_db a)
            (gr_lock_held a) (sgr_lock_held a).
Definition with_gshadow_file (v : list sgrp_t) (a : adapter) :=
  mkAdapter (group_file a) v (gr_db a) (sgr_db a)
            (gr_lock_held a) (sgr_lock_held a).
Definition with_gr_lock_held (v : bool) (a : adapter) :=
  mkAdapter (group_file a) (gshadow_file a) (gr_db a) (sgr_db a)
            v (sgr_lock_held a).
Definition with_sgr_lock_held (v : bool) (a : adapter) :=
  mkAdapter (group_file a) (gshadow_file a) (gr_db a) (sgr_db a)
            (gr_lock_held a) v.

(** ** The state-and-exit monad *)

Inductive outcome (A : Type) : Type :=
| Returns (a : A)
| Exits (status : Z).
Arguments Exits {A} status.

(** A computation yields its outcome, the state it leaves and the events
    it produced, oldest first. *)
Definition M (A : Type) : Type := state -> outcome A * state * list event.

Definition ret {A} (a : A) : M A := fun s => (Returns a, s, []).

Definition bind {A B} (m : M A) (f : A -> M B) : M B :=
  fun s =>
    match m s with
    | (Returns a, s1, t1) =>
        let '(o, s2, t2) := f a s1 in (o, s2, t1 ++ t2)
    | (Exits n, s1, t1) => (Exits n, s1, t1)
    end.

Declare Scope gp_scope.
Delimit Scope gp_scope with gp.
Notation "x <- m ;; k" := (bind m (fun x => k))
  (at level 61, m at next level, right associativity) : gp_scope.
Notation "m ;; k" := (bind m (fun _ => k))
  (at level 61, right associativity) : gp_scope.
Local Open Scope gp_scope.

Definition exit {A} (status : Z) : M A := fun s => (Exits status, s, []).
Definition emit (e : event) : M unit := fun s => (Returns tt, s, [e]).
Definition gets {A} (f : state -> A) : M A := fun s => (Returns (f s), s, []).
Definition modify (f : state -> state) : M unit := fun s => (Returns tt, f s, []).
Definition when (b : bool) (m : M unit) : M unit := if b then m else ret tt.

Definition fprintf_stderr (m : message) : M unit := emit (EStderr m).
Definition puts (m : message) : M unit := emit (EStdout m).

Definition outcome_of {A} (r : outcome A * state * list event) : outcome A :=
  fst (fst r).
Definition state_of {A} (r : outcome A * state * list event) : state :=
  snd (fst r).
Definition trace_of {A} (r : outcome A * state * list event) : list event :=
  snd r.

(** ** C strings *)

Module CString.

(** Offset of the first occurrence of [c] in [s] ([strchr], as an offset
    from the start; [None] for NULL). *)
Fixpoint strchr (s : string) (c : ascii) : option nat :=
  match s with
  | EmptyString => None
  | String a s' =>
      if Ascii.eqb a c then Some O
      else match strchr s' c with
           | Some i => Some (S i)
           | None => None
           end
  end.

(** The first [n] characters of [s]: what [strncpy (dst, s, n)] followed
    by [dst[n] = 0] leaves in [dst], for a source without NUL. *)
Fixpoint strncpy (s : string) (n : nat) : string :=
  match n, s with
  | S n', String a s' => String a (strncpy s' n')
  | _, _ => EmptyString
  end.

(** The string that starts [n] characters into [s] (pointer [s + n]). *)
Fixpoint advance (s : string) (n : nat) : string :=
  match n, s with
  | S n', String _ s' => advance s' n'
  | _, _ => s
  end.

Definition NUL : ascii := Ascii.zero.

(** The bytes of a buffer up to its first NUL. *)
Fixpoint cstr (buf : list ascii) : list ascii :=
  match buf with
  | [] => []
  | a :: buf' => if Ascii.eqb a NUL then [] else a :: cstr buf'
  end.

Definition memzero (n : nat) : list ascii := repeat NUL n.

(** [strzero (s)] is [memzero (s, strlen (s))]. *)
Definition strzero (buf : list ascii) : list ascii :=
  memzero (List.length (cstr buf)) ++ skipn (List.length (cstr buf)) buf.

(** [STRFCPY (A, B)] into a buffer of [size] bytes:
    [strncpy (A, B, sizeof (A) - 1)], which pads with NUL, then
    [A[sizeof (A) - 1] = 0]. *)
Definition STRFCPY (size : nat) (src : list ascii) : list ascii :=
  let copied := firstn (size - 1) (cstr src) in
  copied ++ memzero (size - List.length copied).

(** [strcmp (a, b) == 0]. *)
Definition streq (a b : list ascii) : bool :=
  String.eqb (string_of_list_ascii (cstr a)) (string_of_list_ascii (cstr b)).

Definition all_zero (buf : list ascii) : bool :=
  forallb (fun a => Ascii.eqb a NUL) buf.

End CString.
Export CString.

(** ** The command line, as [getopt] hands it over *)

Inductive getopt_flag :=
| Flag_a (optarg : string)
| Flag_A (optarg : string)
| Flag_d (optarg : string)
| Flag_g
| Flag_M (optarg : string)
| Flag_r
| Flag_R
| Flag_unknown.

Record cmdline := mkCmdline {
  flags : list getopt_flag;      (* successive results of getopt *)
  operands : list string         (* argv[optind] ... argv[argc - 1] *)
}.

Section Gpasswd.

Variable bld : build.
Variable env : environment.

(** [is_shadowgrp] is assigned once, from [sgr_file_present ()], and only
    exists under [SHADOWGRP]. *)
Definition is_shadowgrp : bool := SHADOWGRP bld && sgr_file_present env.

Definition amroot : bool := (0 =? bywho env).

Definition the_group (s : state) : string :=
  match group (opts s) with Some g => g | None => "" end.

(** *** Record store adapter and other collaborators *)

(** Modelled from the spec: the lock of the Record Store Adapter is
    non-blocking and exclusive; it fails when another process holds it. *)
Definition gr_lock : M bool :=
  if gr_busy env then emit (EGrLock false) ;; ret false
  else modify (set_stores (with_gr_lock_held true)) ;;
       emit (EGrLock true) ;; ret true.

Definition sgr_lock : M bool :=
  if sgr_busy env then emit (ESgrLock false) ;; ret false
  else modify (set_stores (with_sgr_lock_held true)) ;;
       emit (ESgrLock true) ;; ret true.

(** Modelled from the spec: unlock releases the lock this process holds
    and reports a failure when it holds none. *)
Definition gr_unlock : M bool :=
  held <- gets (fun s => gr_lock_held (stores s)) ;;
  modify (set_stores (with_gr_lock_held false)) ;;
  emit (EGrUnlock held) ;; ret held.

Definition sgr_unlock : M bool :=
  held <- gets (fun s => sgr_lock_held (stores s)) ;;
  modify (set_stores (with_sgr_lock_held false)) ;;
  emit (ESgrUnlock held) ;; ret held.

(** Modelled from the spec: open loads the records on disk into a
    working copy. *)
Definition gr_open (mode : open_mode) : M bool :=
  let ok := gr_open_ok env mode in
  when ok (modify (fun s =>
    set_stores (with_gr_db (Some (mode, group_file (stores s)))) s)) ;;
  emit (EGrOpen mode ok) ;; ret ok.

Definition sgr_open (mode : open_mode) : M bool :=
  let ok := sgr_open_ok env mode in
  when ok (modify (fun s =>
    set_stores (with_sgr_db (Some (mode, gshadow_file (stores s)))) s)) ;;
  emit (ESgrOpen mode ok) ;; ret ok.

(** Modelled from the spec: "lookup by name must be exact". *)
Definition gr_locate (name : string) : M (option group_t) :=
  db <- gets (fun s => gr_db (stores s)) ;;
  let r := match db with
           | Some (_, l) => find (fun g => String.eqb (gr_name g) name) l
           | None => None
           end in
  emit (EGrLocate name (match r with Some _ => true | None => false end)) ;;
  ret r.

Definition sgr_locate (name : string) : M (option sgrp_t) :=
  db <- gets (fun s => sgr_db (stores s)) ;;
  let r := match db with
           | Some (_, l) => find (fun g => String.eqb (sg_name g) name) l
           | None => None
           end in
  emit (ESgrLocate name (match r with Some _ => true | None => false end)) ;;
  ret r.

Fixpoint put_group (l : list group_t) (g : group_t) : list group_t :=
  match l with
  | [] => [g]
  | x :: l' => if String.eqb (gr_name x) (gr_name g) then g :: l'
               else x :: put_group l' g
  end.

Fixpoint put_sgrp (l : list sgrp_t) (g : sgrp_t) : list sgrp_t :=
  match l with
  | [] => [g]
  | x :: l' => if String.eqb (sg_name x) (sg_name g) then g :: l'
               else x :: put_sgrp l' g
  end.

(** Modelled from the spec: update replaces (or adds) the record of that
    name in the working copy of a store opened for writing. *)
Definition gr_update (g : group_t) : M bool :=
  db <- gets (fun s => gr_db (stores s)) ;;
  match db with
  | Some (O_RDWR, l) =>
      if gr_update_ok env
      then modify (set_stores (with_gr_db (Some (O_RDWR, put_group l g)))) ;;
           emit (EGrUpdate g true) ;; ret true
      else emit (EGrUpdate g false) ;; ret false
  | _ => emit (EGrUpdate g false) ;; ret false
  end.

Definition sgr_update (g : sgrp_t) : M bool :=
  db <- gets (fun s => sgr_db (stores s)) ;;
  match db with
  | Some (O_RDWR, l) =>
      if sgr_update_ok env
      then modify (set_stores (with_sgr_db (Some (O_RDWR, put_sgrp l g)))) ;;
           emit (ESgrUpdate g true) ;; ret true
      else emit (ESgrUpdate g false) ;; ret false
  | _ => emit (ESgrUpdate g false) ;; ret false
  end.

(** Modelled from the spec: close commits the working copy of a store
    opened for writing by replacing the whole file. *)
Definition gr_close : M bool :=
  db <- gets (fun s => gr_db (stores s)) ;;
  match db with
  | None => emit (EGrClose false) ;; ret false
  | Some (mode, l) =>
      let ok := gr_close_ok env mode in
      modify (set_stores (with_gr_db None)) ;;
      when (match mode with O_RDWR => ok | O_RDONLY => false end)
           (modify (set_stores (with_group_file l))) ;;
      emit (EGrClose ok) ;; ret ok
  end.

Definition sgr_close : M bool :=
  db <- gets (fun s => sgr_db (stores s)) ;;
  match db with
  | None => emit (ESgrClose false) ;; ret false
  | Some (mode, l) =>
      let ok := sgr_close_ok env mode in
      modify (set_stores (with_sgr_db None)) ;;
      when (match mode with O_RDWR => ok | O_RDONLY => false end)
           (modify (set_stores (with_gshadow_file l))) ;;
      emit (ESgrClose ok) ;; ret ok
  end.

(** The identity store. *)
Definition pw_lookup (name : string) : bool :=
  existsb (String.eqb name) (passwd env).

Definition getpwnam (name : string) : M bool :=
  emit (EGetpwnam name (pw_lookup name)) ;; ret (pw_lookup name).

Definition get_my_pwent : M (option string) :=
  emit (EGetMyPwent (match my_pwent env with Some _ => true | None => false end)) ;;
  ret (my_pwent env).

(** [getpass] reads the next line the terminal supplies into its own
    buffer; [None] stands for a NULL result. *)
Definition getpass (p : prompt) : M bool :=
  input <- gets tty_input ;;
  match input with
  | Some line :: rest =>
      modify (set_tty_input rest) ;;
      modify (set_getpass_buf (cstr (list_ascii_of_string line))) ;;
      emit (EGetpass p true) ;; ret true
  | None :: rest =>
      modify (set_tty_input rest) ;; emit (EGetpass p false) ;; ret false
  | [] => emit (EGetpass p false) ;; ret false
  end.

Definition c_isatty (fd : Z) : M bool :=
  emit (EIsatty fd (isatty env fd)) ;; ret (isatty env fd).

Definition setuid0 : M bool :=
  emit (ESetuid (setuid_ok env)) ;; ret (setuid_ok env).

Definition nscd_flush_cache : M unit := emit ENscdFlush.

(** *** usage, fail_exit, failure *)

Definition usage {A} : M A :=
  fprintf_stderr MsgUsage ;; exit (E_USAGE bld).

(** fail_exit - undo as much as possible *)
Definition fail_exit {A} (status : Z) : M A :=
  gl <- gets group_locked ;;
  when gl (ok <- gr_unlock ;;
           when (negb ok) (fprintf_stderr MsgCannotUnlockGroup)) ;;
  sl <- gets gshadow_locked ;;
  when (SHADOWGRP bld && sl)
       (ok <- sgr_unlock ;;
        when (negb ok) (fprintf_stderr MsgCannotUnlockShadow)) ;;
  exit status.

Definition failure {A} : M A :=
  fprintf_stderr MsgPermissionDenied ;; fail_exit 1.

(** *** is_valid_user_list *)

(** [sizeof (username)] for [char username[32]]. *)
Definition sizeof_username : nat := 32.

(** The loop of [is_valid_user_list], from [start] on: the final value of
    [valid] and, in order, the lookups made and the messages printed.
    [end] is NULL exactly when no comma follows, which ends the loop. *)
Equations? user_list_loop (start : string) (valid : bool) : bool * list event
  by wf (String.length start) lt :=
  user_list_loop EmptyString valid := (valid, []);
  user_list_loop (String c s) valid with strchr (String c s) "," := {
    | Some i =>
        let len := if (sizeof_username - 1 <? i)%nat
                   then (sizeof_username - 1)%nat else i in
        let username := strncpy (String c s) len in
        let found := pw_lookup username in
        let r := user_list_loop (advance (String c s) (S i))
                                (if found then valid else false) in
        (fst r,
         EGetpwnam username found
           :: (if found then [] else [EStderr (MsgUserNotExist username)])
           ++ snd r)
    | None =>
        let len := if (sizeof_username - 1 <? String.length (String c s))%nat
                   then (sizeof_username - 1)%nat
                   else String.length (String c s) in
        let username := strncpy (String c s) len in
        let found := pw_lookup username in
        (if found then valid else false,
         EGetpwnam username found
           :: (if found then [] else [EStderr (MsgUserNotExist username)]))
  }.
Proof.
  clear. revert s. induction i as [| i IH]; intros s.
  - destruct s; simpl; lia.
  - destruct s as [| a s]; simpl; [lia |].
    specialize (IH s). lia.
Qed.

Definition is_valid_user_list (users : string) : M bool :=
  fun st => (Returns (fst (user_list_loop users true)), st,
             snd (user_list_loop users true)).

(** *** process_flags, check_flags *)

Definition process_flag (f : getopt_flag) : M unit :=
  match f with
  | Flag_a optarg =>
      modify (set_opts (fun o => mkOptions (aflg o) (Aflg o) (dflg o) (Mflg o)
                (rflg o) (Rflg o) (group o) optarg (members o) (admins o))) ;;
      pw <- getpwnam optarg ;;
      when (negb pw)
           (fprintf_stderr (MsgUserNotExist optarg) ;; fail_exit 1) ;;
      modify (set_opts (fun o => mkOptions true (Aflg o) (dflg o) (Mflg o)
                (rflg o) (Rflg o) (group o) (user o) (members o) (admins o)))
  | Flag_A optarg =>
      if SHADOWGRP bld then
        when (negb amroot) failure ;;
        when (negb is_shadowgrp)
             (fprintf_stderr MsgShadowRequired ;; fail_exit 2) ;;
        modify (set_opts (fun o => mkOptions (aflg o) (Aflg o) (dflg o) (Mflg o)
                  (rflg o) (Rflg o) (group o) (user o) (members o) optarg)) ;;
        valid <- is_valid_user_list optarg ;;
        when (negb valid) (fail_exit 1) ;;
        modify (set_opts (fun o => mkOptions (aflg o) true (dflg o) (Mflg o)
                  (rflg o) (Rflg o) (group o) (user o) (members o) (admins o)))
      else usage
  | Flag_d optarg =>
      modify (set_opts (fun o => mkOptions (aflg o) (Aflg o) true (Mflg o)
                (rflg o) (Rflg o) (group o) optarg (members o) (admins o)))
  | Flag_g => ret tt
  | Flag_M optarg =>
      when (negb amroot) failure ;;
      modify (set_opts (fun o => mkOptions (aflg o) (Aflg o) (dflg o) (Mflg o)
                (rflg o) (Rflg o) (group o) (user o) optarg (admins o))) ;;
      valid <- is_valid_user_list optarg ;;
      when (negb valid) (fail_exit 1) ;;
      modify (set_opts (fun o => mkOptions (aflg o) (Aflg o) (dflg o) true
                (rflg o) (Rflg o) (group o) (user o) (members o) (admins o)))
  | Flag_r =>
      modify (set_opts (fun o => mkOptions (aflg o) (Aflg o) (dflg o) (Mflg o)
                true (Rflg o) (group o) (user o) (members o) (admins o)))
  | Flag_R =>
      modify (set_opts (fun o => mkOptions (aflg o) (Aflg o) (dflg o) (Mflg o)
                (rflg o) true (group o) (user o) (members o) (admins o)))
  | Flag_unknown => usage
  end.

(** The [while ((flag = getopt (...)) != EOF)] loop. *)
Fixpoint process_flags_loop (fl : list getopt_flag) : M unit :=
  match fl with
  | [] => ret tt
  | f :: rest => process_flag f ;; process_flags_loop rest
  end.

Definition b2n (b : bool) : nat := if b then 1%nat else 0%nat.

(** check_flags - check the validity of options; [noperands] is
    [argc - opt_index]. *)
Definition check_flags (noperands : nat) : M unit :=
  o <- gets opts ;;
  let exclusive := (b2n (aflg o) + b2n (dflg o) + b2n (rflg o) + b2n (Rflg o)
                    + b2n (Aflg o || Mflg o))%nat in
  when (1 <? exclusive)%nat usage ;;
  when (negb (noperands =? 1)%nat
        || match group o with None => true | Some _ => false end) usage.

Definition process_flags (cmd : cmdline) : M unit :=
  process_flags_loop (flags cmd) ;;
  modify (set_opts (fun o => mkOptions (aflg o) (Aflg o) (dflg o) (Mflg o)
            (rflg o) (Rflg o) (hd_error (operands cmd)) (user o) (members o)
            (admins o))) ;;
  check_flags (List.length (operands cmd)).

(** *** open_files, close_files, update_group *)

(** open_files - lock and open the group databases *)
Definition open_files : M unit :=
  ok <- gr_lock ;;
  when (negb ok) (fprintf_stderr MsgCannotLockGroup ;; fail_exit 1) ;;
  modify (set_group_locked true) ;;
  when is_shadowgrp
       (ok <- sgr_lock ;;
        when (negb ok) (fprintf_stderr MsgCannotLockShadow ;; fail_exit 1) ;;
        modify (set_gshadow_locked true)) ;;
  ok <- gr_open O_RDWR ;;
  when (negb ok) (fprintf_stderr MsgCannotOpenGroup ;; fail_exit 1) ;;
  when is_shadowgrp
       (ok <- sgr_open O_RDWR ;;
        when (negb ok) (fprintf_stderr MsgCannotOpenShadow ;; fail_exit 1)).

(** close_files - close and unlock the group databases *)
Definition close_files : M unit :=
  ok <- gr_close ;;
  when (negb ok) (fprintf_stderr MsgCannotRewriteGroup ;; fail_exit 1) ;;
  when is_shadowgrp
       (ok <- sgr_close ;;
        when (negb ok) (fprintf_stderr MsgCannotRewriteShadow ;; fail_exit 1)) ;;
  when is_shadowgrp
       (ok <- sgr_unlock ;;
        when (negb ok) (fprintf_stderr MsgCannotUnlockShadow) ;;
        modify (set_gshadow_locked false)) ;;
  ok <- gr_unlock ;;
  when (negb ok) (fprintf_stderr MsgCannotUnlockGroup) ;;
  modify (set_group_locked false).

(** update_group - Update the group information in the databases *)
Definition update_group : M unit :=
  gr <- gets grent ;;
  ok <- gr_update gr ;;
  when (negb ok)
       (fprintf_stderr (MsgCannotUpdateGroup (gr_name gr)) ;; fail_exit 1) ;;
  when is_shadowgrp
       (sg <- gets sgent ;;
        ok <- sgr_update sg ;;
        when (negb ok)
             (fprintf_stderr (MsgCannotUpdateShadow (sg_name sg)) ;;
              fail_exit 1)).

(** *** check_perms *)

(** check_perms - check if the user is allowed to change the password of
    the specified group.  It only returns if the user is allowed. *)
Definition check_perms : M unit :=
  gr <- gets grent ;;
  sg <- gets sgent ;;
  me <- gets myname ;;
  if is_shadowgrp then
    when (negb amroot && negb (is_on_list (sg_adm sg) me)) failure
  else if FIRST_MEMBER_IS_ADMIN bld then
    when (negb amroot)
         (match gr_mem gr with
          | [] => failure
          | first :: _ => when (negb (String.eqb first me)) failure
          end)
  else
    when (negb amroot) failure.

(** *** get_group *)

(** get_group - get the current information for the group.  If
    [!is_shadowgrp], [sgent] is left as it was. *)
Definition get_group : M unit :=
  ok <- gr_open O_RDONLY ;;
  when (negb ok) (fprintf_stderr MsgCannotOpenGroup ;; fail_exit 1) ;;
  g <- gets the_group ;;
  tmpgr <- gr_locate g ;;
  match tmpgr with
  | None => fprintf_stderr (MsgGroupNotExist g) ;; failure
  | Some t =>
      modify (set_grent (fun _ =>
        mkGroup (gr_name t) (gr_passwd t) (gr_gid t) (dup_list (gr_mem t))))
  end ;;
  ok <- gr_close ;;
  when (negb ok) (fprintf_stderr MsgCannotRewriteGroup ;; fail_exit 1) ;;
  when is_shadowgrp
       (ok <- sgr_open O_RDONLY ;;
        when (negb ok) (fprintf_stderr MsgCannotOpenShadow ;; fail_exit 1) ;;
        tmpsg <- sgr_locate g ;;
        match tmpsg with
        | Some t =>
            modify (set_sgent (fun _ =>
              mkSgrp (sg_name t) (sg_passwd t)
                     (dup_list (sg_adm t)) (dup_list (sg_mem t))))
        | None =>
            gr <- gets grent ;;
            modify (set_grent (with_gr_passwd SHADOW_PASSWD_STRING)) ;;
            let mem := dup_list (gr_mem gr) in
            modify (set_sgent (fun _ =>
              mkSgrp g (gr_passwd gr)
                     (if FIRST_MEMBER_IS_ADMIN bld
                      then match mem with
                           | first :: _ => [first]
                           | [] => []
                           end
                      else [])
                     mem))
        end ;;
        ok <- sgr_close ;;
        when (negb ok) (fprintf_stderr MsgCannotRewriteShadow ;; fail_exit 1)).

(** *** change_passwd *)

Inductive attempt := Matched | Mismatched.

(** One turn of the [for] loop of [change_passwd]. *)
Definition change_passwd_attempt (retries : nat) : M attempt :=
  cp <- getpass NewPassword ;;
  when (negb cp) (fail_exit 1) ;;
  modify (fun s => set_pass (STRFCPY (BUFSIZ bld) (getpass_buf s)) s) ;;
  modify (fun s => set_getpass_buf (strzero (getpass_buf s)) s) ;;
  cp <- getpass ReEnterNewPassword ;;
  when (negb cp) (fail_exit 1) ;;
  same <- gets (fun s => streq (pass s) (getpass_buf s)) ;;
  if same then
    modify (fun s => set_getpass_buf (strzero (getpass_buf s)) s) ;;
    ret Matched
  else
    modify (fun s => set_getpass_buf (strzero (getpass_buf s)) s) ;;
    modify (set_pass (memzero (BUFSIZ bld))) ;;
    when (retries + 1 <? RETRIES)%nat (puts MsgDontMatch) ;;
    ret Mismatched.

(** [for (retries = 0; retries < RETRIES; retries++)], with [remaining]
    standing for [RETRIES - retries]; yields [retries] as the loop
    leaves it. *)
Fixpoint change_passwd_loop (remaining retries : nat) : M nat :=
  match remaining with
  | O => ret retries
  | S k =>
      r <- change_passwd_attempt retries ;;
      match r with
      | Matched => ret retries
      | Mismatched => change_passwd_loop k (S retries)
      end
  end.

(** change_passwd - change the group's password *)
Definition change_passwd : M unit :=
  g <- gets the_group ;;
  puts (MsgChangingPassword g) ;;
  retries <- change_passwd_loop RETRIES 0 ;;
  when (retries =? RETRIES)%nat
       (fprintf_stderr MsgTryAgainLater ;; fail_exit 1) ;;
  p <- gets pass ;;
  let cp := pw_encrypt env (string_of_list_ascii (cstr p)) in
  modify (set_pass (memzero (BUFSIZ bld))) ;;
  if is_shadowgrp then modify (set_sgent (with_sg_passwd cp))
  else modify (set_grent (with_gr_passwd cp)).

(** *** main *)

(** The [-d] block of [main]. *)
Definition delete_member : M unit :=
  o <- gets opts ;;
  g <- gets the_group ;;
  puts (MsgRemoving (user o) g) ;;
  gr <- gets grent ;;
  let removed1 := is_on_list (gr_mem gr) (user o) in
  when removed1
       (modify (set_grent (with_gr_mem (del_list (gr_mem gr) (user o))))) ;;
  sg <- gets sgent ;;
  let removed2 := is_shadowgrp && is_on_list (sg_mem sg) (user o) in
  when removed2
       (modify (set_sgent (with_sg_mem (del_list (sg_mem sg) (user o))))) ;;
  when (negb (removed1 || removed2))
       (fprintf_stderr (MsgNotMember (user o) g) ;; fail_exit 1).

(** The [-a] block of [main]. *)
Definition add_member : M unit :=
  o <- gets opts ;;
  g <- gets the_group ;;
  puts (MsgAdding (user o) g) ;;
  modify (set_grent (fun gr => with_gr_mem (add_list (gr_mem gr) (user o)) gr)) ;;
  when is_shadowgrp
       (modify (set_sgent (fun sg =>
          with_sg_mem (add_list (sg_mem sg) (user o)) sg))).

(** The interactive branch of [main]: both ends must be a tty. *)
Definition prompt_for_password : M unit :=
  in_tty <- c_isatty 0 ;;
  out_tty <- (if in_tty then c_isatty 1 else ret true) ;;
  when (negb in_tty || negb out_tty)
       (fprintf_stderr MsgNotATty ;; fail_exit 1) ;;
  change_passwd.

(** [main] from the permission check down to the label [output]: the
    one operation selected by the flags, applied to [grent] / [sgent]. *)
Definition operation : M unit :=
  o <- gets opts ;;
  if rflg o then
    modify (set_grent (with_gr_passwd "")) ;;
    when (SHADOWGRP bld) (modify (set_sgent (with_sg_passwd "")))
  else if Rflg o then
    modify (set_grent (with_gr_passwd "!")) ;;
    when (SHADOWGRP bld) (modify (set_sgent (with_sg_passwd "!")))
  else if aflg o then add_member
  else if dflg o then delete_member
  else
    when (SHADOWGRP bld && Aflg o)
         (modify (set_sgent (with_sg_adm (comma_to_list env (admins o))))) ;;
    if SHADOWGRP bld && Aflg o && negb (Mflg o) then ret tt
    else if Mflg o then
      when (SHADOWGRP bld)
           (modify (set_sgent (with_sg_mem (comma_to_list env (members o))))) ;;
      modify (set_grent (with_gr_mem (comma_to_list env (members o))))
    else prompt_for_password.

(** [main] from the label [output] on. *)
Definition output : M unit :=
  ok <- setuid0 ;;
  when (negb ok) (fprintf_stderr MsgCannotChangeId ;; fail_exit 1) ;;
  open_files ;;
  update_group ;;
  close_files ;;
  nscd_flush_cache ;;
  exit E_SUCCESS.

(** [main] up to the label [output]. *)
Definition prepare (cmd : cmdline) : M unit :=
  process_flags cmd ;;
  pw <- get_my_pwent ;;
  match pw with
  | None => fprintf_stderr MsgWhoAreYou ;; failure
  | Some name => modify (set_myname name)
  end ;;
  get_group ;;
  check_perms ;;
  operation.

Definition main (cmd : cmdline) : M unit :=
  prepare cmd ;; output.

End Gpasswd.

(** The state [main] starts in: nothing locked, no option seen, [pass]
    zero-filled (static storage), [grent] and [sgent] whatever the stack
    holds, the stores closed and unlocked. *)
Definition initial_state (bld : build) (grent0 : group_t) (sgent0 : sgrp_t)
    (gfile : list group_t) (sfile : list sgrp_t)
    (input : list (option string)) : state :=
  mkState no_options false false "" (memzero (BUFSIZ bld)) grent0 sgent0
          (mkAdapter gfile sfile None None false false) input [].

(** ** Specification-level definitions *)

(** The authorization policy, in the words of the design: root is always
    allowed; with a shadow store the caller must be on the admin list;
    without one the legacy flag lets the first listed member in and
    nobody else. *)
Definition authorize (is_root shadow_in_use legacy_flag : bool)
    (caller : string) (admin_list member_list : list string) : bool :=
  if is_root then true
  else if shadow_in_use then
    if in_dec string_dec caller admin_list then true else false
  else if legacy_flag then
    match member_list with
    | first :: _ => if string_dec first caller then true else false
    | [] => false
    end
  else false.

(** Nothing is locked, neither by the flags nor in the stores. *)
Definition lock_free (s : state) : Prop :=
  group_locked s = false /\ gshadow_locked s = false /\
  gr_lock_held (stores s) = false /\ sgr_lock_held (stores s) = false.

Definition is_lock_event (e : event) : bool :=
  match e with
  | EGrLock _ | ESgrLock _ => true
  | _ => false
  end.

(** Events of the load, authorization and mutation phase: read-only
    opens, record lookups, identity-store lookups and the prompt. *)
Definition is_load_event (e : event) : bool :=
  match e with
  | EGrOpen O_RDONLY _ | ESgrOpen O_RDONLY _
  | EGrLocate _ _ | ESgrLocate _ _
  | EGetMyPwent _ | EGetpwnam _ _ | EGetpass _ _ | EIsatty _ _ => true
  | _ => false
  end.

(** Any call into the record store adapter. *)
Definition is_store_event (e : event) : bool :=
  match e with
  | EGrLock _ | ESgrLock _ | EGrUnlock _ | ESgrUnlock _
  | EGrOpen _ _ | ESgrOpen _ _ | EGrLocate _ _ | ESgrLocate _ _
  | EGrUpdate _ _ | ESgrUpdate _ _ | EGrClose _ | ESgrClose _ => true
  | _ => false
  end.

Definition is_getpwnam_event (e : event) : bool :=
  match e with
  | EGetpwnam _ _ => true
  | _ => false
  end.

(** Replays a trace and tells whether every record lookup happened while
    the lock of the primary store was held. *)
Fixpoint locates_under_lock (held : bool) (t : list event) : bool :=
  match t with
  | [] => true
  | EGrLock ok :: t' => locates_under_lock (held || ok) t'
  | EGrUnlock _ :: t' => locates_under_lock false t'
  | EGrLocate _ _ :: t' => held && locates_under_lock held t'
  | ESgrLocate _ _ :: t' => held && locates_under_lock held t'
  | _ :: t' => locates_under_lock held t'
  end.

(** Replays a trace and tells whether every open for writing, every
    update and every close of a store happened while the lock of that
    store was held. *)
Fixpoint writes_under_lock (gr_held sgr_held : bool) (t : list event) : bool :=
  match t with
  | [] => true
  | EGrLock ok :: t' => writes_under_lock (gr_held || ok) sgr_held t'
  | ESgrLock ok :: t' => writes_under_lock gr_held (sgr_held || ok) t'
  | EGrUnlock _ :: t' => writes_under_lock false sgr_held t'
  | ESgrUnlock _ :: t' => writes_under_lock gr_held false t'
  | EGrOpen O_RDWR _ :: t' | EGrUpdate _ _ :: t' | EGrClose _ :: t' =>
      gr_held && writes_under_lock gr_held sgr_held t'
  | ESgrOpen O_RDWR _ :: t' | ESgrUpdate _ _ :: t' | ESgrClose _ :: t' =>
      sgr_held && writes_under_lock gr_held sgr_held t'
  | _ :: t' => writes_under_lock gr_held sgr_held t'
  end.

(** The first [n] characters of a name. *)
Definition truncated (n : nat) (name : string) : string := strncpy name n.

(** What one turn of the validation loop does for a token. *)
Definition lookup_events (passwd : list string) (token : string) : list event :=
  let name := truncated 31 token in
  let found := existsb (String.eqb name) passwd in
  EGetpwnam name found
    :: (if found then [] else [EStderr (MsgUserNotExist name)]).

(** A comma-separated list, from its tokens. *)
Definition join_commas (tokens : list string) : string :=
  String.concat "," tokens.

(** Two entries at the prompt that the comparison of [change_passwd]
    tells apart. *)
Definition mismatch (bufsiz : nat) (first second : string) : Prop :=
  streq (STRFCPY bufsiz (cstr (list_ascii_of_string first)))
        (cstr (list_ascii_of_string second)) = false.

(** [m] preserves the state invariant [P] and produces only events that
    satisfy [Q], whether it returns or exits. *)
Definition keeps (P : state -> Prop) (Q : event -> Prop) {A} (m : M A) : Prop :=
  forall s, P s -> P (state_of (m s)) /\ Forall Q (trace_of (m s)).

Definition no_lock_event (e : event) : Prop := is_lock_event e = false.
Definition no_load_event (e : event) : Prop := is_load_event e = false.
Definition no_store_event (e : event) : Prop := is_store_event e = false.
Definition no_getpwnam_event (e : event) : Prop := is_getpwnam_event e = false.

(** The record pair and the stores are as in [s0], and nothing is
    locked. *)
Definition untouched (s0 s : state) : Prop :=
  lock_free s /\ stores s = stores s0 /\ grent s = grent s0 /\
  sgent s = sgent s0.

(** [-A] where the build knows it, and [-M]. *)
Definition root_only (bld : build) (f : getopt_flag) : Prop :=
  match f with
  | Flag_A _ => SHADOWGRP bld = true
  | Flag_M _ => True
  | _ => False
  end.

Definition is_new_password_prompt (e : event) : bool :=
  match e with
  | EGetpass NewPassword _ => true
  | _ => false
  end.

(** How often a run asked for a new password. *)
Definition attempts (t : list event) : nat :=
  List.length (filter is_new_password_prompt t).

Definition no_new_password_prompt (e : event) : Prop :=
  is_new_password_prompt e = false.

(** What the text after the last comma contributes: a token, unless
    nothing is there. *)
Definition last_token (t : string) : list string :=
  match t with
  | EmptyString => []
  | _ => [t]
  end.

(** The tokens of a comma-separated list, in the words of the design:
    split on [","]. *)
Fixpoint split_from (acc : string) (s : string) : list string :=
  match s with
  | EmptyString => last_token acc
  | String c s' =>
      if Ascii.eqb c "," then acc :: split_from "" s'
      else split_from (acc ++ String c "") s'
  end.

Definition split_commas (users : string) : list string := split_from "" users.

(** Tokens without a comma, the last of which is not empty: the lists
    whose text splits back into exactly these tokens. *)
Definition well_formed_tokens (tokens : list string) : Prop :=
  Forall (fun t => strchr t "," = None) tokens /\
  last tokens "-"%string <> ""%string.

(** The environment with another identity store. *)
Definition with_passwd (names : list string) (env : environment) : environment :=
  mkEnv (bywho env) (sgr_file_present env) names (my_pwent env) (gr_busy env)
        (sgr_busy env) (gr_open_ok env) (sgr_open_ok env) (gr_close_ok env)
        (sgr_close_ok env) (gr_update_ok env) (sgr_update_ok env) (isatty env)
        (setuid_ok env) (pw_encrypt env) (comma_to_list env).

(** Every call the commit phase makes into its collaborators succeeds. *)
Definition commit_unhindered (env : environment) : Prop :=
  setuid_ok env = true /\
  gr_busy env = false /\ sgr_busy env = false /\
  gr_open_ok env O_RDWR = true /\ sgr_open_ok env O_RDWR = true /\
  gr_update_ok env = true /\ sgr_update_ok env = true /\
  gr_close_ok env O_RDWR = true /\ sgr_close_ok env O_RDWR = true.

(** ** Further specification-level definitions *)

(** The operation an option asks for: the five groups [check_flags]
    counts, [-A] and [-M] being one. *)
Definition flag_group (f : getopt_flag) : option nat :=
  match f with
  | Flag_a _ => Some 0%nat
  | Flag_d _ => Some 1%nat
  | Flag_r => Some 2%nat
  | Flag_R => Some 3%nat
  | Flag_A _ | Flag_M _ => Some 4%nat
  | Flag_g | Flag_unknown => None
  end.

(** Whether the flag of a group is set. *)
Definition group_set (i : nat) (o : options) : bool :=
  match i with
  | 0%nat => aflg o
  | 1%nat => dflg o
  | 2%nat => rflg o
  | 3%nat => Rflg o
  | _ => Aflg o || Mflg o
  end.

(** [m], when it returns, leaves a state that satisfies [R]. *)
Definition ensures (R : state -> Prop) {A} (m : M A) : Prop :=
  forall s, match m s with
            | (Returns _, s', _) => R s'
            | (Exits _, _, _) => True
            end.

(** The shadow record [get_group] makes up for a group the shadow file
    does not list. *)
Definition synthesized_shadow (bld : build) (g : string) (t : group_t) : sgrp_t :=
  mkSgrp g (gr_passwd t)
         (if FIRST_MEMBER_IS_ADMIN bld
          then match gr_mem t with
               | first :: _ => [first]
               | [] => []
               end
          else [])
         (gr_mem t).

(** The record pair [get_group] leaves in memory when the group file
    lists [t] for the group [g]; [sg0] is what [sgent] held before. *)
Definition loaded_pair (bld : build) (env : environment) (g : string)
    (t : group_t) (sfile : list sgrp_t) (sg0 : sgrp_t) : group_t * sgrp_t :=
  if is_shadowgrp bld env then
    match find (fun x => String.eqb (sg_name x) g) sfile with
    | Some sg => (t, sg)
    | None => (with_gr_passwd SHADOW_PASSWD_STRING t, synthesized_shadow bld g t)
    end
  else (t, sg0).

(** The read-only opens and closes of [get_group] succeed. *)
Definition stores_readable (env : environment) : Prop :=
  gr_open_ok env O_RDONLY = true /\ gr_close_ok env O_RDONLY = true /\
  sgr_open_ok env O_RDONLY = true /\ sgr_close_ok env O_RDONLY = true.

(** The state [get_group] returns in: the pair loaded, the handles it
    used closed. *)
Definition after_load (bld : build) (env : environment)
    (pair : group_t * sgrp_t) (s : state) : state :=
  set_stores (fun a => if is_shadowgrp bld env
                       then with_sgr_db None (with_gr_db None a)
                       else with_gr_db None a)
    (set_sgent (fun _ => snd pair) (set_grent (fun _ => fst pair) s)).

(** The events of a successful [get_group]. *)
Definition load_events (bld : build) (env : environment) (g : string)
    (sfile : list sgrp_t) : list event :=
  [EGrOpen O_RDONLY true; EGrLocate g true; EGrClose true]
  ++ (if is_shadowgrp bld env
      then [ESgrOpen O_RDONLY true;
            ESgrLocate g (match find (fun x => String.eqb (sg_name x) g) sfile
                          with Some _ => true | None => false end);
            ESgrClose true]
      else []).

(** The files are as given. *)
Definition files_are (gfile : list group_t) (sfile : list sgrp_t)
    (s : state) : Prop :=
  lock_free s /\ group_file (stores s) = gfile /\
  gshadow_file (stores s) = sfile.

(** Any call into the shadow side of the record store adapter. *)
Definition is_sgr_event (e : event) : bool :=
  match e with
  | ESgrLock _ | ESgrUnlock _ | ESgrOpen _ _ | ESgrLocate _ _
  | ESgrUpdate _ _ | ESgrClose _ => true
  | _ => false
  end.

Definition no_sgr_event (e : event) : Prop := is_sgr_event e = false.

(** Two entries at the prompt that the comparison of [change_passwd]
    finds equal. *)
Definition agree (bufsiz : nat) (first second : string) : Prop :=
  streq (STRFCPY bufsiz (cstr (list_ascii_of_string first)))
        (cstr (list_ascii_of_string second)) = true.

(** The password [change_passwd] keeps of an entry: what fits in [pass]
    with its final NUL. *)
Definition kept_password (bufsiz : nat) (entry : string) : string :=
  string_of_list_ascii
    (firstn (bufsiz - 1) (cstr (list_ascii_of_string entry))).

(** No operation flag is set: the password is to be changed. *)
Definition no_operation (o : options) : Prop :=
  rflg o = false /\ Rflg o = false /\ aflg o = false /\ dflg o = false /\
  Aflg o = false /\ Mflg o = false.

(** [r] is a return of [change_passwd] from [s] that took [entry] as the
    new password, [again] being what was typed at the second prompt: its
    hash is in the record that holds the password, the other record and
    the stores are as in [s], and the two buffers are zeroed: [pass] is
    [BUFSIZ] NUL bytes, and the buffer of [getpass] holds a NUL for
    every byte of [again]. *)
Definition password_accepted (bld : build) (env : environment) (s : state)
    (entry again : string) (r : outcome unit * state * list event) : Prop :=
  outcome_of r = Returns tt /\
  (is_shadowgrp bld env = true ->
     sgent (state_of r)
       = with_sg_passwd (pw_encrypt env (kept_password (BUFSIZ bld) entry))
                        (sgent s) /\
     grent (state_of r) = grent s) /\
  (is_shadowgrp bld env = false ->
     grent (state_of r)
       = with_gr_passwd (pw_encrypt env (kept_password (BUFSIZ bld) entry))
                        (grent s) /\
     sgent (state_of r) = sgent s) /\
  all_zero (pass (state_of r)) = true /\
  all_zero (getpass_buf (state_of r)) = true /\
  pass (state_of r) = repeat NUL (BUFSIZ bld) /\
  getpass_buf (state_of r)
    = repeat NUL (List.length (cstr (list_ascii_of_string again))) /\
  stores (state_of r) = stores s.

(** The terminal has no answer to give: [getpass] will return NULL. *)
Definition no_answer (input : list (option string)) : Prop :=
  match input with
  | [] | None :: _ => True
  | Some _ :: _ => False
  end.

(** Every step of the commit phase in front of [close_files] succeeds:
    the change of identity, the locks, the opens for writing and the
    updates, those of the shadow store counting only where it is in
    use. *)
Definition writes_prepared (bld : build) (env : environment) : bool :=
  setuid_ok env && negb (gr_busy env) && gr_open_ok env O_RDWR
  && gr_update_ok env
  && (negb (is_shadowgrp bld env)
      || (negb (sgr_busy env) && sgr_open_ok env O_RDWR && sgr_update_ok env)).

Definition is_close_event (e : event) : bool :=
  match e with
  | EGrClose _ | ESgrClose _ => true
  | _ => false
  end.

(** The shadow side is idle: its lock flag is clear and its file is as
    given. *)
Definition shadow_idle (sfile : list sgrp_t) (s : state) : Prop :=
  gshadow_locked s = false /\ gshadow_file (stores s) = sfile.

(** The verdict of the permission check on a record pair, for the
    caller [me] on the host [env]. *)
Definition may_administer (bld : build) (env : environment) (me : string)
    (pair : group_t * sgrp_t) : bool :=
  authorize (amroot env) (is_shadowgrp bld env) (FIRST_MEMBER_IS_ADMIN bld)
            me (sg_adm (snd pair)) (gr_mem (fst pair)).

(** The events of a commit that nothing hinders. *)
Definition commit_events (bld : build) (env : environment) (gr : group_t)
    (sg : sgrp_t) : list event :=
  if is_shadowgrp bld env
  then [ESetuid true; EGrLock true; ESgrLock true; EGrOpen O_RDWR true;
        ESgrOpen O_RDWR true; EGrUpdate gr true; ESgrUpdate sg true;
        EGrClose true; ESgrClose true; ESgrUnlock true; EGrUnlock true;
        ENscdFlush]
  else [ESetuid true; EGrLock true; EGrOpen O_RDWR true; EGrUpdate gr true;
        EGrClose true; EGrUnlock true; ENscdFlush].

(** [r] is a run from [s] that went through: after [events] the pair
    [gr], [sg] was committed, the exit status is [E_SUCCESS], the group
    file holds [gr], the shadow file holds [sg] where the shadow store
    is in use and is as in [s] where it is not, and nothing is left
    locked. *)
Definition committed (bld : build) (env : environment) (s : state)
    (events : list event) (gr : group_t) (sg : sgrp_t)
    (r : outcome unit * state * list event) : Prop :=
  outcome_of r = Exits E_SUCCESS /\
  trace_of r = events ++ commit_events bld env gr sg /\
  group_file (stores (state_of r)) = put_group (group_file (stores s)) gr /\
  gshadow_file (stores (state_of r))
    = (if is_shadowgrp bld env
       then put_sgrp (gshadow_file (stores s)) sg
       else gshadow_file (stores s)) /\
  lock_free (state_of r).

(** The events of [main] from the caller's lookup to the end of
    [get_group], for a caller and a group that are found. *)
Definition identify_and_load (bld : build) (env : environment) (g : string)
    (sfile : list sgrp_t) : list event :=
  EGetMyPwent true :: load_events bld env g sfile.

(** ** Concrete worlds *)

Module Examples.

Definition shadow_build : build := mkBuild true false 64 2.
Definition legacy_build : build := mkBuild true true 64 2.

(** Modelled from the spec: [comma_to_list] lives in the library, which
    is not part of the sources at hand; a comma-separated list is parsed
    by splitting it on [","], which is what these worlds take it to
    do. *)
Definition world (uid : Z) (me : string) (gbusy sbusy : bool) : environment :=
  mkEnv uid true ["root"; "alice"; "bob"; "carol"]%string (Some me)
        gbusy sbusy (fun _ => true) (fun _ => true) (fun _ => true)
        (fun _ => true) true true (fun _ => true) true
        (fun p => ("$6$" ++ p)%string) split_commas.

Definition as_root : environment := world 0 "root" false false.
Definition as_alice : environment := world 1000 "alice" false false.
Definition as_bob : environment := world 1001 "bob" false false.

Definition eng : group_t := mkGroup "eng" "secret" 100 ["alice"; "bob"]%string.
Definition eng_shadow : sgrp_t :=
  mkSgrp "eng" "!" ["alice"]%string ["alice"; "bob"]%string.
Definition ops : group_t := mkGroup "ops" "x" 101 ["bob"; "ghost"]%string.

(** An identity store with a user whose name is 31 characters long. *)
Definition long_names : environment :=
  mkEnv 0 true ["alice"; "abcdefghijklmnopqrstuvwxyz01234"]%string
        (Some "root"%string) false false (fun _ => true) (fun _ => true)
        (fun _ => true) (fun _ => true) true true (fun _ => true) true
        (fun p => p) split_commas.

Definition junk_group : group_t := mkGroup "" "" 0 [].
Definition junk_sgrp : sgrp_t := mkSgrp "" "" [] [].

(** [main] starts here: the group file lists eng and ops, the shadow
    file lists eng. *)
Definition start (input : list (option string)) : state :=
  initial_state shadow_build junk_group junk_sgrp [eng; ops] [eng_shadow] input.

(** The state after [get_group] found eng in both files. *)
Definition loaded (u : string) : state :=
  mkState (mkOptions false false true false false false (Some "eng"%string)
                     u "" "")
          false false "root" (memzero 64) eng eng_shadow
          (mkAdapter [eng; ops] [eng_shadow] None None false false) [] [].

End Examples.

Import Examples.

(** ** Further concrete worlds *)

Module Hosts.

(** A host for root on which single dials can be turned: whether the
    shadow group file exists, whether the caller has an entry in the
    user database, whether standard output is a terminal and whether
    the shadow file can be rewritten. *)
Definition host (shadow_file known_caller stdout_tty shadow_rewrite : bool)
    : environment :=
  mkEnv 0 shadow_file ["root"; "alice"; "bob"; "carol"]%string
        (if known_caller then Some "root"%string else None)
        false false (fun _ => true) (fun _ => true) (fun _ => true)
        (fun m => match m with O_RDWR => shadow_rewrite | O_RDONLY => true end)
        true true (fun fd => (fd =? 0) || stdout_tty) true
        (fun p => ("$6$" ++ p)%string) split_commas.

Definition bare_host : environment := host false true true true.
Definition nameless : environment := host true false true true.
Definition piped : environment := host true true false true.
Definition shadow_disk_full : environment := host true true true false.

(** [main] starts here on a host without a shadow group file. *)
Definition bare_start : state :=
  initial_state shadow_build junk_group junk_sgrp [eng; ops] [] [].

(** The state in which [main] has accepted a command line that names
    eng, with the flags as given. *)
Definition accepted (o : options) (input : list (option string)) : state :=
  set_opts (fun _ => o) (start input).

Definition remove_password_of (g : string) : options :=
  mkOptions false false false false true false (Some g) "" "" "".

Definition change_password_of (g : string) : options :=
  mkOptions false false false false false false (Some g) "" "" "".

End Hosts.

Import Hosts.

(** ** Reasoning about computations *)

Section Keeps.

Variable P : state -> Prop.
Variable Q : event -> Prop.

Local Abbreviation keeps := (keeps P Q).

Lemma keeps_ret {A} (a : A) : keeps (ret a).
Proof. intros s Hs. split; [exact Hs | constructor]. Qed.

Lemma keeps_exit {A} n : keeps (@exit A n).
Proof. intros s Hs. split; [exact Hs | constructor]. Qed.

Lemma keeps_gets {A} (f : state -> A) : keeps (gets f).
Proof. intros s Hs. split; [exact Hs | constructor]. Qed.

Lemma keeps_emit e : Q e -> keeps (emit e).
Proof. intros He s Hs. split; [exact Hs | repeat constructor; exact He]. Qed.

Lemma keeps_modify f : (forall s, P s -> P (f s)) -> keeps (modify f).
Proof. intros Hf s Hs. split; [apply Hf, Hs | constructor]. Qed.

Lemma keeps_bind {A B} (m : M A) (f : A -> M B) :
  keeps m -> (forall a, keeps (f a)) -> keeps (bind m f).
Proof.
  intros Hm Hf s Hs. unfold bind.
  specialize (Hm s Hs). destruct (m s) as [[o s1] t1].
  destruct Hm as [Hs1 Ht1]. cbn in Hs1, Ht1.
  destruct o as [a | n].
  - specialize (Hf a s1 Hs1). destruct (f a s1) as [[o2 s2] t2].
    destruct Hf as [Hs2 Ht2]. cbn in *. split; [exact Hs2 |].
    apply Forall_app. split; assumption.
  - cbn. split; assumption.
Qed.

Lemma keeps_when b (m : M unit) : keeps m -> keeps (when b m).
Proof. intros Hm. destruct b; [exact Hm | apply keeps_ret]. Qed.

End Keeps.

(** Unfolding one [bind] on a known first step. *)
Lemma bind_returns {A B} (m : M A) (f : A -> M B) s a s1 t1 :
  m s = (Returns a, s1, t1) ->
  bind m f s = (outcome_of (f a s1), state_of (f a s1), t1 ++ trace_of (f a s1)).
Proof.
  intros H. unfold bind. rewrite H. destruct (f a s1) as [[o2 s2] t2].
  reflexivity.
Qed.

Lemma bind_exits {A B} (m : M A) (f : A -> M B) s n s1 t1 :
  m s = (Exits n, s1, t1) -> bind m f s = (Exits n, s1, t1).
Proof. intros H. unfold bind. rewrite H. reflexivity. Qed.

(** ** List algebra *)

Lemma is_on_list_In l m : is_on_list l m = true <-> In m l.
Proof.
  unfold is_on_list. rewrite existsb_exists. split.
  - intros [x [Hin Heq]]. apply String.eqb_eq in Heq. now subst.
  - intros Hin. exists m. split; [assumption | apply String.eqb_refl].
Qed.

Lemma is_on_list_false l m : is_on_list l m = false <-> ~ In m l.
Proof.
  rewrite <- is_on_list_In. destruct (is_on_list l m); split; congruence.
Qed.

Lemma del_list_not_In l m : ~ In m (del_list l m).
Proof.
  unfold del_list. rewrite filter_In. intros [_ H].
  rewrite String.eqb_refl in H. discriminate.
Qed.

Lemma del_list_absent l m : ~ In m l -> del_list l m = l.
Proof.
  unfold del_list. induction l as [| x l IH]; simpl; intros Hn.
  - reflexivity.
  - destruct (String.eqb_spec x m) as [-> | Hne].
    + exfalso. apply Hn. now left.
    + simpl. f_equal. apply IH. intros Hin. apply Hn. now right.
Qed.

(** ** fail_exit and failure *)

Lemma fail_exit_exits {A} bld n s :
  outcome_of (@fail_exit bld A n s) = Exits n.
Proof.
  unfold fail_exit, gr_unlock, sgr_unlock, fprintf_stderr, when, bind, gets,
    modify, emit, exit, ret, outcome_of.
  destruct s as [o gl sl nm p g sg [gf sf gdb sdb gh sh] i b].
  destruct gl, (SHADOWGRP bld), sl, gh, sh; reflexivity.
Qed.

Lemma fail_exit_lock_free {A} bld n s :
  lock_free s -> @fail_exit bld A n s = (Exits n, s, []).
Proof.
  intros (H1 & H2 & _). destruct s as [o gl sl nm p g sg a i b].
  cbn in H1, H2. subst gl sl.
  unfold fail_exit, when, bind, gets, exit, ret. cbn.
  rewrite andb_false_r. reflexivity.
Qed.

Lemma failure_exits {A} bld s :
  outcome_of (@failure bld A s) = Exits 1 /\
  hd_error (trace_of (@failure bld A s)) = Some (EStderr MsgPermissionDenied).
Proof.
  unfold failure, fprintf_stderr.
  erewrite bind_returns by reflexivity.
  split; [apply fail_exit_exits | reflexivity].
Qed.

Lemma failure_lock_free {A} bld s :
  lock_free s ->
  @failure bld A s = (Exits 1, s, [EStderr MsgPermissionDenied]).
Proof.
  intros H. unfold failure, fprintf_stderr.
  erewrite bind_returns by reflexivity.
  rewrite (fail_exit_lock_free _ _ H). reflexivity.
Qed.

(** ** Authorization *)

Lemma in_dec_is_on_list (l : list string) (m : string) :
  (if in_dec string_dec m l then true else false) = is_on_list l m.
Proof.
  destruct (in_dec string_dec m l) as [Hin | Hn].
  - symmetry. now apply is_on_list_In.
  - symmetry. now apply is_on_list_false.
Qed.

Lemma string_dec_eqb (a b : string) :
  (if string_dec a b then true else false) = String.eqb a b.
Proof.
  destruct (string_dec a b) as [-> | Hne].
  - now rewrite String.eqb_refl.
  - symmetry. now apply String.eqb_neq.
Qed.

Lemma authorize_cases (is_root shadow legacy : bool) (caller : string)
    (admin_list member_list : list string) :
  (is_root = true ->
     authorize is_root shadow legacy caller admin_list member_list = true)
  /\ (is_root = false -> shadow = true ->
      (authorize is_root shadow legacy caller admin_list member_list = true
       <-> In caller admin_list))
  /\ (is_root = false -> shadow = false -> legacy = true ->
      (authorize is_root shadow legacy caller admin_list member_list = true
       <-> hd_error member_list = Some caller))
  /\ (is_root = false -> shadow = false -> legacy = false ->
      authorize is_root shadow legacy caller admin_list member_list = false).
Proof.
  unfold authorize. repeat split; intros; subst; try reflexivity.
  - destruct (in_dec string_dec caller admin_list); [assumption | discriminate].
  - destruct (in_dec string_dec caller admin_list); [reflexivity | contradiction].
  - destruct member_list as [| first rest]; [discriminate |].
    destruct (string_dec first caller); [now subst | discriminate].
  - destruct member_list as [| first rest]; [discriminate |].
    cbn in *. destruct (string_dec first caller); [reflexivity | congruence].
Qed.

(** C1.  [check_perms] decides as the policy [authorize] says, in that
    order: root is let through; otherwise, with a shadow store in use,
    exactly the callers on the admin list of the shadow record are;
    otherwise exactly the first listed member of the primary record is
    when the legacy flag is compiled in, and nobody is when it is not.
    Being let through means returning with the state untouched and
    nothing printed; a denial is the [failure] exit: status 1, announced
    by the permission-denied message. *)
Theorem check_perms_policy (bld : build) (env : environment) (s : state) :
  let allowed :=
    authorize (amroot env) (is_shadowgrp bld env) (FIRST_MEMBER_IS_ADMIN bld)
              (myname s) (sg_adm (sgent s)) (gr_mem (grent s)) in
  check_perms bld env s =
    (if allowed then (Returns tt, s, []) else failure bld s)
  /\ outcome_of (@failure bld unit s) = Exits 1
  /\ hd_error (trace_of (@failure bld unit s))
     = Some (EStderr MsgPermissionDenied)
  /\ (amroot env = true -> allowed = true)
  /\ (amroot env = false -> is_shadowgrp bld env = true ->
      (allowed = true <-> In (myname s) (sg_adm (sgent s))))
  /\ (amroot env = false -> is_shadowgrp bld env = false ->
      FIRST_MEMBER_IS_ADMIN bld = true ->
      (allowed = true <-> hd_error (gr_mem (grent s)) = Some (myname s)))
  /\ (amroot env = false -> is_shadowgrp bld env = false ->
      FIRST_MEMBER_IS_ADMIN bld = false -> allowed = false).
Proof.
  intros allowed.
  split; [| split; [apply failure_exits | split; [apply failure_exits |]]].
  2: { subst allowed. apply authorize_cases. }
  subst allowed. unfold authorize. rewrite in_dec_is_on_list.
  unfold check_perms. generalize (@failure bld unit). intros F.
  destruct (amroot env), (is_shadowgrp bld env), (FIRST_MEMBER_IS_ADMIN bld);
    unfold bind, gets, when, ret; cbn; try reflexivity.
  1, 2: destruct (is_on_list (sg_adm (sgent s)) (myname s)); cbn;
        [reflexivity | destruct (F s) as [[o s1] t1]; reflexivity].
  - destruct (gr_mem (grent s)) as [| first rest].
    + destruct (F s) as [[o s1] t1]. reflexivity.
    + rewrite string_dec_eqb.
      destruct (String.eqb first (myname s)); cbn; [reflexivity |].
      destruct (F s) as [[o s1] t1]. reflexivity.
  - destruct (F s) as [[o s1] t1]. reflexivity.
Qed.

(** ** Running computations *)

(** Unfolds the commit phase down to the monad. *)
Ltac unfold_commit :=
  unfold output, open_files, update_group, close_files, fail_exit, setuid0,
    nscd_flush_cache, gr_lock, sgr_lock, gr_unlock, sgr_unlock, gr_open,
    sgr_open, gr_update, sgr_update, gr_close, sgr_close, is_shadowgrp,
    fprintf_stderr, when, bind, ret, exit, emit, gets, modify,
    outcome_of, state_of, trace_of.

(** Runs a computation on a state and an environment taken apart into
    their fields, splitting on every test the run meets. *)
Ltac run_cases :=
  cbn;
  repeat match goal with
         | |- context [if ?b then _ else _] => destruct b eqn:?; cbn
         | |- context [match ?x with Some _ => _ | None => _ end] =>
             destruct x eqn:?; cbn
         end.

(** ** Invariants of the phases of [main] *)

Create HintDb gp_unfold.
#[local] Hint Unfold main prepare output operation prompt_for_password
  add_member delete_member change_passwd change_passwd_attempt get_group
  check_perms update_group close_files open_files process_flags check_flags
  process_flag failure usage setuid0 nscd_flush_cache c_isatty getpass
  get_my_pwent getpwnam gr_close sgr_close gr_update sgr_update gr_locate
  sgr_locate gr_open sgr_open gr_unlock sgr_unlock gr_lock sgr_lock
  fprintf_stderr puts : gp_unfold.

Lemma keeps_fail_exit_free (P : state -> Prop) (Q : event -> Prop)
    {A} bld n :
  (forall s, P s -> group_locked s = false /\ gshadow_locked s = false) ->
  keeps P Q (@fail_exit bld A n).
Proof.
  intros HP s Hs. destruct (HP s Hs) as [H1 H2].
  destruct s as [o gl sl nm p g sg a i b]. cbn in H1, H2. subst gl sl.
  unfold fail_exit, when, bind, gets, exit, ret. cbn.
  rewrite andb_false_r. cbn. split; [exact Hs | constructor].
Qed.

Lemma user_list_loop_events (Q : event -> Prop) env users valid :
  (forall n f, Q (EGetpwnam n f)) -> (forall m, Q (EStderr m)) ->
  Forall Q (snd (user_list_loop env users valid)).
Proof.
  intros Hq1 Hq2. funelim (user_list_loop env users valid); cbn [snd].
  - constructor.
  - constructor; [apply Hq1 |]. apply Forall_app. split.
    + destruct (pw_lookup env _); repeat constructor. apply Hq2.
    + apply H; assumption.
  - constructor; [apply Hq1 |].
    destruct (pw_lookup env _); repeat constructor. apply Hq2.
Qed.

Lemma keeps_user_list (P : state -> Prop) (Q : event -> Prop) env users :
  (forall n f, Q (EGetpwnam n f)) -> (forall m, Q (EStderr m)) ->
  keeps P Q (is_valid_user_list env users).
Proof.
  intros Hq1 Hq2 s Hs. unfold is_valid_user_list. cbn.
  split; [exact Hs | now apply user_list_loop_events].
Qed.

(** One step of a [keeps] derivation; [side] settles what a state update
    owes to the invariant. *)
Ltac keeps_step side :=
  match goal with
  | |- keeps _ _ (bind _ _) => apply keeps_bind; [| intros ?]
  | |- keeps _ _ (ret _) => apply keeps_ret
  | |- keeps _ _ (exit _) => apply keeps_exit
  | |- keeps _ _ (gets _) => apply keeps_gets
  | |- keeps _ _ (emit _) => apply keeps_emit; reflexivity
  | |- keeps _ _ (modify _) => apply keeps_modify; side
  | |- keeps _ _ (when _ _) => apply keeps_when
  | |- keeps _ _ (fail_exit _ _) =>
      first [ apply keeps_fail_exit_free; solve [side]
            | unfold fail_exit ]
  | |- keeps _ _ (is_valid_user_list _ _) =>
      apply keeps_user_list; intros; reflexivity
  | |- keeps _ _ (if ?b then _ else _) => destruct b
  | |- keeps _ _ (match ?x with _ => _ end) => destruct x
  | |- keeps _ _ (let _ := _ in _) => cbv zeta
  | |- keeps _ _ _ => progress autounfold with gp_unfold
  end.

Ltac keeps_auto side := repeat keeps_step side.

Ltac lock_free_side :=
  try (intros; exact I);
  try (intros [? ? ? ? ? ? ? [? ? ? ? ? ?] ? ?];
       unfold lock_free; cbn; intuition congruence).

Lemma change_passwd_loop_lock_free bld k r :
  keeps lock_free no_lock_event (change_passwd_loop bld k r).
Proof.
  revert r. induction k as [| k IH]; intros r; cbn [change_passwd_loop].
  - apply keeps_ret.
  - apply keeps_bind; [keeps_auto lock_free_side |].
    intros [|]; [apply keeps_ret | apply IH].
Qed.

Lemma process_flags_loop_lock_free bld env fl :
  keeps lock_free no_lock_event (process_flags_loop bld env fl).
Proof.
  induction fl as [| f fl IH]; cbn [process_flags_loop].
  - apply keeps_ret.
  - apply keeps_bind; [| intros _; exact IH].
    keeps_auto lock_free_side.
Qed.

(** The load, authorization and mutation phase never touches a lock. *)
Lemma prepare_lock_free bld env cmd :
  keeps lock_free no_lock_event (prepare bld env cmd).
Proof.
  unfold prepare, process_flags.
  repeat (apply keeps_bind; [| intros ?]);
    try apply process_flags_loop_lock_free.
  all: try (unfold operation, prompt_for_password, change_passwd).
  all: repeat first
         [ apply change_passwd_loop_lock_free
         | keeps_step lock_free_side ].
Qed.

(** The commit phase neither looks a record up nor asks anybody. *)
Lemma output_no_load bld env :
  keeps (fun _ => True) no_load_event (output bld env).
Proof. keeps_auto lock_free_side. Qed.

Lemma main_trace_split bld env cmd s :
  trace_of (main bld env cmd s) = trace_of (prepare bld env cmd s)
  \/ trace_of (main bld env cmd s) =
       trace_of (prepare bld env cmd s)
       ++ trace_of (output bld env (state_of (prepare bld env cmd s))).
Proof.
  unfold main, bind. destruct (prepare bld env cmd s) as [[[[] | n] s1] t1].
  - right. unfold trace_of, state_of. cbn [fst snd].
    destruct (output bld env s1) as [[o2 s2] t2]. reflexivity.
  - left. reflexivity.
Qed.

(** ** The lock protocol *)

Lemma output_releases_locks bld env s :
  lock_free s ->
  (exists n, outcome_of (output bld env s) = Exits n) /\
  gr_lock_held (stores (state_of (output bld env s))) = false /\
  sgr_lock_held (stores (state_of (output bld env s))) = false.
Proof.
  intros (H1 & H2 & H3 & H4).
  destruct s as [o gl sl nm p g sg [gf sf gdb sdb gh sh] i b].
  cbn in H1, H2, H3, H4. subst gl sl gh sh.
  destruct env as [uid present pwd me gbusy sbusy gopen sopen gclose sclose
                   gupd supd tty suid crypt c2l].
  destruct bld as [shadowgrp fmia bufsiz eusage].
  destruct shadowgrp, present; unfold_commit; run_cases;
    (split; [eexists; reflexivity | split; reflexivity]).
Qed.

Lemma main_releases_locks bld env cmd s :
  lock_free s ->
  (exists n, outcome_of (main bld env cmd s) = Exits n) /\
  gr_lock_held (stores (state_of (main bld env cmd s))) = false /\
  sgr_lock_held (stores (state_of (main bld env cmd s))) = false.
Proof.
  intros Hs. destruct (prepare_lock_free bld env cmd Hs) as [Hfree _].
  unfold main, bind.
  destruct (prepare bld env cmd s) as [[[[] | n] s1] t1]; cbn in Hfree.
  - destruct (output_releases_locks bld env Hfree) as ([n Hn] & Hg & Hsg).
    destruct (output bld env s1) as [[o2 s2] t2]. cbn in Hn, Hg, Hsg |- *.
    subst o2. split; [now exists n | now split].
  - destruct Hfree as (_ & _ & Hg & Hsg). cbn.
    split; [now exists n | now split].
Qed.

(** C2.  Starting with nothing locked, [open_files] takes the lock of
    the group file first.  When that lock is busy it exits with status 1
    having made no other adapter call, so the shadow lock is never
    tried.  When it is free but the shadow lock is busy, it exits with
    status 1 after giving the group lock back.  Whenever [open_files]
    exits neither lock is held; when it returns, the group lock is held
    and the shadow lock is held exactly when the shadow store is in use.
    Every run of [main], whatever the command line, ends in an exit with
    neither lock held. *)
Theorem open_files_lock_protocol (bld : build) (env : environment) (s : state) :
  lock_free s ->
  let r := open_files bld env s in
  (gr_busy env = true ->
     r = (Exits 1, s, [EGrLock false; EStderr MsgCannotLockGroup]))
  /\ (gr_busy env = false -> is_shadowgrp bld env = true ->
      sgr_busy env = true ->
        outcome_of r = Exits 1 /\
        trace_of r = [EGrLock true; ESgrLock false;
                      EStderr MsgCannotLockShadow; EGrUnlock true] /\
        gr_lock_held (stores (state_of r)) = false /\
        sgr_lock_held (stores (state_of r)) = false)
  /\ (forall n, outcome_of r = Exits n ->
        gr_lock_held (stores (state_of r)) = false /\
        sgr_lock_held (stores (state_of r)) = false)
  /\ (outcome_of r = Returns tt ->
        gr_lock_held (stores (state_of r)) = true /\
        sgr_lock_held (stores (state_of r)) = is_shadowgrp bld env)
  /\ (forall cmd,
        (exists n, outcome_of (main bld env cmd s) = Exits n) /\
        gr_lock_held (stores (state_of (main bld env cmd s))) = false /\
        sgr_lock_held (stores (state_of (main bld env cmd s))) = false).
Proof.
  intros Hfree r. subst r.
  split; [| split; [| split; [| split]]];
    [| | | | intros cmd; now apply main_releases_locks].
  all: revert Hfree; intros (H1 & H2 & H3 & H4).
  all: destruct s as [o gl sl nm p g sg [gf sf gdb sdb gh sh] i b];
    cbn in H1, H2, H3, H4; subst gl sl gh sh;
    destruct env as [uid present pwd me gbusy sbusy gopen sopen gclose sclose
                     gupd supd tty suid crypt c2l];
    destruct bld as [shadowgrp fmia bufsiz eusage];
    unfold is_shadowgrp; cbn [SHADOWGRP sgr_file_present gr_busy sgr_busy].
  all: destruct shadowgrp, present; cbn [andb];
    try (intros -> ; reflexivity);
    try (intros -> ? ->; repeat split; congruence).
  all: try (intros n; unfold_commit; run_cases; intros; split; congruence).
  all: unfold_commit; run_cases; intros; split; congruence.
Qed.

(** ** The root-only options *)

Unset Implicit Arguments.

Ltac untouched_side :=
  try (intros [? ? ? ? ? ? ? [? ? ? ? ? ?] ? ?];
       unfold untouched, lock_free; cbn; intuition congruence).

Lemma untouched_unlocked s0 s :
  untouched s0 s -> group_locked s = false /\ gshadow_locked s = false.
Proof. intros ((H1 & H2 & _) & _). now split. Qed.

Lemma process_flags_loop_untouched bld env s0 fl :
  keeps (untouched s0) no_store_event (process_flags_loop bld env fl).
Proof.
  induction fl as [| f fl IH]; cbn [process_flags_loop].
  - apply keeps_ret.
  - apply keeps_bind; [| intros _; exact IH].
    destruct f; unfold process_flag.
    all: repeat first
           [ apply keeps_fail_exit_free; apply untouched_unlocked
           | keeps_step untouched_side ].
Qed.

Lemma process_flag_root_only bld env f s :
  amroot env = false -> root_only bld f ->
  process_flag bld env f s = failure bld s.
Proof.
  intros Hroot Hf.
  pose proof (failure_exits (A := unit) bld s) as [Hex _].
  destruct f; cbn in Hf; try contradiction; unfold process_flag;
    rewrite ?Hf, Hroot; cbn [negb when]; unfold bind;
    destruct (failure bld s) as [[o s1] t1]; cbn in Hex; subst o;
    reflexivity.
Qed.

(** A build without [SHADOWGRP] has no case for [-A]: the option is a
    usage error, whoever calls. *)
Lemma process_flag_A_without_shadowgrp bld env optarg s :
  SHADOWGRP bld = false ->
  process_flag bld env (Flag_A optarg) s
  = (Exits (E_USAGE bld), s, [EStderr MsgUsage]).
Proof. intros H. unfold process_flag. rewrite H. reflexivity. Qed.

Lemma process_flags_loop_app bld env l1 l2 s :
  process_flags_loop bld env (l1 ++ l2) s =
  bind (process_flags_loop bld env l1)
       (fun _ => process_flags_loop bld env l2) s.
Proof.
  revert s. induction l1 as [| f l1 IH]; intros s; cbn [app process_flags_loop].
  - unfold bind, ret. destruct (process_flags_loop bld env l2 s) as [[o s1] t1].
    reflexivity.
  - unfold bind at 1 2 3. destruct (process_flag bld env f s) as [[[[] | n] s1] t1];
      [| reflexivity].
    rewrite IH. unfold bind.
    destruct (process_flags_loop bld env l1 s1) as [[[[] | n1] s2] t2];
      [| reflexivity].
    destruct (process_flags_loop bld env l2 s2) as [[o3 s3] t3].
    now rewrite app_assoc.
Qed.

Lemma process_flags_loop_refuses bld env fl f s :
  amroot env = false -> root_only bld f -> In f fl ->
  exists n, outcome_of (process_flags_loop bld env fl s) = Exits n.
Proof.
  intros Hroot Hf. revert s. induction fl as [| g fl IH]; intros s Hin.
  - contradiction.
  - cbn [process_flags_loop]. unfold bind.
    destruct Hin as [-> | Hin].
    + rewrite (process_flag_root_only bld env f s Hroot Hf).
      pose proof (failure_exits (A := unit) bld s) as [Hex _].
      destruct (failure bld s) as [[o s1] t1]. cbn in Hex. subst o.
      now exists 1.
    + destruct (process_flag bld env g s) as [[[[] | n] s1] t1].
      * destruct (IH s1 Hin) as [n Hn].
        destruct (process_flags_loop bld env fl s1) as [[o s2] t2].
        cbn in Hn. subst o. now exists n.
      * now exists n.
Qed.

(** When the option loop exits, so does [main], in the same way. *)
Lemma main_exits_in_flags bld env cmd s n s1 t1 :
  process_flags_loop bld env (flags cmd) s = (Exits n, s1, t1) ->
  main bld env cmd s = (Exits n, s1, t1).
Proof.
  intros H. unfold main, prepare, process_flags.
  repeat (erewrite bind_exits; [reflexivity |]). exact H.
Qed.

(** C4.  A caller who is not root and passes [-M], or [-A] in a build
    that has it, never gets past the option loop: [main] exits without a
    single call into the record stores, with the stores and the record
    pair of the starting state untouched, whatever the stores hold (the
    admin and member lists are never read).  When the options in front
    of it were accepted, the exit is the permission-denied one: status
    1, right after the permission-denied message. *)
Theorem list_options_require_root (bld : build) (env : environment)
    (cmd : cmdline) (s : state) (pre post : list getopt_flag)
    (f : getopt_flag) :
  amroot env = false ->
  lock_free s ->
  root_only bld f ->
  flags cmd = pre ++ f :: post ->
  let r := main bld env cmd s in
  (exists n, outcome_of r = Exits n) /\
  Forall (fun e => is_store_event e = false) (trace_of r) /\
  stores (state_of r) = stores s /\
  grent (state_of r) = grent s /\
  sgent (state_of r) = sgent s /\
  (outcome_of (process_flags_loop bld env pre s) = Returns tt ->
     outcome_of r = Exits 1 /\
     trace_of r = trace_of (process_flags_loop bld env pre s)
                  ++ [EStderr MsgPermissionDenied]).
Proof.
  intros Hroot Hfree Hf Hflags r.
  assert (Hun : untouched s s) by (unfold untouched; auto).
  assert (Hin : In f (flags cmd)).
  { rewrite Hflags. apply in_or_app. right. now left. }
  destruct (process_flags_loop_refuses bld env (flags cmd) f s Hroot Hf Hin)
    as [n Hn].
  destruct (process_flags_loop_untouched bld env s (flags cmd) s Hun)
    as [Hst Htr].
  destruct (process_flags_loop bld env (flags cmd) s) as [[o s1] t1] eqn:EL.
  cbn in Hn. subst o.
  assert (Hr : r = (Exits n, s1, t1))
    by (subst r; now apply main_exits_in_flags).
  rewrite Hr. cbn in Hst, Htr |- *.
  destruct Hst as (_ & Hs1 & Hs2 & Hs3).
  split; [now exists n |].
  split; [exact Htr |].
  split; [exact Hs1 |]. split; [exact Hs2 |]. split; [exact Hs3 |].
  intros Hpre.
  destruct (process_flags_loop_untouched bld env s pre s Hun) as [Hst' _].
  destruct (process_flags_loop bld env pre s) as [[o' s'] t'] eqn:Epre.
  cbn in Hpre. subst o'. cbn in Hst'. destruct Hst' as (Hfree' & _).
  assert (Hgate : process_flags_loop bld env (f :: post) s'
                  = (Exits 1, s', [EStderr MsgPermissionDenied])).
  { cbn [process_flags_loop]. erewrite bind_exits; [reflexivity |].
    rewrite (process_flag_root_only bld env f s' Hroot Hf).
    now apply failure_lock_free. }
  rewrite Hflags, process_flags_loop_app in EL.
  erewrite bind_returns in EL by exact Epre.
  rewrite Hgate in EL. cbn in EL.
  inversion EL; subst. split; reflexivity.
Qed.

(** ** The password prompt *)

Lemma attempts_app t1 t2 : attempts (t1 ++ t2) = (attempts t1 + attempts t2)%nat.
Proof. unfold attempts. now rewrite filter_app, length_app. Qed.

Lemma bind_trace {A B} (m : M A) (f : A -> M B) s :
  trace_of (bind m f s) =
  trace_of (m s) ++ match outcome_of (m s) with
                    | Returns a => trace_of (f a (state_of (m s)))
                    | Exits _ => []
                    end.
Proof.
  unfold bind. destruct (m s) as [[[a | n] s1] t1]; cbn.
  - destruct (f a s1) as [[o2 s2] t2]. reflexivity.
  - now rewrite app_nil_r.
Qed.

Lemma fail_exit_no_attempt {A} bld n s :
  attempts (trace_of (@fail_exit bld A n s)) = 0%nat.
Proof.
  destruct s as [o gl sl nm p g sg [gf sf gdb sdb gh sh] i b].
  destruct bld as [shadowgrp fmia bufsiz eusage].
  unfold fail_exit, gr_unlock, sgr_unlock, fprintf_stderr, when, bind, gets,
    modify, emit, exit, ret, trace_of.
  destruct gl, shadowgrp, sl, gh, sh; reflexivity.
Qed.

Lemma fail_exit_records {A} bld n s :
  grent (state_of (@fail_exit bld A n s)) = grent s /\
  sgent (state_of (@fail_exit bld A n s)) = sgent s /\
  group_file (stores (state_of (@fail_exit bld A n s))) = group_file (stores s) /\
  gshadow_file (stores (state_of (@fail_exit bld A n s)))
    = gshadow_file (stores s).
Proof.
  destruct s as [o gl sl nm p g sg [gf sf gdb sdb gh sh] i b].
  destruct bld as [shadowgrp fmia bufsiz eusage].
  unfold fail_exit, gr_unlock, sgr_unlock, fprintf_stderr, when, bind, gets,
    modify, emit, exit, ret, state_of.
  destruct gl, shadowgrp, sl, gh, sh; repeat split.
Qed.

Lemma cstr_idem buf : cstr (cstr buf) = cstr buf.
Proof.
  induction buf as [| a buf IH]; cbn; [reflexivity |].
  destruct (Ascii.eqb a NUL) eqn:E; cbn; [reflexivity |].
  now rewrite E, IH.
Qed.

Lemma all_zero_memzero n : all_zero (memzero n) = true.
Proof.
  unfold all_zero, memzero. apply forallb_forall. intros x Hx.
  apply repeat_spec in Hx. subst x. reflexivity.
Qed.

Lemma strzero_cstr buf : strzero (cstr buf) = memzero (List.length (cstr buf)).
Proof.
  unfold strzero. rewrite cstr_idem, skipn_all. apply app_nil_r.
Qed.

Lemma all_zero_strzero_cstr buf : all_zero (strzero (cstr buf)) = true.
Proof. rewrite strzero_cstr. apply all_zero_memzero. Qed.

(** What one turn of the loop does when both prompts are answered and
    the answers differ. *)
Lemma attempt_mismatch_run bld retries s a b rest :
  tty_input s = Some a :: Some b :: rest ->
  mismatch (BUFSIZ bld) a b ->
  change_passwd_attempt bld retries s =
    (Returns Mismatched,
     set_pass (memzero (BUFSIZ bld))
       (set_getpass_buf (strzero (cstr (list_ascii_of_string b)))
          (set_tty_input rest s)),
     EGetpass NewPassword true :: EGetpass ReEnterNewPassword true
       :: (if (retries + 1 <? RETRIES)%nat then [EStdout MsgDontMatch] else [])).
Proof.
  intros Hin Hmis. unfold mismatch in Hmis.
  destruct s as [o gl sl nm p g sg st i buf]. cbn in Hin. subst i.
  unfold change_passwd_attempt, getpass, puts, when, bind, gets, modify, emit,
    ret.
  cbn -[STRFCPY streq strzero memzero cstr list_ascii_of_string Nat.ltb].
  rewrite Hmis.
  cbn -[STRFCPY streq strzero memzero cstr list_ascii_of_string Nat.ltb].
  destruct (retries + 1 <? RETRIES)%nat; reflexivity.
Qed.

(** A turn that ends in a mismatch leaves both buffers zeroed. *)
Lemma attempt_mismatch_zeroed bld retries s s' t :
  change_passwd_attempt bld retries s = (Returns Mismatched, s', t) ->
  all_zero (pass s') = true /\ all_zero (getpass_buf s') = true.
Proof.
  destruct s as [o gl sl nm p g sg st i buf].
  unfold change_passwd_attempt, getpass, puts, when, bind, gets, modify, emit,
    ret.
  destruct i as [| [a |] [| [b |] rest]];
    cbn -[STRFCPY streq strzero memzero cstr list_ascii_of_string Nat.ltb
          fail_exit].
  all: try (match goal with
            | |- context [@fail_exit ?b ?T ?n ?s0] =>
                pose proof (@fail_exit_exits T b n s0) as X;
                destruct (@fail_exit b T n s0) as [[oo ss] tt];
                cbn in X; subst oo; cbn; discriminate
            end).
  destruct (streq _ _);
    cbn -[STRFCPY streq strzero memzero cstr list_ascii_of_string Nat.ltb];
    [discriminate |].
  destruct (retries + 1 <? RETRIES)%nat; intros H; inversion H; subst; cbn;
    split; auto using all_zero_memzero, all_zero_strzero_cstr.
Qed.

(** A turn ends in a mismatch only when both prompts were answered and
    the answers differ. *)
Lemma attempt_mismatch_inputs bld retries s s' t :
  change_passwd_attempt bld retries s = (Returns Mismatched, s', t) ->
  exists a b rest,
    tty_input s = Some a :: Some b :: rest /\ mismatch (BUFSIZ bld) a b.
Proof.
  destruct s as [o gl sl nm p g sg st i buf].
  unfold change_passwd_attempt, getpass, puts, when, bind, gets, modify, emit,
    ret, mismatch.
  destruct i as [| [a |] [| [b |] rest]];
    cbn -[STRFCPY streq strzero memzero cstr list_ascii_of_string Nat.ltb
          fail_exit].
  all: try (match goal with
            | |- context [@fail_exit ?b ?T ?n ?s0] =>
                pose proof (@fail_exit_exits T b n s0) as X;
                destruct (@fail_exit b T n s0) as [[oo ss] tt];
                cbn in X; subst oo; cbn; discriminate
            end).
  destruct (streq _ _) eqn:E;
    cbn -[STRFCPY streq strzero memzero cstr list_ascii_of_string Nat.ltb];
    [discriminate |].
  intros _. exists a, b, rest. split; [reflexivity | exact E].
Qed.

(** [fail_exit] leaves the two password buffers as they are. *)
Lemma fail_exit_buffers {A} bld n s :
  pass (state_of (@fail_exit bld A n s)) = pass s /\
  getpass_buf (state_of (@fail_exit bld A n s)) = getpass_buf s.
Proof.
  destruct s as [o gl sl nm p g sg [gf sf gdb sdb gh sh] i b].
  destruct bld as [shadowgrp fmia bufsiz eusage].
  unfold fail_exit, gr_unlock, sgr_unlock, fprintf_stderr, when, bind, gets,
    modify, emit, exit, ret, state_of.
  destruct gl, shadowgrp, sl, gh, sh; repeat split.
Qed.

Lemma attempt_at_most_one bld retries s :
  (attempts (trace_of (change_passwd_attempt bld retries s)) <= 1)%nat.
Proof.
  destruct s as [o gl sl nm p g sg st i buf].
  unfold change_passwd_attempt, getpass, puts, when, bind, gets, modify, emit,
    ret.
  destruct i as [| [a |] [| [b |] rest]];
    cbn -[STRFCPY streq strzero memzero cstr list_ascii_of_string Nat.ltb
          fail_exit].
  all: try (match goal with
            | |- context [@fail_exit ?b ?T ?n ?s0] =>
                pose proof (@fail_exit_exits T b n s0) as X;
                pose proof (@fail_exit_no_attempt T b n s0) as Y;
                destruct (@fail_exit b T n s0) as [[oo ss] tt];
                cbn in X; subst oo; unfold attempts in *; cbn in *; lia
            end).
  destruct (streq _ _); [cbn; lia |].
  destruct (retries + 1 <? RETRIES)%nat; cbn; lia.
Qed.

Lemma loop_attempts bld k r s :
  (attempts (trace_of (change_passwd_loop bld k r s)) <= k)%nat.
Proof.
  revert r s. induction k as [| k IH]; intros r s; cbn [change_passwd_loop].
  - cbn. lia.
  - rewrite bind_trace, attempts_app.
    pose proof (attempt_at_most_one bld r s) as H1.
    destruct (outcome_of (change_passwd_attempt bld r s)) as [[|] | n].
    + cbn. lia.
    + specialize (IH (S r) (state_of (change_passwd_attempt bld r s))). lia.
    + cbn. lia.
Qed.

Lemma no_prompt_no_attempt t :
  Forall no_new_password_prompt t -> attempts t = 0%nat.
Proof.
  unfold attempts. induction 1 as [| e t He _ IH]; [reflexivity |].
  cbn. unfold no_new_password_prompt in He. now rewrite He.
Qed.

Lemma tty_input_after_attempt v w r s :
  tty_input (set_pass v (set_getpass_buf w (set_tty_input r s))) = r.
Proof. destruct s. reflexivity. Qed.

(** C5.  [change_passwd] asks for a new password at most [RETRIES] = 3
    times.  A turn of its loop that ends in a mismatch leaves the two
    buffers that held the entries filled with zeros, [pass] as [BUFSIZ]
    NUL bytes and the buffer of [getpass] with a NUL for every byte
    typed at the second prompt, and it is from that state that the loop
    goes on to the next turn.  When the first three pairs of answers
    all mismatch, [change_passwd] exits with status 1 after the
    try-again-later message, with the buffers zeroed in that way, and
    the password fields of [grent] and [sgent], like the records in
    both files, are as they were. *)
Theorem change_passwd_retries (bld : build) (env : environment) (s : state) :
  (attempts (trace_of (change_passwd bld env s)) <= 3)%nat
  /\ (forall k retries s0 s1 t,
        change_passwd_attempt bld retries s0 = (Returns Mismatched, s1, t) ->
        all_zero (pass s1) = true /\ all_zero (getpass_buf s1) = true /\
        pass s1 = repeat NUL (BUFSIZ bld) /\
        (exists a b rest,
           tty_input s0 = Some a :: Some b :: rest /\
           getpass_buf s1
             = repeat NUL (List.length (cstr (list_ascii_of_string b)))) /\
        change_passwd_loop bld (S k) retries s0 =
          (outcome_of (change_passwd_loop bld k (S retries) s1),
           state_of (change_passwd_loop bld k (S retries) s1),
           t ++ trace_of (change_passwd_loop bld k (S retries) s1)))
  /\ (forall a1 b1 a2 b2 a3 b3 rest,
        tty_input s = Some a1 :: Some b1 :: Some a2 :: Some b2
                        :: Some a3 :: Some b3 :: rest ->
        mismatch (BUFSIZ bld) a1 b1 ->
        mismatch (BUFSIZ bld) a2 b2 ->
        mismatch (BUFSIZ bld) a3 b3 ->
        let r := change_passwd bld env s in
        outcome_of r = Exits 1 /\
        In (EStderr MsgTryAgainLater) (trace_of r) /\
        attempts (trace_of r) = 3%nat /\
        gr_passwd (grent (state_of r)) = gr_passwd (grent s) /\
        sg_passwd (sgent (state_of r)) = sg_passwd (sgent s) /\
        group_file (stores (state_of r)) = group_file (stores s) /\
        gshadow_file (stores (state_of r)) = gshadow_file (stores s) /\
        pass (state_of r) = repeat NUL (BUFSIZ bld) /\
        getpass_buf (state_of r)
          = repeat NUL (List.length (cstr (list_ascii_of_string b3)))).
Proof.
  split; [| split].
  - unfold change_passwd.
    rewrite bind_trace. cbn [gets trace_of outcome_of state_of fst snd app].
    rewrite bind_trace. cbn [puts emit trace_of outcome_of state_of fst snd].
    rewrite bind_trace. rewrite !attempts_app.
    pose proof (loop_attempts bld RETRIES 0 s) as Hloop.
    change RETRIES with 3%nat in Hloop at 2.
    assert (Htail :
      attempts
        match outcome_of (change_passwd_loop bld RETRIES 0 s) with
        | Returns a =>
            trace_of
              ((when (a =? RETRIES)%nat
                  (fprintf_stderr MsgTryAgainLater;; fail_exit bld 1);;
                p <- gets pass;;
                modify (set_pass (memzero (BUFSIZ bld)));;
                (if is_shadowgrp bld env
                 then modify (set_sgent (with_sg_passwd
                        (pw_encrypt env (string_of_list_ascii (cstr p)))))
                 else modify (set_grent (with_gr_passwd
                        (pw_encrypt env (string_of_list_ascii (cstr p)))))))
                 (state_of (change_passwd_loop bld RETRIES 0 s)))
        | Exits _ => []
        end = 0%nat).
    { destruct (outcome_of (change_passwd_loop bld RETRIES 0 s)) as [a | n];
        [| reflexivity].
      apply no_prompt_no_attempt.
      match goal with
      | |- Forall _ (trace_of (?m ?s0)) =>
          apply (fun K : keeps (fun _ => True) no_new_password_prompt m =>
                   proj2 (K s0 I))
      end.
      keeps_auto lock_free_side. }
    cbn [attempts filter is_new_password_prompt List.length] in *.
    unfold attempts in *. cbn [filter is_new_password_prompt List.length app].
    lia.
  - intros k retries s0 s1 t H.
    destruct (attempt_mismatch_zeroed bld retries s0 s1 t H) as [Hz1 Hz2].
    split; [exact Hz1 | split; [exact Hz2 |]].
    destruct (attempt_mismatch_inputs bld retries s0 s1 t H)
      as (a & b & rest & Hin & Hmis).
    pose proof (attempt_mismatch_run bld retries s0 a b rest Hin Hmis) as Hrun.
    rewrite H in Hrun. injection Hrun as Hs1 _.
    split; [| split].
    + rewrite Hs1. destruct s0. reflexivity.
    + exists a, b, rest. split; [exact Hin |].
      rewrite Hs1. destruct s0.
      cbn [getpass_buf set_pass set_getpass_buf set_tty_input].
      rewrite strzero_cstr. reflexivity.
    + cbn [change_passwd_loop]. erewrite bind_returns by exact H. reflexivity.
  - intros a1 b1 a2 b2 a3 b3 rest Hin M1 M2 M3 r. subst r.
    unfold change_passwd.
    erewrite bind_returns by reflexivity.
    erewrite bind_returns by reflexivity.
    assert (Hloop : exists s3,
      change_passwd_loop bld RETRIES 0 s =
        (Returns 3%nat, s3,
         [EGetpass NewPassword true; EGetpass ReEnterNewPassword true;
          EStdout MsgDontMatch;
          EGetpass NewPassword true; EGetpass ReEnterNewPassword true;
          EStdout MsgDontMatch;
          EGetpass NewPassword true; EGetpass ReEnterNewPassword true]) /\
      grent s3 = grent s /\ sgent s3 = sgent s /\ stores s3 = stores s /\
      pass s3 = memzero (BUFSIZ bld) /\
      getpass_buf s3 = strzero (cstr (list_ascii_of_string b3))).
    { eexists. split.
      - unfold RETRIES at 1. cbn [change_passwd_loop].
        erewrite bind_returns
          by (eapply attempt_mismatch_run; [exact Hin | exact M1]).
        cbv beta iota.
        erewrite bind_returns
          by (eapply attempt_mismatch_run;
              [apply tty_input_after_attempt | exact M2]).
        cbv beta iota.
        erewrite bind_returns
          by (eapply attempt_mismatch_run;
              [apply tty_input_after_attempt | exact M3]).
        reflexivity.
      - clear. destruct s. repeat split. }
    destruct Hloop as (s3 & Hloop & Hg & Hsg & Hst & Hp & Hb).
    cbn [state_of outcome_of trace_of fst snd].
    erewrite bind_returns by exact Hloop.
    assert (Hex : forall (k : unit -> M unit),
      bind (when (3 =? RETRIES)%nat
              (fprintf_stderr MsgTryAgainLater;; fail_exit bld 1)) k s3 =
      (Exits 1, state_of (@fail_exit bld unit 1 s3),
       EStderr MsgTryAgainLater :: trace_of (@fail_exit bld unit 1 s3))).
    { intros k. cbn [Nat.eqb RETRIES when]. unfold fprintf_stderr.
      erewrite bind_exits; [reflexivity |].
      erewrite bind_returns by reflexivity.
      rewrite fail_exit_exits. reflexivity. }
    rewrite Hex. cbn [state_of outcome_of trace_of fst snd].
    destruct (fail_exit_records (A := unit) bld 1 s3) as (F1 & F2 & F3 & F4).
    pose proof (fail_exit_no_attempt (A := unit) bld 1 s3) as F5.
    destruct (fail_exit_buffers (A := unit) bld 1 s3) as (F6 & F7).
    rewrite strzero_cstr in Hb.
    unfold state_of, trace_of in *.
    rewrite F1, F2, F3, F4, F6, F7, Hg, Hsg, Hst, Hp, Hb.
    split; [reflexivity |]. split.
    + rewrite !in_app_iff. right. right. right. now left.
    + split; [| repeat split].
      rewrite !attempts_app.
      change (EStderr MsgTryAgainLater :: snd (@fail_exit bld unit 1 s3))
        with ([EStderr MsgTryAgainLater] ++ snd (@fail_exit bld unit 1 s3)).
      rewrite attempts_app, F5. reflexivity.
Qed.

(** ** Loading the record pair *)

Ltac unfold_load :=
  unfold get_group, failure, fail_exit, gr_open, sgr_open, gr_locate,
    sgr_locate, gr_close, sgr_close, gr_unlock, sgr_unlock, the_group,
    fprintf_stderr, when, bind, ret, exit, emit, gets, modify,
    outcome_of, state_of, trace_of.

(** C6.  With the shadow store in use and readable, a group that the
    primary store has and the shadow store lacks makes [get_group]
    return with a made-up shadow record: named after the group, holding
    the password the primary record had, with a copy of the primary
    member list as its members, and with the first primary member (if
    there is one) as its only administrator under
    [FIRST_MEMBER_IS_ADMIN] and no administrator otherwise.  The primary
    record in memory gets the shadow marker as its password; the files
    are not written. *)
Theorem get_group_synthesizes_shadow (bld : build) (env : environment)
    (s : state) (g : string) (t : group_t) :
  is_shadowgrp bld env = true ->
  group (opts s) = Some g ->
  gr_open_ok env O_RDONLY = true ->
  gr_close_ok env O_RDONLY = true ->
  sgr_open_ok env O_RDONLY = true ->
  sgr_close_ok env O_RDONLY = true ->
  find (fun x => String.eqb (gr_name x) g) (group_file (stores s)) = Some t ->
  find (fun x => String.eqb (sg_name x) g) (gshadow_file (stores s)) = None ->
  let r := get_group bld env s in
  outcome_of r = Returns tt /\
  sgent (state_of r) =
    mkSgrp g (gr_passwd t)
           (if FIRST_MEMBER_IS_ADMIN bld
            then match gr_mem t with
                 | first :: _ => [first]
                 | [] => []
                 end
            else [])
           (gr_mem t) /\
  grent (state_of r) =
    mkGroup (gr_name t) SHADOW_PASSWD_STRING (gr_gid t) (gr_mem t) /\
  group_file (stores (state_of r)) = group_file (stores s) /\
  gshadow_file (stores (state_of r)) = gshadow_file (stores s).
Proof.
  intros Hsh Hg Hgo Hgc Hso Hsc Hfind Hnone r. subst r.
  destruct s as [[fa fA fd fM fr fR og ou om oa] gl sl nm p gr sg
                 [gf sf gdb sdb gh sh] i b].
  destruct env as [uid present pwd me gbusy sbusy gopen sopen gclose sclose
                   gupd supd tty suid crypt c2l].
  destruct bld as [shadowgrp fmia bufsiz eusage].
  unfold is_shadowgrp in Hsh. cbn in Hsh, Hg, Hgo, Hgc, Hso, Hsc, Hfind, Hnone.
  apply andb_prop in Hsh. destruct Hsh as [-> ->]. subst og.
  unfold_load. unfold is_shadowgrp.
  cbn. rewrite Hgo. cbn. rewrite Hfind. cbn.
  rewrite Hgc. cbn. rewrite Hso. cbn. rewrite Hnone. cbn.
  rewrite Hsc. cbn. unfold dup_list. repeat split.
Qed.

(** What the permission check does with the verdict on the pair in
    memory. *)
Lemma check_perms_passes bld env s :
  may_administer bld env (myname s) (grent s, sgent s) = true ->
  check_perms bld env s = (Returns tt, s, []).
Proof.
  unfold may_administer, authorize. cbn [fst snd].
  rewrite in_dec_is_on_list. unfold check_perms.
  destruct (amroot env), (is_shadowgrp bld env), (FIRST_MEMBER_IS_ADMIN bld);
    unfold bind, gets, when, ret; cbn; try reflexivity; try discriminate.
  1, 2: intros ->; reflexivity.
  destruct (gr_mem (grent s)) as [| first rest]; [discriminate |].
  rewrite string_dec_eqb. intros ->. reflexivity.
Qed.

Lemma check_perms_denies bld env s :
  may_administer bld env (myname s) (grent s, sgent s) = false ->
  check_perms bld env s = failure bld s.
Proof.
  unfold may_administer, authorize. cbn [fst snd].
  rewrite in_dec_is_on_list. unfold check_perms.
  generalize (@failure bld unit). intros F.
  destruct (amroot env), (is_shadowgrp bld env), (FIRST_MEMBER_IS_ADMIN bld);
    unfold bind, gets, when, ret; cbn; try discriminate; intros H.
  1, 2: rewrite H; cbn; destruct (F s) as [[o s1] t1]; reflexivity.
  - destruct (gr_mem (grent s)) as [| first rest].
    + destruct (F s) as [[o s1] t1]. reflexivity.
    + rewrite string_dec_eqb in H. rewrite H. cbn.
      destruct (F s) as [[o s1] t1]. reflexivity.
  - destruct (F s) as [[o s1] t1]. reflexivity.
Qed.

(** C7, as the code has it.  When the group file can be read and does
    not list the group, [get_group] says that the group does not exist
    and then calls [failure], the routine of a denied caller: the run
    ends there with the permission-denied message and status 1, which
    is how [check_perms] ends for a caller it turns away.  The missing
    group is told apart from a denial by the does-not-exist message in
    front and by nothing else.  Nothing is locked and no file is
    written. *)
Theorem get_group_missing_group (bld : build) (env : environment)
    (s : state) (g : string) :
  lock_free s ->
  group (opts s) = Some g ->
  gr_open_ok env O_RDONLY = true ->
  find (fun x => String.eqb (gr_name x) g) (group_file (stores s)) = None ->
  let r := get_group bld env s in
  let opened :=
    set_stores (with_gr_db (Some (O_RDONLY, group_file (stores s)))) s in
  outcome_of r = Exits 1 /\
  In (EStderr (MsgGroupNotExist g)) (trace_of r) /\
  outcome_of r = outcome_of (@failure bld unit s) /\
  lock_free (state_of r) /\
  group_file (stores (state_of r)) = group_file (stores s) /\
  gshadow_file (stores (state_of r)) = gshadow_file (stores s) /\
  r = (Exits 1, opened,
       [EGrOpen O_RDONLY true; EGrLocate g false;
        EStderr (MsgGroupNotExist g); EStderr MsgPermissionDenied]) /\
  @failure bld unit opened = (Exits 1, opened, [EStderr MsgPermissionDenied]) /\
  (forall s', lock_free s' ->
     may_administer bld env (myname s') (grent s', sgent s') = false ->
     check_perms bld env s' = (Exits 1, s', [EStderr MsgPermissionDenied])).
Proof.
  intros Hfree Hg Hgo Hfind r opened.
  assert (Hopened : lock_free opened).
  { subst opened. destruct s as [o gl sl nm p gr sg [gf sf gdb sdb gh sh] i b].
    exact Hfree. }
  assert (Hr : r = (Exits 1, opened,
                    [EGrOpen O_RDONLY true; EGrLocate g false;
                     EStderr (MsgGroupNotExist g);
                     EStderr MsgPermissionDenied])).
  { subst r opened. destruct Hfree as (H1 & H2 & H3 & H4).
    destruct s as [[fa fA fd fM fr fR og ou om oa] gl sl nm p gr sg
                   [gf sf gdb sdb gh sh] i b].
    destruct env as [uid present pwd me gbusy sbusy gopen sopen gclose sclose
                     gupd supd tty suid crypt c2l].
    destruct bld as [shadowgrp fmia bufsiz eusage].
    cbn in H1, H2, H3, H4, Hg, Hgo, Hfind. subst gl sl gh sh og.
    unfold_load. cbn. rewrite Hgo. cbn. rewrite Hfind. cbn.
    rewrite andb_false_r. reflexivity. }
  rewrite Hr. cbn [outcome_of state_of trace_of fst snd].
  rewrite (failure_lock_free bld Hfree), (failure_lock_free bld Hopened).
  cbn [outcome_of state_of trace_of fst snd].
  repeat match goal with |- _ /\ _ => split end; try reflexivity.
  - right. right. now left.
  - exact Hopened.
  - subst opened. destruct s as [o gl sl nm p gr sg []]. reflexivity.
  - subst opened. destruct s as [o gl sl nm p gr sg []]. reflexivity.
  - intros s' Hfree' Hdenied. rewrite (check_perms_denies _ _ _ Hdenied).
    apply (failure_lock_free bld Hfree').
Qed.

(** ** Removing a member *)

Ltac unfold_delete :=
  unfold delete_member, fail_exit, gr_unlock, sgr_unlock, the_group,
    fprintf_stderr, puts, when, bind, ret, exit, emit, gets, modify,
    outcome_of, state_of, trace_of.

Lemma delete_member_absent bld env s :
  is_on_list (gr_mem (grent s)) (user (opts s)) = false ->
  is_shadowgrp bld env && is_on_list (sg_mem (sgent s)) (user (opts s))
    = false ->
  delete_member bld env s =
    (Exits 1, state_of (@fail_exit bld unit 1 s),
     EStdout (MsgRemoving (user (opts s)) (the_group s))
       :: EStderr (MsgNotMember (user (opts s)) (the_group s))
       :: trace_of (@fail_exit bld unit 1 s)).
Proof.
  intros H1 H2. unfold delete_member.
  do 4 (erewrite bind_returns by reflexivity; cbv beta).
  cbn [outcome_of state_of trace_of fst snd app]. rewrite H1. cbn [when].
  erewrite bind_returns by reflexivity. cbv beta.
  erewrite bind_returns by reflexivity. cbv beta.
  cbn [outcome_of state_of trace_of fst snd app]. rewrite H2. cbn [when].
  erewrite bind_returns by reflexivity. cbv beta.
  cbn [outcome_of state_of trace_of fst snd app orb negb when].
  unfold fprintf_stderr. erewrite bind_returns by reflexivity.
  cbn [outcome_of state_of trace_of fst snd app].
  pose proof (fail_exit_exits (A := unit) bld 1 s) as Hex.
  destruct (@fail_exit bld unit 1 s) as [[oo ss] tt]. cbn in Hex. subst oo.
  reflexivity.
Qed.

Lemma delete_member_present bld env s :
  is_on_list (gr_mem (grent s)) (user (opts s))
  || is_shadowgrp bld env && is_on_list (sg_mem (sgent s)) (user (opts s))
    = true ->
  delete_member bld env s =
    (Returns tt,
     set_sgent (fun sg =>
        if is_shadowgrp bld env && is_on_list (sg_mem sg) (user (opts s))
        then with_sg_mem (del_list (sg_mem sg) (user (opts s))) sg else sg)
       (set_grent (fun gr =>
          if is_on_list (gr_mem gr) (user (opts s))
          then with_gr_mem (del_list (gr_mem gr) (user (opts s))) gr else gr)
          s),
     [EStdout (MsgRemoving (user (opts s)) (the_group s))]).
Proof.
  intros H. destruct s as [o gl sl nm p gr sg st i b]. cbn in H |- *.
  unfold_delete. cbn.
  destruct (is_on_list (gr_mem gr) (user o)); cbn in H |- *.
  - destruct (is_shadowgrp bld env && is_on_list (sg_mem sg) (user o));
      reflexivity.
  - rewrite H. reflexivity.
Qed.

(** C8.  The [-d] block of [main].  For a name that is on neither member
    list (the shadow list counts only when the shadow store is in use)
    it prints the not-a-member message and exits with status 1, leaving
    both records as they were.  For a name that is on one of them it
    returns, and each list in use then is the old list with every
    occurrence of the name filtered out, so the name is on it no more. *)
Theorem delete_member_removes (bld : build) (env : environment) (s : state) :
  let u := user (opts s) in
  let r := delete_member bld env s in
  (~ In u (gr_mem (grent s)) ->
   (is_shadowgrp bld env = true -> ~ In u (sg_mem (sgent s))) ->
     outcome_of r = Exits 1 /\
     In (EStderr (MsgNotMember u (the_group s))) (trace_of r) /\
     grent (state_of r) = grent s /\
     sgent (state_of r) = sgent s)
  /\
  (In u (gr_mem (grent s))
   \/ (is_shadowgrp bld env = true /\ In u (sg_mem (sgent s))) ->
     outcome_of r = Returns tt /\
     gr_mem (grent (state_of r))
       = filter (fun x => negb (String.eqb x u)) (gr_mem (grent s)) /\
     ~ In u (gr_mem (grent (state_of r))) /\
     (is_shadowgrp bld env = true ->
        sg_mem (sgent (state_of r))
          = filter (fun x => negb (String.eqb x u)) (sg_mem (sgent s)) /\
        ~ In u (sg_mem (sgent (state_of r)))) /\
     (is_shadowgrp bld env = false -> sgent (state_of r) = sgent s)).
Proof.
  intros u r. subst u r. split.
  - intros Hn1 Hn2.
    apply is_on_list_false in Hn1.
    assert (H2 : is_shadowgrp bld env
                 && is_on_list (sg_mem (sgent s)) (user (opts s)) = false).
    { destruct (is_shadowgrp bld env); [| reflexivity].
      cbn. apply is_on_list_false. now apply Hn2. }
    rewrite (delete_member_absent bld env s Hn1 H2).
    cbn [outcome_of state_of trace_of fst snd].
    destruct (fail_exit_records (A := unit) bld 1 s) as (F1 & F2 & _).
    split; [reflexivity |]. split; [right; now left |]. now split.
  - intros Hin.
    assert (H : is_on_list (gr_mem (grent s)) (user (opts s))
                || is_shadowgrp bld env
                   && is_on_list (sg_mem (sgent s)) (user (opts s)) = true).
    { destruct Hin as [Hin | [Hsh Hin]].
      - apply is_on_list_In in Hin. now rewrite Hin.
      - apply is_on_list_In in Hin. rewrite Hsh, Hin. apply orb_true_r. }
    rewrite (delete_member_present bld env s H).
    destruct s as [o gl sl nm p gr sg st i b].
    cbn [outcome_of state_of trace_of fst snd set_sgent set_grent grent sgent
         opts user].
    split; [reflexivity |].
    assert (Hgr : gr_mem (if is_on_list (gr_mem gr) (user o)
                          then with_gr_mem (del_list (gr_mem gr) (user o)) gr
                          else gr)
                  = del_list (gr_mem gr) (user o)).
    { destruct (is_on_list (gr_mem gr) (user o)) eqn:E; [reflexivity |].
      symmetry. apply del_list_absent. now apply is_on_list_false. }
    split; [exact Hgr |]. split; [rewrite Hgr; apply del_list_not_In |].
    split.
    + intros Hsh. rewrite Hsh. cbn [andb].
      assert (Hsg : sg_mem (if is_on_list (sg_mem sg) (user o)
                            then with_sg_mem (del_list (sg_mem sg) (user o)) sg
                            else sg)
                    = del_list (sg_mem sg) (user o)).
      { destruct (is_on_list (sg_mem sg) (user o)) eqn:E; [reflexivity |].
        symmetry. apply del_list_absent. now apply is_on_list_false. }
      split; [exact Hsg | rewrite Hsg; apply del_list_not_In].
    + intros Hsh. rewrite Hsh. reflexivity.
Qed.

(** ** Validation of user lists *)

Lemma user_list_loop_step env c s valid :
  user_list_loop env (String c s) valid =
  match strchr (String c s) "," with
  | Some i =>
      let username :=
        strncpy (String c s) (if (31 <? i)%nat then 31%nat else i) in
      let found := pw_lookup env username in
      let r := user_list_loop env (advance (String c s) (S i))
                              (if found then valid else false) in
      (fst r,
       EGetpwnam username found
         :: (if found then [] else [EStderr (MsgUserNotExist username)])
         ++ snd r)
  | None =>
      let username :=
        strncpy (String c s)
                (if (31 <? String.length (String c s))%nat
                 then 31%nat else String.length (String c s)) in
      let found := pw_lookup env username in
      (if found then valid else false,
       EGetpwnam username found
         :: (if found then [] else [EStderr (MsgUserNotExist username)]))
  end.
Proof.
  simp user_list_loop.
  destruct (strchr (String c s) ","); cbn; reflexivity.
Qed.

Lemma strchr_append t c rest :
  strchr t c = None ->
  strchr (t ++ String c rest) c = Some (String.length t).
Proof.
  induction t as [| a t IH]; cbn; intros H.
  - now rewrite Ascii.eqb_refl.
  - destruct (Ascii.eqb a c); [discriminate |].
    destruct (strchr t c); [discriminate |].
    now rewrite IH.
Qed.

Lemma strncpy_all t n : (String.length t <= n)%nat -> strncpy t n = t.
Proof.
  revert n. induction t as [| a t IH]; intros n H.
  - destruct n; reflexivity.
  - destruct n as [| n]; cbn in *; [lia |]. f_equal. apply IH. lia.
Qed.

Lemma strncpy_append t rest n :
  (n <= String.length t)%nat -> strncpy (t ++ rest) n = strncpy t n.
Proof.
  revert n. induction t as [| a t IH]; intros n H; cbn in *.
  - assert (n = 0)%nat by lia. subst n. destruct rest; reflexivity.
  - destruct n as [| n]; [reflexivity |]. cbn. f_equal. apply IH. lia.
Qed.

Lemma advance_append t c rest :
  advance (t ++ String c rest) (S (String.length t)) = rest.
Proof.
  induction t as [| a t IH]; cbn.
  - destruct rest; reflexivity.
  - exact IH.
Qed.

Lemma string_append_nil (t : string) : (t ++ "")%string = t.
Proof. induction t as [| a t IH]; cbn; [reflexivity | now rewrite IH]. Qed.

Lemma append_assoc_char acc c x :
  ((acc ++ String c "") ++ x)%string = (acc ++ String c x)%string.
Proof. induction acc as [| a acc IH]; cbn; [reflexivity | now rewrite IH]. Qed.

Lemma advance_zero s : advance s 0 = s.
Proof. destruct s; reflexivity. Qed.

Lemma strncpy_zero s : strncpy s 0 = ""%string.
Proof. destruct s; reflexivity. Qed.

Lemma split_from_comma s : forall acc i,
  strchr s "," = Some i ->
  split_from acc s = (acc ++ strncpy s i)%string :: split_from "" (advance s (S i)).
Proof.
  induction s as [| c s IH]; intros acc i H; [discriminate |].
  cbn in H |- *. destruct (Ascii.eqb c ",") eqn:E.
  - inversion H; subst i. rewrite advance_zero. cbn.
    now rewrite string_append_nil.
  - destruct (strchr s ",") as [j |] eqn:Ej; [| discriminate].
    inversion H; subst i. rewrite (IH _ j eq_refl). cbn.
    now rewrite append_assoc_char.
Qed.

Lemma split_from_last s : forall acc,
  strchr s "," = None ->
  split_from acc s = last_token (acc ++ s).
Proof.
  induction s as [| c s IH]; intros acc H.
  - cbn. rewrite string_append_nil. reflexivity.
  - cbn in H |- *. destruct (Ascii.eqb c ","); [discriminate |].
    destruct (strchr s ","); [discriminate |].
    rewrite (IH _ eq_refl). now rewrite append_assoc_char.
Qed.

Lemma strchr_bound s c : forall i, strchr s c = Some i -> (i < String.length s)%nat.
Proof.
  induction s as [| a s IH]; intros i H; [discriminate |].
  cbn in H |- *. destruct (Ascii.eqb a c).
  - inversion H. lia.
  - destruct (strchr s c) as [j |]; [| discriminate].
    inversion H. specialize (IH j eq_refl). lia.
Qed.

Lemma strncpy_strncpy s : forall i n,
  strncpy (strncpy s i) n = strncpy s (Nat.min i n).
Proof.
  induction s as [| a s IH]; intros i n.
  - destruct i, n; reflexivity.
  - destruct i as [| i]; [destruct n; reflexivity |].
    destruct n as [| n]; [reflexivity |]. cbn. now rewrite IH.
Qed.

Lemma strncpy_min_length s : forall n,
  strncpy s (Nat.min n (String.length s)) = strncpy s n.
Proof.
  induction s as [| a s IH]; intros n.
  - destruct n; reflexivity.
  - destruct n as [| n]; [reflexivity |]. cbn. now rewrite IH.
Qed.

Lemma clip_min i : (if (31 <? i)%nat then 31%nat else i) = Nat.min i 31.
Proof. destruct (31 <? i)%nat eqn:E; [apply Nat.ltb_lt in E | apply Nat.ltb_ge in E]; lia. Qed.

Lemma advance_length s : forall i,
  (String.length (advance s i) <= String.length s)%nat.
Proof.
  induction s as [| a s IH]; intros i.
  - destruct i; cbn; lia.
  - destruct i as [| i]; cbn; [lia |]. specialize (IH i). lia.
Qed.

Lemma advance_shorter c s i n :
  n = String.length (String c s) ->
  (String.length (advance (String c s) (S i)) < n)%nat.
Proof. intros ->. cbn. pose proof (advance_length s i). lia. Qed.

Lemma user_list_loop_split env users : forall valid,
  user_list_loop env users valid =
  (valid && forallb (fun t => pw_lookup env (truncated 31 t)) (split_commas users),
   flat_map (lookup_events (passwd env)) (split_commas users)).
Proof.
  remember (String.length users) as n eqn:Hn. revert users Hn.
  induction n as [n IH] using lt_wf_ind. intros users Hn valid.
  destruct users as [| c s].
  - simp user_list_loop. cbn. now rewrite andb_true_r.
  - rewrite user_list_loop_step. unfold split_commas.
    destruct (strchr (String c s) ",") as [i |] eqn:E.
    + cbv zeta. rewrite (split_from_comma _ _ _ E). cbn [append].
      rewrite clip_min, <- strncpy_strncpy.
      fold (truncated 31 (strncpy (String c s) i)).
      rewrite (IH (String.length (advance (String c s) (S i)))
                  (advance_shorter c s i n Hn) _ eq_refl).
      cbn [fst snd forallb flat_map]. unfold lookup_events at 2, pw_lookup.
      fold (split_commas (advance (String c s) (S i))).
      destruct (existsb _ _), valid; reflexivity.
    + cbv zeta. rewrite (split_from_last _ _ E). cbn [append].
      rewrite clip_min, Nat.min_comm, strncpy_min_length.
      fold (truncated 31 (String c s)).
      change (last_token (String c s)) with [String c s].
      cbn [forallb flat_map]. unfold lookup_events, pw_lookup.
      rewrite app_nil_r, andb_true_r.
      destruct (existsb _ _), valid; reflexivity.
Qed.

Lemma split_join tokens :
  well_formed_tokens tokens -> split_commas (join_commas tokens) = tokens.
Proof.
  intros [Hfree Hlast]. unfold split_commas.
  induction Hfree as [| t tokens Ht Hfree IH].
  - reflexivity.
  - destruct tokens as [| t' tokens'].
    + cbn in Hlast |- *. rewrite (split_from_last _ _ Ht). cbn [append].
      destruct t; [congruence | reflexivity].
    + change (join_commas (t :: t' :: tokens'))
        with (t ++ String "," (join_commas (t' :: tokens')))%string.
      rewrite (split_from_comma _ _ _ (strchr_append t "," _ Ht)).
      rewrite advance_append. cbn [append].
      rewrite strncpy_append by lia. rewrite strncpy_all by lia.
      f_equal. apply IH. exact Hlast.
Qed.

Lemma truncated_length n t : (String.length (truncated n t) <= n)%nat.
Proof.
  unfold truncated. revert n. induction t as [| a t IH]; intros n.
  - destruct n; cbn; lia.
  - destruct n as [| n]; cbn; [lia |]. specialize (IH n). lia.
Qed.

(** C9.  Whatever list it is given, [is_valid_user_list] looks up,
    token by token and in order, the first 31 characters of each token
    of the list, prints a does-not-exist message (naming those 31
    characters) for each lookup that fails and nothing else, and answers
    whether all lookups succeeded.  No name longer than 31 characters
    ever reaches the identity store, and a list whose truncated names
    all exist is accepted whatever the length of its tokens.  The tokens
    are those the list was written from. *)
Theorem is_valid_user_list_truncates (env : environment) (users : string)
    (s : state) :
  let r := is_valid_user_list env users s in
  let tokens := split_commas users in
  outcome_of r
    = Returns (forallb (fun t => pw_lookup env (truncated 31 t)) tokens) /\
  trace_of r = flat_map (lookup_events (passwd env)) tokens /\
  state_of r = s /\
  (forall name found, In (EGetpwnam name found) (trace_of r) ->
     (String.length name <= 31)%nat /\
     exists t, In t tokens /\ name = truncated 31 t) /\
  (Forall (fun t => pw_lookup env (truncated 31 t) = true) tokens ->
     outcome_of r = Returns true) /\
  (forall written, well_formed_tokens written ->
     users = join_commas written -> tokens = written).
Proof.
  intros r tokens. subst r tokens. unfold is_valid_user_list.
  cbn [outcome_of state_of trace_of fst snd].
  rewrite (user_list_loop_split env users true).
  cbn [fst snd andb].
  split; [reflexivity |]. split; [reflexivity |]. split; [reflexivity |].
  split; [| split].
  - intros name found Hin. apply in_flat_map in Hin.
    destruct Hin as (t & Ht & Hin). unfold lookup_events in Hin.
    assert (name = truncated 31 t) as ->.
    { destruct Hin as [Hin | Hin]; [now inversion Hin |].
      destruct (existsb _ _); [contradiction |].
      destruct Hin as [Hin | []]. discriminate. }
    split; [apply truncated_length | now exists t].
  - intros Hall. f_equal. apply forallb_forall. intros t Ht.
    rewrite Forall_forall in Hall. now apply Hall.
  - intros written Hwf ->. now apply split_join.
Qed.

(** ** Deleting needs no identity-store entry *)

Lemma main_delete_ignores_passwd bld env names u ops :
  main bld (with_passwd names env) (mkCmdline [Flag_d u] ops)
  = main bld env (mkCmdline [Flag_d u] ops).
Proof. destruct env. reflexivity. Qed.

Lemma process_flag_add_unknown bld env u s :
  lock_free s -> pw_lookup env u = false ->
  process_flag bld env (Flag_a u) s =
    (Exits 1,
     set_opts (fun o => mkOptions (aflg o) (Aflg o) (dflg o) (Mflg o) (rflg o)
                          (Rflg o) (group o) u (members o) (admins o)) s,
     [EGetpwnam u false; EStderr (MsgUserNotExist u)]).
Proof.
  intros Hfree Hpw. unfold process_flag, getpwnam, fprintf_stderr.
  erewrite bind_returns by reflexivity. cbv beta.
  erewrite bind_returns by reflexivity. cbv beta.
  rewrite Hpw. cbn [outcome_of state_of trace_of fst snd negb when app].
  assert (Hfree' : lock_free
    (set_opts (fun o => mkOptions (aflg o) (Aflg o) (dflg o) (Mflg o) (rflg o)
                          (Rflg o) (group o) u (members o) (admins o)) s)).
  { destruct s. exact Hfree. }
  erewrite bind_exits; [reflexivity |].
  erewrite bind_returns by reflexivity.
  rewrite (fail_exit_lock_free bld 1 Hfree'). reflexivity.
Qed.

Lemma output_succeeds bld env s :
  commit_unhindered env -> lock_free s ->
  outcome_of (output bld env s) = Exits E_SUCCESS /\
  group_file (stores (state_of (output bld env s)))
    = put_group (group_file (stores s)) (grent s) /\
  lock_free (state_of (output bld env s)).
Proof.
  intros (E1 & E2 & E3 & E4 & E5 & E6 & E7 & E8 & E9) (H1 & H2 & H3 & H4).
  destruct s as [o gl sl nm p g sg [gf sf gdb sdb gh sh] i b].
  cbn in H1, H2, H3, H4. subst gl sl gh sh.
  destruct env as [uid present pwd me gbusy sbusy gopen sopen gclose sclose
                   gupd supd tty suid crypt c2l].
  destruct bld as [shadowgrp fmia bufsiz eusage].
  cbn in E1, E2, E3, E4, E5, E6, E7, E8, E9. subst.
  unfold lock_free. unfold_commit.
  destruct shadowgrp, present;
    repeat (cbn; rewrite ?E4, ?E5, ?E8, ?E9); repeat split.
Qed.

Lemma change_passwd_loop_no_getpwnam bld k r :
  keeps (fun _ => True) no_getpwnam_event (change_passwd_loop bld k r).
Proof.
  revert r. induction k as [| k IH]; intros r; cbn [change_passwd_loop].
  - apply keeps_ret.
  - apply keeps_bind; [keeps_auto lock_free_side |].
    intros [|]; [apply keeps_ret | apply IH].
Qed.

Lemma main_delete_no_getpwnam bld env u ops :
  keeps (fun _ => True) no_getpwnam_event
        (main bld env (mkCmdline [Flag_d u] ops)).
Proof.
  unfold main, prepare, process_flags. cbn [flags process_flags_loop].
  repeat (apply keeps_bind; [| intros ?]).
  all: try (unfold operation, prompt_for_password, change_passwd).
  all: repeat first
         [ apply change_passwd_loop_no_getpwnam
         | keeps_step lock_free_side ].
Qed.

(** C10.  Where [-a] stops at once, with status 1 and the
    does-not-exist message, when [getpwnam] does not know the name,
    [-d] never asks: its option only records the name; the whole run of
    [main] is the same whatever the identity store holds and contains no
    [getpwnam] call; its block in [main] goes on exactly when the name
    is on a member list in use and otherwise exits with the not-a-member
    message; and when it goes on and nothing hinders the commit, the run
    ends with [E_SUCCESS], the primary record written without the
    name. *)
Theorem delete_needs_no_identity (bld : build) (env : environment)
    (s : state) (u : string) (ops : list string) :
  (forall names,
     main bld (with_passwd names env) (mkCmdline [Flag_d u] ops) s
     = main bld env (mkCmdline [Flag_d u] ops) s)
  /\ Forall (fun e => is_getpwnam_event e = false)
            (trace_of (main bld env (mkCmdline [Flag_d u] ops) s))
  /\ process_flag bld env (Flag_d u) s =
       (Returns tt,
        set_opts (fun o => mkOptions (aflg o) (Aflg o) true (Mflg o) (rflg o)
                             (Rflg o) (group o) u (members o) (admins o)) s,
        [])
  /\ (user (opts s) = u ->
      (In u (gr_mem (grent s))
       \/ (is_shadowgrp bld env = true /\ In u (sg_mem (sgent s))) ->
         outcome_of (delete_member bld env s) = Returns tt /\
         (commit_unhindered env -> lock_free s ->
            let r := bind (delete_member bld env)
                          (fun _ => output bld env) s in
            outcome_of r = Exits E_SUCCESS /\
            group_file (stores (state_of r))
              = put_group (group_file (stores s))
                  (with_gr_mem
                     (filter (fun x => negb (String.eqb x u))
                             (gr_mem (grent s)))
                     (grent s))))
      /\
      (~ In u (gr_mem (grent s)) ->
       (is_shadowgrp bld env = true -> ~ In u (sg_mem (sgent s))) ->
         outcome_of (delete_member bld env s) = Exits 1 /\
         In (EStderr (MsgNotMember u (the_group s)))
            (trace_of (delete_member bld env s))))
  /\ (lock_free s -> pw_lookup env u = false ->
      outcome_of (main bld env (mkCmdline [Flag_a u] ops) s) = Exits 1 /\
      trace_of (main bld env (mkCmdline [Flag_a u] ops) s)
        = [EGetpwnam u false; EStderr (MsgUserNotExist u)]).
Proof.
  split; [| split; [| split; [| split]]].
  - intros names. now rewrite main_delete_ignores_passwd.
  - exact (proj2 (main_delete_no_getpwnam bld env u ops s I)).
  - reflexivity.
  - intros Hu. split.
    + intros Hin.
      assert (H : is_on_list (gr_mem (grent s)) (user (opts s))
                  || is_shadowgrp bld env
                     && is_on_list (sg_mem (sgent s)) (user (opts s)) = true).
      { rewrite Hu. destruct Hin as [Hin | [Hsh Hin]].
        - apply is_on_list_In in Hin. now rewrite Hin.
        - apply is_on_list_In in Hin. rewrite Hsh, Hin. apply orb_true_r. }
      pose proof (delete_member_present bld env s H) as Hrun.
      split; [now rewrite Hrun |].
      intros Hok Hfree r. subst r.
      erewrite bind_returns by exact Hrun.
      match goal with
      | |- context [output bld env ?s1] =>
          assert (Hfree1 : lock_free s1) by (destruct s; exact Hfree);
          destruct (output_succeeds bld env s1 Hok Hfree1) as (O1 & O2 & _);
          change (outcome_of (output bld env s1) = Exits E_SUCCESS /\
                  group_file (stores (state_of (output bld env s1))) =
                  put_group (group_file (stores s))
                    (with_gr_mem
                       (filter (fun x => negb (String.eqb x u))
                               (gr_mem (grent s)))
                       (grent s)))
      end.
      split; [exact O1 |]. rewrite O2. rewrite Hu.
      destruct s as [o gl sl nm p gr sg st i b].
      cbn [stores grent set_sgent set_grent]. f_equal.
      destruct (is_on_list (gr_mem gr) u) eqn:E; [reflexivity |].
      unfold with_gr_mem. fold (del_list (gr_mem gr) u).
      rewrite del_list_absent by now apply is_on_list_false.
      destruct gr; reflexivity.
    + intros Hn1 Hn2. rewrite <- Hu in Hn1, Hn2 |- *.
      apply is_on_list_false in Hn1.
      assert (H2 : is_shadowgrp bld env
                   && is_on_list (sg_mem (sgent s)) (user (opts s)) = false).
      { destruct (is_shadowgrp bld env); [| reflexivity].
        cbn. apply is_on_list_false. now apply Hn2. }
      rewrite (delete_member_absent bld env s Hn1 H2).
      split; [reflexivity | right; now left].
  - intros Hfree Hpw.
    assert (Hrun : main bld env (mkCmdline [Flag_a u] ops) s =
                   process_flag bld env (Flag_a u) s).
    { rewrite (process_flag_add_unknown bld env u s Hfree Hpw).
      apply main_exits_in_flags. cbn [flags process_flags_loop].
      erewrite bind_exits; [reflexivity |].
      now apply process_flag_add_unknown. }
    rewrite Hrun, (process_flag_add_unknown bld env u s Hfree Hpw).
    split; reflexivity.
Qed.

(** ** Concrete runs *)

Lemma start_lock_free input : lock_free (start input).
Proof. repeat split. Qed.

Lemma loaded_lock_free u : lock_free (loaded u).
Proof. repeat split. Qed.

(** C1, on a run: with the shadow store in use alice, an administrator
    of eng, is let through and bob, a mere member, is not. *)
Lemma check_perms_policy_witness :
  check_perms shadow_build as_alice (set_myname "alice" (loaded "bob"))
    = (Returns tt, set_myname "alice" (loaded "bob"), [])
  /\ check_perms shadow_build as_bob (set_myname "bob" (loaded "bob"))
     = (Exits 1, set_myname "bob" (loaded "bob"),
        [EStderr MsgPermissionDenied])
  /\ (authorize false true false "alice" ["alice"]%string
                ["alice"; "bob"]%string = true
      <-> In "alice"%string ["alice"]%string).
Proof.
  split; [| split].
  - exact (proj1 (@check_perms_policy shadow_build as_alice
                    (set_myname "alice" (loaded "bob")))).
  - exact (proj1 (@check_perms_policy shadow_build as_bob
                    (set_myname "bob" (loaded "bob")))).
  - exact (proj1 (proj2 (proj2 (proj2 (proj2
             (@check_perms_policy shadow_build as_alice
                (set_myname "alice" (loaded "bob")))))))
             eq_refl eq_refl).
Defined.

(** C2, on a run: with the group lock busy nothing else is tried; with
    only the shadow lock busy the group lock is given back. *)
Lemma open_files_lock_protocol_witness :
  open_files shadow_build (world 0 "root" true false) (start [])
    = (Exits 1, start [], [EGrLock false; EStderr MsgCannotLockGroup])
  /\ trace_of (open_files shadow_build (world 0 "root" false true) (start []))
     = [EGrLock true; ESgrLock false; EStderr MsgCannotLockShadow;
        EGrUnlock true].
Proof.
  split.
  - exact (proj1 (@open_files_lock_protocol shadow_build
                    (world 0 "root" true false) (start [])
                    (start_lock_free [])) eq_refl).
  - exact (proj1 (proj2 (proj1 (proj2
             (@open_files_lock_protocol shadow_build
                (world 0 "root" false true) (start [])
                (start_lock_free []))) eq_refl eq_refl eq_refl))).
Defined.

(** C3, as stated, fails: root adding carol to eng.  The record is
    looked up in both files, and the member added, before the first
    lock is taken; no lookup happens under a lock. *)
Lemma lookup_precedes_lock_counterexample :
  trace_of (main shadow_build as_root
              (mkCmdline [Flag_a "carol"] ["eng"]%string) (start []))
  = [EGetpwnam "carol" true; EGetMyPwent true;
     EGrOpen O_RDONLY true; EGrLocate "eng" true; EGrClose true;
     ESgrOpen O_RDONLY true; ESgrLocate "eng" true; ESgrClose true;
     EStdout (MsgAdding "carol" "eng");
     ESetuid true; EGrLock true; ESgrLock true;
     EGrOpen O_RDWR true; ESgrOpen O_RDWR true;
     EGrUpdate (mkGroup "eng" "secret" 100 ["alice"; "bob"; "carol"]%string)
               true;
     ESgrUpdate (mkSgrp "eng" "!" ["alice"]%string
                        ["alice"; "bob"; "carol"]%string) true;
     EGrClose true; ESgrClose true; ESgrUnlock true; EGrUnlock true;
     ENscdFlush]
  /\ locates_under_lock false
       (trace_of (main shadow_build as_root
                    (mkCmdline [Flag_a "carol"] ["eng"]%string) (start [])))
     = false
  /\ ~ (forall bld env cmd s, lock_free s ->
          locates_under_lock false (trace_of (main bld env cmd s)) = true).
Proof.
  split; [reflexivity |]. split; [reflexivity |].
  intros H.
  specialize (H shadow_build as_root
                (mkCmdline [Flag_a "carol"] ["eng"]%string) (start [])
                (start_lock_free [])).
  discriminate H.
Qed.

(** C4, on a run: alice, administrator and member of eng, may not set
    its administrators. *)
Lemma list_options_require_root_witness :
  In "alice"%string (sg_adm eng_shadow) /\
  In "alice"%string (gr_mem eng) /\
  outcome_of (main shadow_build as_alice
                (mkCmdline [Flag_A "bob"] ["eng"]%string) (start []))
    = Exits 1 /\
  trace_of (main shadow_build as_alice
              (mkCmdline [Flag_A "bob"] ["eng"]%string) (start []))
    = [EStderr MsgPermissionDenied].
Proof.
  split; [now left |]. split; [now left |].
  exact (proj2 (proj2 (proj2 (proj2 (proj2
    (list_options_require_root shadow_build as_alice
       (mkCmdline [Flag_A "bob"] ["eng"]%string) (start [])
       [] [] (Flag_A "bob")
       eq_refl (start_lock_free []) eq_refl eq_refl))))) eq_refl).
Defined.

(** C5, on a run: three pairs of answers that differ, for eng; and the
    buffers after the first of them. *)
Lemma change_passwd_retries_witness :
  let s := set_tty_input [Some "one"; Some "two"; Some "three"; Some "four";
                          Some "five"; Some "six"]%string (loaded "") in
  let r := change_passwd shadow_build as_root s in
  let turn := change_passwd_attempt shadow_build 0 s in
  outcome_of r = Exits 1 /\
  In (EStderr MsgTryAgainLater) (trace_of r) /\
  attempts (trace_of r) = 3%nat /\
  gr_passwd (grent (state_of r)) = "secret"%string /\
  sg_passwd (sgent (state_of r)) = "!"%string /\
  group_file (stores (state_of r)) = [eng; ops] /\
  gshadow_file (stores (state_of r)) = [eng_shadow] /\
  pass (state_of r) = repeat NUL 64 /\
  getpass_buf (state_of r) = [NUL; NUL; NUL] /\
  pass (state_of turn) = repeat NUL 64 /\
  getpass_buf (state_of turn) = [NUL; NUL; NUL].
Proof.
  intros s r turn.
  pose proof (change_passwd_retries shadow_build as_root s) as H.
  destruct H as (_ & H2 & H3).
  destruct (H3 "one" "two" "three" "four" "five" "six"%string [] eq_refl
              eq_refl eq_refl eq_refl)
    as (R1 & R2 & R3 & R4 & R5 & R6 & R7 & R8 & R9).
  destruct (H2 2%nat 0%nat s (state_of turn) (trace_of turn) eq_refl)
    as (_ & _ & T1 & (a & b & rest & Hin & T2) & _).
  simpl in Hin. injection Hin as _ Hb _. subst b.
  repeat (split; [assumption |]).
  exact T2.
Defined.

(** C6, on a run: ops is in the group file only. *)
Lemma get_group_synthesizes_shadow_witness :
  let s := set_opts (fun _ => mkOptions false false false false true false
                                (Some "ops"%string) "" "" "") (start []) in
  sgent (state_of (get_group legacy_build as_root s))
    = mkSgrp "ops" "x" ["bob"]%string ["bob"; "ghost"]%string /\
  sgent (state_of (get_group shadow_build as_root s))
    = mkSgrp "ops" "x" [] ["bob"; "ghost"]%string /\
  grent (state_of (get_group shadow_build as_root s))
    = mkGroup "ops" SHADOW_PASSWD_STRING 101 ["bob"; "ghost"]%string.
Proof.
  intros s. split; [| split].
  - exact (proj1 (proj2
      (get_group_synthesizes_shadow legacy_build as_root s "ops" ops
         eq_refl eq_refl eq_refl eq_refl eq_refl eq_refl eq_refl eq_refl))).
  - exact (proj1 (proj2
      (get_group_synthesizes_shadow shadow_build as_root s "ops" ops
         eq_refl eq_refl eq_refl eq_refl eq_refl eq_refl eq_refl eq_refl))).
  - exact (proj1 (proj2 (proj2
      (get_group_synthesizes_shadow shadow_build as_root s "ops" ops
         eq_refl eq_refl eq_refl eq_refl eq_refl eq_refl eq_refl eq_refl)))).
Defined.

(** C7, as stated, fails: root asks for a group that is not there.  The
    run ends exactly as the run of bob, who is denied on eng, ends: the
    permission-denied message, then status 1. *)
Lemma missing_group_counterexample :
  main shadow_build as_root (mkCmdline [Flag_r] ["nogroup"]%string) (start [])
  = (Exits 1,
     set_stores (with_gr_db (Some (O_RDONLY, [eng; ops])))
       (set_myname "root"
          (set_opts (fun _ => mkOptions false false false false true false
                                (Some "nogroup"%string) "" "" "")
             (start []))),
     [EGetMyPwent true; EGrOpen O_RDONLY true; EGrLocate "nogroup" false;
      EStderr (MsgGroupNotExist "nogroup"); EStderr MsgPermissionDenied])
  /\ outcome_of (main shadow_build as_bob
                   (mkCmdline [Flag_r] ["eng"]%string) (start []))
     = Exits 1
  /\ last (trace_of (main shadow_build as_bob
                       (mkCmdline [Flag_r] ["eng"]%string) (start [])))
          ENscdFlush
     = EStderr MsgPermissionDenied
  /\ last (trace_of (main shadow_build as_root
                       (mkCmdline [Flag_r] ["nogroup"]%string) (start [])))
          ENscdFlush
     = EStderr MsgPermissionDenied.
Proof. repeat split. Qed.

(** C7 on a run: root asks for a group that is not there, and bob is
    denied on eng. *)
Lemma get_group_missing_group_witness :
  let s := set_opts (fun _ => mkOptions false false false false true false
                                (Some "nogroup"%string) "" "" "") (start []) in
  get_group shadow_build as_root s
  = (Exits 1, set_stores (with_gr_db (Some (O_RDONLY, [eng; ops]))) s,
     [EGrOpen O_RDONLY true; EGrLocate "nogroup" false;
      EStderr (MsgGroupNotExist "nogroup"); EStderr MsgPermissionDenied]) /\
  check_perms shadow_build as_bob (set_myname "bob" (loaded ""))
  = (Exits 1, set_myname "bob" (loaded ""), [EStderr MsgPermissionDenied]).
Proof.
  intros s.
  pose proof (get_group_missing_group shadow_build as_root s "nogroup"
                (start_lock_free []) eq_refl eq_refl eq_refl) as H.
  cbv zeta in H. destruct H as (_ & _ & _ & _ & _ & _ & H7 & _ & _).
  pose proof (get_group_missing_group shadow_build as_bob s "nogroup"
                (start_lock_free []) eq_refl eq_refl eq_refl) as K.
  cbv zeta in K. destruct K as (_ & _ & _ & _ & _ & _ & _ & _ & K9).
  split; [exact H7 |].
  apply K9; [exact (loaded_lock_free "") | reflexivity].
Defined.

(** C8, on a run: bob leaves eng, zed was never in it. *)
Lemma delete_member_removes_witness :
  gr_mem (grent (state_of (delete_member shadow_build as_root (loaded "bob"))))
    = ["alice"]%string /\
  sg_mem (sgent (state_of (delete_member shadow_build as_root (loaded "bob"))))
    = ["alice"]%string /\
  outcome_of (delete_member shadow_build as_root (loaded "zed")) = Exits 1 /\
  grent (state_of (delete_member shadow_build as_root (loaded "zed"))) = eng /\
  sgent (state_of (delete_member shadow_build as_root (loaded "zed")))
    = eng_shadow.
Proof.
  pose proof (proj2 (delete_member_removes shadow_build as_root (loaded "bob"))
                (or_introl (or_intror (or_introl eq_refl)))) as Hb.
  pose proof (proj1 (delete_member_removes shadow_build as_root (loaded "zed"))
                (fun H : In "zed"%string ["alice"; "bob"]%string =>
                   match H with
                   | or_introl E => ltac:(discriminate E)
                   | or_intror (or_introl E) => ltac:(discriminate E)
                   | or_intror (or_intror F) => F
                   end)
                (fun _ (H : In "zed"%string ["alice"; "bob"]%string) =>
                   match H with
                   | or_introl E => ltac:(discriminate E)
                   | or_intror (or_introl E) => ltac:(discriminate E)
                   | or_intror (or_intror F) => F
                   end)) as Hz.
  split; [exact (proj1 (proj2 Hb)) |].
  split; [exact (proj1 (proj1 (proj2 (proj2 (proj2 Hb))) eq_refl)) |].
  split; [exact (proj1 Hz) |].
  split; [exact (proj1 (proj2 (proj2 Hz))) | exact (proj2 (proj2 (proj2 Hz)))].
Defined.

(** C9, on a run: a token of 40 characters is looked up by its first 31
    and accepted when those name a user. *)
Lemma is_valid_user_list_truncates_witness :
  let r := is_valid_user_list long_names
             "alice,abcdefghijklmnopqrstuvwxyz0123456789ABCD" (start []) in
  outcome_of r = Returns true /\
  trace_of r = [EGetpwnam "alice" true;
                EGetpwnam "abcdefghijklmnopqrstuvwxyz01234" true] /\
  split_commas "alice,abcdefghijklmnopqrstuvwxyz0123456789ABCD"
    = ["alice"; "abcdefghijklmnopqrstuvwxyz0123456789ABCD"]%string.
Proof.
  intros r.
  assert (Hwf : well_formed_tokens
                  ["alice"; "abcdefghijklmnopqrstuvwxyz0123456789ABCD"]%string)
    by (split; [repeat constructor | discriminate]).
  pose proof (is_valid_user_list_truncates long_names
                "alice,abcdefghijklmnopqrstuvwxyz0123456789ABCD"
                (start [])) as H.
  cbv zeta in H. destruct H as (H1 & H2 & _ & _ & _ & H6).
  split; [exact H1 | split; [exact H2 | exact (H6 _ Hwf eq_refl)]].
Defined.

(** C10, on a run: ghost is no user, which stops [-a] and not [-d]. *)
Lemma delete_needs_no_identity_witness :
  pw_lookup as_root "ghost" = false /\
  outcome_of (main shadow_build as_root
                (mkCmdline [Flag_a "ghost"] ["ops"]%string) (start []))
    = Exits 1 /\
  outcome_of (main shadow_build as_root
                (mkCmdline [Flag_d "ghost"] ["ops"]%string) (start []))
    = Exits E_SUCCESS /\
  Forall (fun e => is_getpwnam_event e = false)
         (trace_of (main shadow_build as_root
                      (mkCmdline [Flag_d "ghost"] ["ops"]%string) (start []))).
Proof.
  pose proof (delete_needs_no_identity shadow_build as_root (start [])
                "ghost" ["ops"]%string) as H.
  split; [reflexivity |].
  split; [exact (proj1 (proj2 (proj2 (proj2 (proj2 H)))
                          (start_lock_free []) eq_refl)) |].
  split; [reflexivity | exact (proj1 (proj2 H))].
Defined.

(** ** Mutually exclusive operations *)

Lemma ensures_bind (R : state -> Prop) {A B} (m : M A) (f : A -> M B) :
  (forall a, ensures R (f a)) -> ensures R (bind m f).
Proof.
  intros Hf s. unfold bind. destruct (m s) as [[[a | n] s1] t1]; [| exact I].
  specialize (Hf a s1). destruct (f a s1) as [[[b | n] s2] t2]; exact Hf.
Qed.

Lemma ensures_after (R : state -> Prop) {A B} (m : M A) (f : A -> M B) :
  ensures R m -> (forall a, keeps R (fun _ => True) (f a)) ->
  ensures R (bind m f).
Proof.
  intros Hm Hf s. unfold bind. specialize (Hm s).
  destruct (m s) as [[[a | n] s1] t1]; [| exact I].
  destruct (Hf a s1 Hm) as [H _].
  destruct (f a s1) as [[[b | n] s2] t2]; [exact H | exact I].
Qed.

Lemma ensures_modify (R : state -> Prop) f :
  (forall s, R (f s)) -> ensures R (modify f).
Proof. intros H s. apply H. Qed.

Lemma ensures_exits (R : state -> Prop) {A} (m : M A) :
  (forall s, exists n, outcome_of (m s) = Exits n) -> ensures R m.
Proof.
  intros H s. destruct (H s) as [n Hn]. destruct (m s) as [[o s1] t1].
  cbn in Hn. now subst o.
Qed.

(** As [keeps_step], for any condition on the events that [trivial]
    settles. *)
Ltac keeps_go side :=
  match goal with
  | |- keeps _ _ (bind _ _) => apply keeps_bind; [| intros ?]
  | |- keeps _ _ (ret _) => apply keeps_ret
  | |- keeps _ _ (exit _) => apply keeps_exit
  | |- keeps _ _ (gets _) => apply keeps_gets
  | |- keeps _ _ (emit _) => apply keeps_emit; first [exact I | reflexivity]
  | |- keeps _ _ (modify _) => apply keeps_modify; side
  | |- keeps _ _ (when _ _) => apply keeps_when
  | |- keeps _ _ (fail_exit _ _) => unfold fail_exit
  | |- keeps _ _ (is_valid_user_list _ _) =>
      apply keeps_user_list; intros; first [exact I | reflexivity]
  | |- keeps _ _ (if ?b then _ else _) => destruct b
  | |- keeps _ _ (match ?x with _ => _ end) => destruct x
  | |- keeps _ _ (let _ := _ in _) => cbv zeta
  | |- keeps _ _ _ => progress autounfold with gp_unfold
  end.

Ltac flag_side :=
  try (intros [[? ? ? ? ? ? ? ? ? ?] ? ? ? ? ? ? [? ? ? ? ? ?] ? ?];
       cbn; intros; repeat rewrite orb_true_r; auto).

(** A flag that is set stays set. *)
Lemma process_flag_keeps_group bld env i f :
  keeps (fun s => group_set i (opts s) = true) (fun _ => True)
        (process_flag bld env f).
Proof.
  destruct i as [| [| [| [| i]]]]; destruct f; unfold process_flag;
    repeat keeps_go flag_side.
Qed.

Lemma process_flags_loop_keeps_group bld env i fl :
  keeps (fun s => group_set i (opts s) = true) (fun _ => True)
        (process_flags_loop bld env fl).
Proof.
  induction fl as [| f fl IH]; cbn [process_flags_loop].
  - apply keeps_ret.
  - apply keeps_bind; [apply process_flag_keeps_group | intros _; exact IH].
Qed.

(** An option that is accepted sets the flag of its group. *)
Lemma process_flag_sets_group bld env f i :
  flag_group f = Some i ->
  ensures (fun s => group_set i (opts s) = true) (process_flag bld env f).
Proof.
  intros Hg. destruct f; cbn in Hg; inversion Hg; subst i; unfold process_flag;
    try destruct (SHADOWGRP bld);
    try (apply ensures_exits; intros s; exists (E_USAGE bld); reflexivity);
    repeat (apply ensures_bind; intros ?);
    apply ensures_modify; flag_side.
Qed.

Lemma process_flags_loop_sets_group bld env fl f i :
  In f fl -> flag_group f = Some i ->
  ensures (fun s => group_set i (opts s) = true) (process_flags_loop bld env fl).
Proof.
  intros Hin Hg. induction fl as [| f' fl IH]; [contradiction |].
  cbn [process_flags_loop]. destruct Hin as [-> | Hin].
  - apply ensures_after; [now apply process_flag_sets_group |].
    intros _. apply process_flags_loop_keeps_group.
  - apply ensures_bind. intros _. now apply IH.
Qed.

Lemma two_groups_exceed o i j :
  (i < 5)%nat -> (j < 5)%nat -> i <> j ->
  group_set i o = true -> group_set j o = true ->
  (1 <? b2n (aflg o) + b2n (dflg o) + b2n (rflg o) + b2n (Rflg o)
        + b2n (Aflg o || Mflg o))%nat = true.
Proof.
  intros Hi Hj Hne H1 H2. apply Nat.ltb_lt.
  destruct i as [| [| [| [| [| i]]]]]; try lia;
    destruct j as [| [| [| [| [| j]]]]]; try lia; try congruence;
    cbn in H1, H2; rewrite H1, H2; cbn;
    destruct (aflg o), (dflg o), (rflg o), (Rflg o), (Aflg o || Mflg o);
    cbn; lia.
Qed.

Lemma flag_group_bound f i : flag_group f = Some i -> (i < 5)%nat.
Proof. destruct f; cbn; intros H; inversion H; lia. Qed.

Lemma check_flags_two_groups bld n s i j :
  (i < 5)%nat -> (j < 5)%nat -> i <> j ->
  group_set i (opts s) = true -> group_set j (opts s) = true ->
  check_flags bld n s = (Exits (E_USAGE bld), s, [EStderr MsgUsage]).
Proof.
  intros Hi Hj Hne H1 H2. unfold check_flags.
  erewrite bind_returns by reflexivity. cbv zeta beta.
  cbn [outcome_of state_of trace_of fst snd].
  rewrite (two_groups_exceed (opts s) i j Hi Hj Hne H1 H2). reflexivity.
Qed.

Lemma main_exits_in_process_flags bld env cmd s n s1 t1 :
  process_flags bld env cmd s = (Exits n, s1, t1) ->
  main bld env cmd s = (Exits n, s1, t1).
Proof.
  intros H. unfold main, prepare.
  repeat (erewrite bind_exits; [reflexivity |]). exact H.
Qed.

Lemma group_set_operand i o g :
  group_set i (mkOptions (aflg o) (Aflg o) (dflg o) (Mflg o) (rflg o) (Rflg o)
                         g (user o) (members o) (admins o))
  = group_set i o.
Proof. destruct i as [| [| [| [| i]]]]; reflexivity. Qed.

(** X1.  A command line that asks for two different operations among
    [-a], [-d], [-r], [-R] and the pair [-A]/[-M] never gets to the
    stores: [main] exits without any adapter call and with the stores as
    they were, and when every option was accepted on its own the exit is
    the one of [usage], status [E_USAGE] right after the usage
    message. *)
Theorem exclusive_operations_rejected (bld : build) (env : environment)
    (cmd : cmdline) (s : state) (f1 f2 : getopt_flag) (i j : nat) :
  lock_free s ->
  In f1 (flags cmd) -> In f2 (flags cmd) ->
  flag_group f1 = Some i -> flag_group f2 = Some j -> i <> j ->
  let r := main bld env cmd s in
  (exists n, outcome_of r = Exits n) /\
  Forall (fun e => is_store_event e = false) (trace_of r) /\
  stores (state_of r) = stores s /\
  (outcome_of (process_flags_loop bld env (flags cmd) s) = Returns tt ->
     outcome_of r = Exits (E_USAGE bld) /\
     trace_of r = trace_of (process_flags_loop bld env (flags cmd) s)
                  ++ [EStderr MsgUsage]).
Proof.
  intros Hfree In1 In2 G1 G2 Hne r.
  assert (Hun : untouched s s) by (unfold untouched; auto).
  pose proof (process_flags_loop_sets_group bld env _ _ _ In1 G1 s) as S1.
  pose proof (process_flags_loop_sets_group bld env _ _ _ In2 G2 s) as S2.
  destruct (process_flags_loop_untouched bld env s (flags cmd) s Hun)
    as [Hst Htr].
  destruct (process_flags_loop bld env (flags cmd) s) as [[[[] | n] s1] t1]
    eqn:EL; cbn in Hst, Htr.
  - assert (Hpf : process_flags bld env cmd s
                  = (Exits (E_USAGE bld),
                     set_opts (fun o => mkOptions (aflg o) (Aflg o) (dflg o)
                        (Mflg o) (rflg o) (Rflg o) (hd_error (operands cmd))
                        (user o) (members o) (admins o)) s1,
                     t1 ++ [EStderr MsgUsage])).
    { unfold process_flags. erewrite bind_returns by exact EL.
      erewrite bind_returns by reflexivity.
      cbn [outcome_of state_of trace_of fst snd app].
      erewrite (check_flags_two_groups bld _ _ i j
                  (flag_group_bound _ _ G1) (flag_group_bound _ _ G2) Hne).
      - reflexivity.
      - destruct s1. cbn in S1 |- *. now rewrite group_set_operand.
      - destruct s1. cbn in S2 |- *. now rewrite group_set_operand. }
    subst r. rewrite (main_exits_in_process_flags _ _ _ _ _ _ _ Hpf).
    cbn [outcome_of state_of trace_of fst snd].
    destruct Hst as (_ & Hs1 & _).
    split; [now eexists |]. split.
    + apply Forall_app. split; [exact Htr | repeat constructor].
    + split; [destruct s1; exact Hs1 |]. intros _. split; reflexivity.
  - assert (Hpf : process_flags bld env cmd s = (Exits n, s1, t1)).
    { unfold process_flags. erewrite bind_exits; [reflexivity | exact EL]. }
    subst r. rewrite (main_exits_in_process_flags _ _ _ _ _ _ _ Hpf).
    cbn [outcome_of state_of trace_of fst snd].
    destruct Hst as (_ & Hs1 & _).
    split; [now eexists |]. split; [exact Htr |]. split; [exact Hs1 |].
    intros H. discriminate H.
Qed.

(** ** The group operand *)

Lemma check_flags_operands bld n s :
  n <> 1%nat ->
  check_flags bld n s = (Exits (E_USAGE bld), s, [EStderr MsgUsage]).
Proof.
  intros Hn. unfold check_flags.
  erewrite bind_returns by reflexivity. cbv zeta beta.
  cbn [outcome_of state_of trace_of fst snd].
  destruct (1 <? _)%nat; [reflexivity |].
  erewrite bind_returns by reflexivity.
  apply Nat.eqb_neq in Hn. rewrite Hn. reflexivity.
Qed.

(** X2.  [gpasswd] wants exactly one group on its command line.  With
    none, or with more than one, a command line whose options were all
    accepted ends in the exit of [usage], status [E_USAGE] right after
    the usage message, with no adapter call made and the stores as they
    were. *)
Theorem one_group_operand_required (bld : build) (env : environment)
    (cmd : cmdline) (s : state) :
  lock_free s ->
  List.length (operands cmd) <> 1%nat ->
  outcome_of (process_flags_loop bld env (flags cmd) s) = Returns tt ->
  let r := main bld env cmd s in
  outcome_of r = Exits (E_USAGE bld) /\
  trace_of r = trace_of (process_flags_loop bld env (flags cmd) s)
               ++ [EStderr MsgUsage] /\
  Forall (fun e => is_store_event e = false) (trace_of r) /\
  stores (state_of r) = stores s.
Proof.
  intros Hfree Hn Hret r.
  assert (Hun : untouched s s) by (unfold untouched; auto).
  destruct (process_flags_loop_untouched bld env s (flags cmd) s Hun)
    as [Hst Htr].
  destruct (process_flags_loop bld env (flags cmd) s) as [[[[] | n] s1] t1]
    eqn:EL; cbn in Hst, Htr, Hret; [| discriminate Hret].
  assert (Hpf : process_flags bld env cmd s
                = (Exits (E_USAGE bld),
                   set_opts (fun o => mkOptions (aflg o) (Aflg o) (dflg o)
                      (Mflg o) (rflg o) (Rflg o) (hd_error (operands cmd))
                      (user o) (members o) (admins o)) s1,
                   t1 ++ [EStderr MsgUsage])).
  { unfold process_flags. erewrite bind_returns by exact EL.
    erewrite bind_returns by reflexivity.
    cbn [outcome_of state_of trace_of fst snd app].
    rewrite (check_flags_operands bld _ _ Hn). reflexivity. }
  subst r. rewrite (main_exits_in_process_flags _ _ _ _ _ _ _ Hpf).
  cbn [outcome_of state_of trace_of fst snd].
  destruct Hst as (_ & Hs1 & _).
  split; [reflexivity |]. split; [reflexivity |]. split.
  - apply Forall_app. split; [exact Htr | repeat constructor].
  - destruct s1; exact Hs1.
Qed.

(** ** Options that stop the run *)

Lemma main_exits_at_flag bld env cmd s pre f post s1 t1 n s2 t2 :
  flags cmd = pre ++ f :: post ->
  process_flags_loop bld env pre s = (Returns tt, s1, t1) ->
  process_flag bld env f s1 = (Exits n, s2, t2) ->
  main bld env cmd s = (Exits n, s2, t1 ++ t2).
Proof.
  intros Hfl Hpre Hf. apply main_exits_in_flags.
  rewrite Hfl, process_flags_loop_app.
  erewrite bind_returns by exact Hpre.
  cbn [process_flags_loop]. erewrite bind_exits by exact Hf. reflexivity.
Qed.

Lemma set_opts_lock_free f s : lock_free s -> lock_free (set_opts f s).
Proof. destruct s. exact (fun H => H). Qed.

(** What [-A] and [-M] do with a list that does not validate, for root
    on a host where the option applies. *)
Lemma process_flag_invalid_list bld env f users s :
  amroot env = true ->
  (f = Flag_M users \/ (f = Flag_A users /\ is_shadowgrp bld env = true)) ->
  lock_free s ->
  forallb (fun t => pw_lookup env (truncated 31 t)) (split_commas users)
    = false ->
  exists s2,
    process_flag bld env f s
    = (Exits 1, s2, flat_map (lookup_events (passwd env)) (split_commas users))
    /\ stores s2 = stores s /\ Aflg (opts s2) = Aflg (opts s)
    /\ Mflg (opts s2) = Mflg (opts s).
Proof.
  intros Hroot Hf Hfree Hbad.
  assert (Hv : forall st, is_valid_user_list env users st
               = (Returns false, st,
                  flat_map (lookup_events (passwd env)) (split_commas users))).
  { intros st. unfold is_valid_user_list.
    rewrite (user_list_loop_split env users true). cbn [fst snd andb].
    now rewrite Hbad. }
  destruct Hf as [-> | [-> Hsh]]; unfold process_flag.
  - rewrite Hroot. cbn [negb when].
    erewrite bind_returns by reflexivity.
    erewrite bind_returns by reflexivity.
    erewrite bind_returns by apply Hv.
    cbn [outcome_of state_of trace_of fst snd app negb when].
    erewrite bind_exits
      by (apply fail_exit_lock_free; apply set_opts_lock_free; exact Hfree).
    eexists. split; [rewrite app_nil_r; reflexivity |].
    destruct s as [[]]. repeat split.
  - assert (Hb : SHADOWGRP bld = true).
    { unfold is_shadowgrp in Hsh. now apply andb_prop in Hsh. }
    rewrite Hb, Hroot, Hsh. cbn [negb when].
    erewrite bind_returns by reflexivity.
    erewrite bind_returns by reflexivity.
    erewrite bind_returns by reflexivity.
    erewrite bind_returns by apply Hv.
    cbn [outcome_of state_of trace_of fst snd app negb when].
    erewrite bind_exits
      by (apply fail_exit_lock_free; apply set_opts_lock_free; exact Hfree).
    eexists. split; [rewrite app_nil_r; reflexivity |].
    destruct s as [[]]. repeat split.
Qed.

(** X3.  When root passes [-M], or [-A] on a host with a shadow group
    file, with a list in which some name (cut to 31 characters) is not a
    user, [main] exits with status 1 as soon as the list has been
    scanned: every such name has been reported, not only the first, the
    events of the option are the lookups and does-not-exist messages of
    the scan and nothing else, and no call into the stores was made. *)
Theorem invalid_list_stops_root (bld : build) (env : environment)
    (cmd : cmdline) (s : state) (pre post : list getopt_flag)
    (f : getopt_flag) (users : string) :
  amroot env = true ->
  (f = Flag_M users \/ (f = Flag_A users /\ is_shadowgrp bld env = true)) ->
  lock_free s ->
  flags cmd = pre ++ f :: post ->
  outcome_of (process_flags_loop bld env pre s) = Returns tt ->
  forallb (fun t => pw_lookup env (truncated 31 t)) (split_commas users)
    = false ->
  let r := main bld env cmd s in
  outcome_of r = Exits 1 /\
  trace_of r = trace_of (process_flags_loop bld env pre s)
               ++ flat_map (lookup_events (passwd env)) (split_commas users) /\
  (forall t, In t (split_commas users) ->
     pw_lookup env (truncated 31 t) = false ->
     In (EStderr (MsgUserNotExist (truncated 31 t))) (trace_of r)) /\
  Forall (fun e => is_store_event e = false) (trace_of r) /\
  stores (state_of r) = stores s.
Proof.
  intros Hroot Hf Hfree Hfl Hpre Hbad r.
  assert (Hun : untouched s s) by (unfold untouched; auto).
  destruct (process_flags_loop_untouched bld env s pre s Hun) as [Hst Htr].
  destruct (process_flags_loop bld env pre s) as [[o1 s1] t1] eqn:Epre.
  cbn in Hpre, Hst, Htr. subst o1. destruct Hst as (Hfree1 & Hst1 & _).
  destruct (process_flag_invalid_list bld env f users s1 Hroot Hf Hfree1 Hbad)
    as (s2 & Hrun & Hst2 & _).
  subst r. rewrite (main_exits_at_flag _ _ _ _ _ _ _ _ _ _ _ _ Hfl Epre Hrun).
  cbn [outcome_of state_of trace_of fst snd].
  split; [reflexivity |]. split; [reflexivity |]. split; [| split].
  - intros t Ht Hno. apply in_or_app. right. apply in_flat_map.
    exists t. split; [exact Ht |]. unfold lookup_events.
    unfold pw_lookup in Hno. rewrite Hno. right. now left.
  - apply Forall_app. split; [exact Htr |].
    apply Forall_forall. intros e He. apply in_flat_map in He.
    destruct He as (t & _ & He). unfold lookup_events in He.
    destruct He as [<- | He]; [reflexivity |].
    destruct (existsb _ _); [contradiction |].
    destruct He as [<- | []]. reflexivity.
  - congruence.
Qed.

Lemma process_flag_A_without_shadow_file bld env users s :
  amroot env = true -> SHADOWGRP bld = true -> sgr_file_present env = false ->
  lock_free s ->
  process_flag bld env (Flag_A users) s
  = (Exits 2, s, [EStderr MsgShadowRequired]).
Proof.
  intros Hroot Hb Hp Hfree. unfold process_flag, is_shadowgrp.
  rewrite Hb, Hroot, Hp. cbn [negb when andb].
  erewrite bind_returns by reflexivity.
  erewrite bind_exits; [reflexivity |].
  unfold fprintf_stderr. erewrite bind_returns by reflexivity.
  rewrite (fail_exit_lock_free _ _ Hfree). reflexivity.
Qed.

(** X4.  On a host without a shadow group file, root's [-A] ends the
    run with status 2 and the message that shadow group passwords are
    required; the list is not even scanned (no lookup is made) and no
    call into the stores is made. *)
Theorem admins_need_shadow_file (bld : build) (env : environment)
    (cmd : cmdline) (s : state) (pre post : list getopt_flag)
    (users : string) :
  amroot env = true ->
  SHADOWGRP bld = true ->
  sgr_file_present env = false ->
  lock_free s ->
  flags cmd = pre ++ Flag_A users :: post ->
  outcome_of (process_flags_loop bld env pre s) = Returns tt ->
  let r := main bld env cmd s in
  outcome_of r = Exits 2 /\
  trace_of r = trace_of (process_flags_loop bld env pre s)
               ++ [EStderr MsgShadowRequired] /\
  stores (state_of r) = stores s.
Proof.
  intros Hroot Hb Hp Hfree Hfl Hpre r.
  assert (Hun : untouched s s) by (unfold untouched; auto).
  destruct (process_flags_loop_untouched bld env s pre s Hun) as [Hst _].
  destruct (process_flags_loop bld env pre s) as [[o1 s1] t1] eqn:Epre.
  cbn in Hpre, Hst. subst o1. destruct Hst as (Hfree1 & Hst1 & _).
  subst r.
  rewrite (main_exits_at_flag _ _ _ _ _ _ _ _ _ _ _ _ Hfl Epre
             (process_flag_A_without_shadow_file bld env users s1
                Hroot Hb Hp Hfree1)).
  repeat split. exact Hst1.
Qed.

(** ** Before the stores are opened *)

(** X5.  A caller without an entry in the user database is refused,
    root included: once the command line has been accepted, [main] asks
    who the caller is and, without an answer, exits with status 1 after
    the who-are-you and permission-denied messages, before any store is
    opened. *)
Theorem unknown_caller_refused (bld : build) (env : environment)
    (cmd : cmdline) (s s1 : state) (t1 : list event) :
  my_pwent env = None ->
  lock_free s ->
  process_flags bld env cmd s = (Returns tt, s1, t1) ->
  main bld env cmd s
  = (Exits 1, s1,
     t1 ++ [EGetMyPwent false; EStderr MsgWhoAreYou;
            EStderr MsgPermissionDenied]).
Proof.
  intros Hme Hfree Hpf.
  assert (Hfree1 : lock_free s1).
  { assert (K : keeps lock_free no_lock_event (process_flags bld env cmd)).
    { unfold process_flags.
      apply keeps_bind; [apply process_flags_loop_lock_free |].
      intros _. keeps_auto lock_free_side. }
    destruct (K s Hfree) as [H _]. now rewrite Hpf in H. }
  unfold main, prepare.
  erewrite bind_exits; [reflexivity |].
  erewrite bind_returns by exact Hpf.
  unfold get_my_pwent. rewrite Hme.
  erewrite bind_returns by reflexivity.
  cbn [outcome_of state_of trace_of fst snd].
  erewrite bind_exits; [reflexivity |].
  unfold fprintf_stderr. erewrite bind_returns by reflexivity.
  rewrite (failure_lock_free bld Hfree1). reflexivity.
Qed.

(** ** Loading the record pair, in general *)

Lemma group_eta (t : group_t) :
  mkGroup (gr_name t) (gr_passwd t) (gr_gid t) (gr_mem t) = t.
Proof. destruct t; reflexivity. Qed.

Lemma sgrp_eta (t : sgrp_t) :
  mkSgrp (sg_name t) (sg_passwd t) (sg_adm t) (sg_mem t) = t.
Proof. destruct t; reflexivity. Qed.

Lemma get_group_loads bld env s g t :
  stores_readable env ->
  group (opts s) = Some g ->
  find (fun x => String.eqb (gr_name x) g) (group_file (stores s)) = Some t ->
  get_group bld env s =
    (Returns tt,
     after_load bld env
       (loaded_pair bld env g t (gshadow_file (stores s)) (sgent s)) s,
     load_events bld env g (gshadow_file (stores s))).
Proof.
  intros (Hgo & Hgc & Hso & Hsc) Hg Hfind.
  destruct s as [[fa fA fd fM fr fR og ou om oa] gl sl nm p gr sg
                 [gf sf gdb sdb gh sh] i b].
  cbn in Hg, Hfind. subst og.
  unfold after_load, loaded_pair, load_events, get_group.
  destruct (is_shadowgrp bld env) eqn:Esh.
  - unfold_load. cbn. rewrite Hgo. cbn. rewrite Hfind. cbn. rewrite Hgc. cbn.
    rewrite Hso. cbn.
    destruct (find (fun x => String.eqb (sg_name x) g) sf) as [sg1 |] eqn:Es;
      cbn; rewrite Hsc; cbn; unfold dup_list, synthesized_shadow;
      rewrite ?group_eta, ?sgrp_eta; reflexivity.
  - unfold_load. cbn. rewrite Hgo. cbn. rewrite Hfind. cbn. rewrite Hgc. cbn.
    unfold dup_list. rewrite group_eta. reflexivity.
Qed.

(** X6.  When the stores can be read and the group file lists the
    group, [get_group] returns with the handle of the group file closed
    and both files as they were.  With a shadow record for the group,
    [grent] and [sgent] are the two records as listed, the primary
    password included; where the shadow store is not in use, [grent] is
    the record listed, [sgent] is left as it was and the shadow side of
    the adapter is not called. *)
Theorem get_group_copies_records (bld : build) (env : environment)
    (s : state) (g : string) (t : group_t) :
  stores_readable env ->
  group (opts s) = Some g ->
  find (fun x => String.eqb (gr_name x) g) (group_file (stores s)) = Some t ->
  let r := get_group bld env s in
  outcome_of r = Returns tt /\
  (forall sg, is_shadowgrp bld env = true ->
     find (fun x => String.eqb (sg_name x) g) (gshadow_file (stores s))
       = Some sg ->
     grent (state_of r) = t /\ sgent (state_of r) = sg /\
     sgr_db (stores (state_of r)) = None) /\
  (is_shadowgrp bld env = false ->
     grent (state_of r) = t /\ sgent (state_of r) = sgent s /\
     Forall (fun e => is_sgr_event e = false) (trace_of r)) /\
  gr_db (stores (state_of r)) = None /\
  group_file (stores (state_of r)) = group_file (stores s) /\
  gshadow_file (stores (state_of r)) = gshadow_file (stores s).
Proof.
  intros Hread Hg Hfind r. subst r.
  rewrite (get_group_loads bld env s g t Hread Hg Hfind).
  cbn [outcome_of state_of trace_of fst snd].
  unfold after_load, loaded_pair, load_events.
  destruct s as [o gl sl nm p gr sg0 [gf sf gdb sdb gh sh] i b].
  cbn [stores gshadow_file group_file sgent grent set_stores set_sgent
       set_grent].
  split; [reflexivity |]. split; [| split].
  - intros sg Hsh Hs. rewrite Hsh, Hs. repeat split.
  - intros Hsh. rewrite Hsh. repeat split. repeat constructor.
  - destruct (is_shadowgrp bld env); repeat split.
Qed.

(** ** What the files go through before the commit *)

Ltac files_side :=
  try (intros [? ? ? ? ? ? ? [? ? ? ? ? ?] ? ?];
       unfold files_are, lock_free; cbn; intuition congruence).

Lemma files_are_unlocked gf sf s :
  files_are gf sf s -> group_locked s = false /\ gshadow_locked s = false.
Proof. intros ((H1 & H2 & _) & _). now split. Qed.

Lemma get_group_keeps_files bld env gf sf :
  keeps (files_are gf sf) (fun _ => True) (get_group bld env).
Proof.
  intros s ((H1 & H2 & H3 & H4) & Hg & Hs).
  destruct s as [[fa fA fd fM fr fR og ou om oa] gl sl nm p gr sg
                 [gf0 sf0 gdb sdb gh sh] i b].
  cbn in H1, H2, H3, H4, Hg, Hs. subst.
  split; [| apply Forall_forall; intros; exact I].
  destruct env as [uid present pwd me gbusy sbusy gopen sopen gclose sclose
                   gupd supd tty suid crypt c2l].
  destruct bld as [shadowgrp fmia bufsiz eusage].
  unfold files_are, lock_free. unfold_load. unfold is_shadowgrp.
  destruct shadowgrp, present; run_cases; repeat split.
Qed.

Lemma process_flags_loop_keeps_files bld env gf sf fl :
  keeps (files_are gf sf) (fun _ => True) (process_flags_loop bld env fl).
Proof.
  induction fl as [| f fl IH]; cbn [process_flags_loop].
  - apply keeps_ret.
  - apply keeps_bind; [| intros _; exact IH].
    destruct f; unfold process_flag.
    all: repeat first
           [ apply keeps_fail_exit_free; apply files_are_unlocked
           | keeps_go files_side ].
Qed.

Lemma change_passwd_loop_keeps_files bld gf sf k r :
  keeps (files_are gf sf) (fun _ => True) (change_passwd_loop bld k r).
Proof.
  revert r. induction k as [| k IH]; intros r; cbn [change_passwd_loop].
  - apply keeps_ret.
  - apply keeps_bind.
    + unfold change_passwd_attempt.
      repeat first
        [ apply keeps_fail_exit_free; apply files_are_unlocked
        | keeps_go files_side ].
    + intros [|]; [apply keeps_ret | apply IH].
Qed.

Lemma prepare_keeps_files bld env cmd gf sf :
  keeps (files_are gf sf) (fun _ => True) (prepare bld env cmd).
Proof.
  unfold prepare, process_flags.
  repeat match goal with
         | |- keeps _ _ (bind _ _) => apply keeps_bind; [| intros ?]
         end;
    try apply process_flags_loop_keeps_files;
    try apply get_group_keeps_files.
  all: try (unfold operation, prompt_for_password, change_passwd).
  all: repeat first
         [ apply change_passwd_loop_keeps_files
         | apply keeps_fail_exit_free; apply files_are_unlocked
         | keeps_go files_side ].
Qed.

(** X7.  Up to the label [output] nothing is written: whatever the
    command line, the environment and the answers at the prompt, the
    part of [main] that parses, loads, authorizes and changes the record
    in memory leaves the group file and the shadow file as they were,
    and a run that ends in that part is a run of [main] that ends with
    both files untouched. *)
Theorem nothing_written_before_commit (bld : build) (env : environment)
    (cmd : cmdline) (s : state) :
  lock_free s ->
  let r := prepare bld env cmd s in
  group_file (stores (state_of r)) = group_file (stores s) /\
  gshadow_file (stores (state_of r)) = gshadow_file (stores s) /\
  (forall n, outcome_of r = Exits n ->
     outcome_of (main bld env cmd s) = Exits n /\
     trace_of (main bld env cmd s) = trace_of r /\
     group_file (stores (state_of (main bld env cmd s)))
       = group_file (stores s) /\
     gshadow_file (stores (state_of (main bld env cmd s)))
       = gshadow_file (stores s)).
Proof.
  intros Hfree r. subst r.
  assert (Hf : files_are (group_file (stores s)) (gshadow_file (stores s)) s)
    by (unfold files_are; auto).
  destruct (prepare_keeps_files bld env cmd _ _ s Hf) as [(_ & Hg & Hs) _].
  split; [exact Hg |]. split; [exact Hs |].
  intros n Hn. unfold main.
  destruct (prepare bld env cmd s) as [[o s1] t1] eqn:E.
  cbn in Hn, Hg, Hs. subst o.
  erewrite bind_exits by exact E. repeat split; assumption.
Qed.

(** ** Changing the password *)

Lemma cstr_no_nul buf : Forall (fun c => Ascii.eqb c NUL = false) (cstr buf).
Proof.
  induction buf as [| a buf IH]; cbn; [constructor |].
  destruct (Ascii.eqb a NUL) eqn:E; [constructor |].
  constructor; assumption.
Qed.

Lemma cstr_padded x k :
  Forall (fun c => Ascii.eqb c NUL = false) x ->
  (0 < k)%nat -> cstr (x ++ memzero k) = x.
Proof.
  intros Hx Hk. induction Hx as [| c x Hc Hx IH]; cbn.
  - destruct k; [lia | reflexivity].
  - rewrite Hc. now rewrite IH.
Qed.

Lemma cstr_STRFCPY size src :
  (0 < size)%nat ->
  cstr (STRFCPY size src) = firstn (size - 1) (cstr src).
Proof.
  intros Hs. unfold STRFCPY. apply cstr_padded.
  - apply Forall_forall. intros c Hc.
    pose proof (cstr_no_nul src) as H. rewrite Forall_forall in H.
    apply H. rewrite <- (firstn_skipn (size - 1) (cstr src)).
    apply in_or_app. now left.
  - pose proof (length_firstn (size - 1) (cstr src)). lia.
Qed.

(** What one turn of the loop does when both prompts are answered and
    the answers agree. *)
Lemma attempt_match_run bld retries s a b rest :
  tty_input s = Some a :: Some b :: rest ->
  agree (BUFSIZ bld) a b ->
  change_passwd_attempt bld retries s =
    (Returns Matched,
     set_getpass_buf (strzero (cstr (list_ascii_of_string b)))
       (set_pass (STRFCPY (BUFSIZ bld) (cstr (list_ascii_of_string a)))
          (set_tty_input rest s)),
     [EGetpass NewPassword true; EGetpass ReEnterNewPassword true]).
Proof.
  intros Hin Hag. unfold agree in Hag.
  destruct s as [o gl sl nm p g sg st i buf]. cbn in Hin. subst i.
  unfold change_passwd_attempt, getpass, puts, when, bind, gets, modify, emit,
    ret.
  cbn -[STRFCPY streq strzero memzero cstr list_ascii_of_string Nat.ltb].
  rewrite Hag. reflexivity.
Qed.

Lemma tty_input_after_match v w r s :
  tty_input (set_getpass_buf v (set_pass w (set_tty_input r s))) = r.
Proof. destruct s. reflexivity. Qed.

Lemma change_passwd_tail bld env s retries :
  (retries < RETRIES)%nat ->
  (when (retries =? RETRIES)%nat
        (fprintf_stderr MsgTryAgainLater;; fail_exit bld 1);;
   p <- gets pass;;
   modify (set_pass (memzero (BUFSIZ bld)));;
   (if is_shadowgrp bld env
    then modify (set_sgent (with_sg_passwd
           (pw_encrypt env (string_of_list_ascii (cstr p)))))
    else modify (set_grent (with_gr_passwd
           (pw_encrypt env (string_of_list_ascii (cstr p))))))) s
  = (Returns tt,
     (if is_shadowgrp bld env
      then set_sgent (with_sg_passwd
             (pw_encrypt env (string_of_list_ascii (cstr (pass s)))))
      else set_grent (with_gr_passwd
             (pw_encrypt env (string_of_list_ascii (cstr (pass s))))))
       (set_pass (memzero (BUFSIZ bld)) s),
     []).
Proof.
  intros Hr. assert (E : (retries =? RETRIES)%nat = false)
    by (apply Nat.eqb_neq; lia).
  rewrite E. cbn [when].
  destruct s as [o gl sl nm p g sg st i buf].
  destruct (is_shadowgrp bld env); reflexivity.
Qed.

Lemma change_passwd_matched bld env s retries s1 t :
  change_passwd_loop bld RETRIES 0 s = (Returns retries, s1, t) ->
  (retries < RETRIES)%nat ->
  change_passwd bld env s =
    (Returns tt,
     (if is_shadowgrp bld env
      then set_sgent (with_sg_passwd
             (pw_encrypt env (string_of_list_ascii (cstr (pass s1)))))
      else set_grent (with_gr_passwd
             (pw_encrypt env (string_of_list_ascii (cstr (pass s1))))))
       (set_pass (memzero (BUFSIZ bld)) s1),
     EStdout (MsgChangingPassword (the_group s)) :: t).
Proof.
  intros Hloop Hr. unfold change_passwd.
  erewrite bind_returns by reflexivity.
  erewrite bind_returns by reflexivity.
  erewrite bind_returns by exact Hloop.
  cbn [outcome_of state_of trace_of fst snd app].
  rewrite (change_passwd_tail bld env s1 retries Hr).
  cbn [outcome_of state_of trace_of fst snd]. now rewrite app_nil_r.
Qed.

(** X8.  When the two entries at the prompt agree, [change_passwd]
    returns with the hash of the entry (of what [pass] could hold of it)
    as the password of the shadow record where the shadow store is in
    use, leaving the primary record alone, and as the password of the
    primary record otherwise; both buffers that held the entries are
    zeroed: [pass] is left as [BUFSIZ] NUL bytes, and the buffer of
    [getpass] with a NUL for every byte typed at the second prompt.
    After a first pair that differs the loop asks again, says so once,
    and accepts a second pair that agrees in the same way. *)
Theorem change_passwd_accepts (bld : build) (env : environment) (s : state)
    (a b : string) (rest : list (option string)) :
  (0 < BUFSIZ bld)%nat ->
  (tty_input s = Some a :: Some b :: rest -> agree (BUFSIZ bld) a b ->
     password_accepted bld env s a b (change_passwd bld env s) /\
     trace_of (change_passwd bld env s)
       = [EStdout (MsgChangingPassword (the_group s));
          EGetpass NewPassword true; EGetpass ReEnterNewPassword true] /\
     tty_input (state_of (change_passwd bld env s)) = rest)
  /\
  (forall c d,
     tty_input s = Some a :: Some b :: Some c :: Some d :: rest ->
     mismatch (BUFSIZ bld) a b -> agree (BUFSIZ bld) c d ->
     password_accepted bld env s c d (change_passwd bld env s) /\
     trace_of (change_passwd bld env s)
       = [EStdout (MsgChangingPassword (the_group s));
          EGetpass NewPassword true; EGetpass ReEnterNewPassword true;
          EStdout MsgDontMatch;
          EGetpass NewPassword true; EGetpass ReEnterNewPassword true] /\
     tty_input (state_of (change_passwd bld env s)) = rest).
Proof.
  intros Hbuf. unfold password_accepted. split.
  - intros Hin Hag.
    assert (Hloop : change_passwd_loop bld RETRIES 0 s =
      (Returns 0%nat,
       set_getpass_buf (strzero (cstr (list_ascii_of_string b)))
         (set_pass (STRFCPY (BUFSIZ bld) (cstr (list_ascii_of_string a)))
            (set_tty_input rest s)),
       [EGetpass NewPassword true; EGetpass ReEnterNewPassword true])).
    { unfold RETRIES at 1. cbn [change_passwd_loop].
      erewrite bind_returns by (eapply attempt_match_run; eassumption).
      reflexivity. }
    rewrite (change_passwd_matched bld env s 0 _ _ Hloop)
      by (unfold RETRIES; lia).
    cbn [outcome_of state_of trace_of fst snd].
    destruct s as [o gl sl nm p g sg st i buf].
    cbn [set_getpass_buf set_pass set_tty_input pass].
    rewrite cstr_STRFCPY, cstr_idem by exact Hbuf.
    fold (kept_password (BUFSIZ bld) a).
    destruct (is_shadowgrp bld env); cbn;
      rewrite ?strzero_cstr, ?all_zero_memzero;
      repeat split; intros; try discriminate; reflexivity.
  - intros c d Hin Hmis Hag.
    assert (Hloop : change_passwd_loop bld RETRIES 0 s =
      (Returns 1%nat,
       set_getpass_buf (strzero (cstr (list_ascii_of_string d)))
         (set_pass (STRFCPY (BUFSIZ bld) (cstr (list_ascii_of_string c)))
            (set_tty_input rest
               (set_pass (memzero (BUFSIZ bld))
                  (set_getpass_buf (strzero (cstr (list_ascii_of_string b)))
                     (set_tty_input (Some c :: Some d :: rest) s))))),
       [EGetpass NewPassword true; EGetpass ReEnterNewPassword true;
        EStdout MsgDontMatch;
        EGetpass NewPassword true; EGetpass ReEnterNewPassword true])).
    { unfold RETRIES at 1. cbn [change_passwd_loop].
      erewrite bind_returns by (eapply attempt_mismatch_run; eassumption).
      cbv beta iota.
      erewrite bind_returns
        by (eapply attempt_match_run;
            [apply tty_input_after_attempt | exact Hag]).
      reflexivity. }
    rewrite (change_passwd_matched bld env s 1 _ _ Hloop)
      by (unfold RETRIES; lia).
    cbn [outcome_of state_of trace_of fst snd].
    destruct s as [o gl sl nm p g sg st i buf].
    cbn [set_getpass_buf set_pass set_tty_input pass].
    rewrite cstr_STRFCPY, cstr_idem by exact Hbuf.
    fold (kept_password (BUFSIZ bld) c).
    destruct (is_shadowgrp bld env); cbn;
      rewrite ?strzero_cstr, ?all_zero_memzero;
      repeat split; intros; try discriminate; reflexivity.
Qed.

(** ** Prompts that get no answer *)

Lemma attempt_first_abandoned bld retries s :
  lock_free s -> no_answer (tty_input s) ->
  exists s2,
    change_passwd_attempt bld retries s
    = (Exits 1, s2, [EGetpass NewPassword false]) /\
    grent s2 = grent s /\ sgent s2 = sgent s /\ stores s2 = stores s.
Proof.
  intros (H1 & H2 & _) Hno.
  destruct s as [o gl sl nm ps g sg st i buf]. cbn in H1, H2, Hno. subst gl sl.
  unfold change_passwd_attempt, getpass, fail_exit, when, bind, gets, modify,
    emit, exit, ret.
  destruct i as [| [a |] rest]; try contradiction;
    cbn -[STRFCPY streq strzero memzero cstr list_ascii_of_string Nat.ltb];
    rewrite andb_false_r; eexists; repeat split.
Qed.

Lemma attempt_second_abandoned bld retries s a rest :
  lock_free s -> tty_input s = Some a :: rest -> no_answer rest ->
  exists s2,
    change_passwd_attempt bld retries s
    = (Exits 1, s2,
       [EGetpass NewPassword true; EGetpass ReEnterNewPassword false]) /\
    grent s2 = grent s /\ sgent s2 = sgent s /\ stores s2 = stores s.
Proof.
  intros (H1 & H2 & _) Hin Hno.
  destruct s as [o gl sl nm ps g sg st i buf]. cbn in H1, H2, Hin. subst gl sl i.
  unfold change_passwd_attempt, getpass, fail_exit, when, bind, gets, modify,
    emit, exit, ret.
  destruct rest as [| [b |] rest]; try contradiction;
    cbn -[STRFCPY streq strzero memzero cstr list_ascii_of_string Nat.ltb];
    rewrite andb_false_r; eexists; repeat split.
Qed.

Lemma change_passwd_exits_in_first_turn bld env s n s2 t :
  change_passwd_attempt bld 0 s = (Exits n, s2, t) ->
  change_passwd bld env s
  = (Exits n, s2, EStdout (MsgChangingPassword (the_group s)) :: t).
Proof.
  intros H. unfold change_passwd.
  erewrite bind_returns by reflexivity.
  erewrite bind_returns by reflexivity.
  erewrite bind_exits.
  2: { unfold RETRIES. cbn [change_passwd_loop].
       erewrite bind_exits; [reflexivity | exact H]. }
  reflexivity.
Qed.

(** X9.  A prompt that gets no answer ends the run at once: whether it
    is the first or the second prompt, [change_passwd] exits with status
    1 right after it, without the try-again-later message, and the
    passwords, the other fields of the record pair and the stores are
    as they were. *)
Theorem change_passwd_abandoned (bld : build) (env : environment) (s : state) :
  lock_free s ->
  let r := change_passwd bld env s in
  (no_answer (tty_input s) ->
     outcome_of r = Exits 1 /\
     trace_of r = [EStdout (MsgChangingPassword (the_group s));
                   EGetpass NewPassword false] /\
     grent (state_of r) = grent s /\ sgent (state_of r) = sgent s /\
     stores (state_of r) = stores s)
  /\
  (forall a rest, tty_input s = Some a :: rest -> no_answer rest ->
     outcome_of r = Exits 1 /\
     trace_of r = [EStdout (MsgChangingPassword (the_group s));
                   EGetpass NewPassword true;
                   EGetpass ReEnterNewPassword false] /\
     grent (state_of r) = grent s /\ sgent (state_of r) = sgent s /\
     stores (state_of r) = stores s).
Proof.
  intros Hfree r. subst r. split.
  - intros Hno.
    destruct (attempt_first_abandoned bld 0 s Hfree Hno)
      as (s2 & Hrun & H1 & H2 & H3).
    rewrite (change_passwd_exits_in_first_turn bld env s _ _ _ Hrun).
    repeat split; assumption.
  - intros a rest Hin Hno.
    destruct (attempt_second_abandoned bld 0 s a rest Hfree Hin Hno)
      as (s2 & Hrun & H1 & H2 & H3).
    rewrite (change_passwd_exits_in_first_turn bld env s _ _ _ Hrun).
    repeat split; assumption.
Qed.

(** X10.  Changing the password needs a terminal at both ends.  With no
    operation flag set, [main] asks whether standard input is a tty and,
    only if it is, whether standard output is; when either is not, it
    prints the not-a-tty message and exits with status 1 without having
    prompted and with the state as it was. *)
Theorem password_change_needs_tty (bld : build) (env : environment)
    (s : state) :
  lock_free s ->
  no_operation (opts s) ->
  (isatty env 0 = false ->
     operation bld env s
     = (Exits 1, s, [EIsatty 0 false; EStderr MsgNotATty]))
  /\ (isatty env 0 = true -> isatty env 1 = false ->
      operation bld env s
      = (Exits 1, s, [EIsatty 0 true; EIsatty 1 false; EStderr MsgNotATty])).
Proof.
  intros Hfree (H1 & H2 & H3 & H4 & H5 & H6).
  assert (Hop : operation bld env s = prompt_for_password bld env s).
  { unfold operation. erewrite bind_returns by reflexivity.
    cbn [outcome_of state_of trace_of fst snd].
    rewrite H1, H2, H3, H4, H5, H6, andb_false_r. cbn [when andb negb].
    erewrite bind_returns by reflexivity. cbn [app].
    destruct (prompt_for_password bld env s) as [[o s1] t1]. reflexivity. }
  rewrite Hop. unfold prompt_for_password, c_isatty, fprintf_stderr. split.
  - intros T0. rewrite T0.
    erewrite bind_returns by reflexivity.
    erewrite bind_returns by reflexivity.
    cbn [outcome_of state_of trace_of fst snd negb orb when app].
    erewrite bind_exits; [reflexivity |].
    erewrite bind_returns by reflexivity.
    rewrite (fail_exit_lock_free _ _ Hfree). reflexivity.
  - intros T0 T1. rewrite T0, T1.
    erewrite bind_returns by reflexivity.
    erewrite bind_returns by reflexivity.
    cbn [outcome_of state_of trace_of fst snd negb orb when app].
    erewrite bind_exits; [reflexivity |].
    erewrite bind_returns by reflexivity.
    rewrite (fail_exit_lock_free _ _ Hfree). reflexivity.
Qed.

(** ** The commit phase *)

(** X11.  A commit that fails before [close_files] changes nothing: when
    the change of identity, a lock, an open for writing or an update
    fails, [output] exits with status 1 without having closed either
    store, both files are as they were and neither lock is held. *)
Theorem failed_commit_writes_nothing (bld : build) (env : environment)
    (s : state) :
  lock_free s ->
  writes_prepared bld env = false ->
  let r := output bld env s in
  outcome_of r = Exits 1 /\
  Forall (fun e => is_close_event e = false) (trace_of r) /\
  group_file (stores (state_of r)) = group_file (stores s) /\
  gshadow_file (stores (state_of r)) = gshadow_file (stores s) /\
  gr_lock_held (stores (state_of r)) = false /\
  sgr_lock_held (stores (state_of r)) = false.
Proof.
  intros (H1 & H2 & H3 & H4) Hw r. subst r.
  destruct s as [o gl sl nm p g sg [gf sf gdb sdb gh sh] i b].
  cbn in H1, H2, H3, H4. subst gl sl gh sh.
  destruct env as [uid present pwd me gbusy sbusy gopen sopen gclose sclose
                   gupd supd tty suid crypt c2l].
  destruct bld as [shadowgrp fmia bufsiz eusage].
  unfold writes_prepared, is_shadowgrp in Hw. cbn in Hw.
  destruct shadowgrp, present, suid, gbusy, sbusy, gupd, supd,
    (gopen O_RDWR) eqn:Eg, (sopen O_RDWR) eqn:Es;
    cbn in Hw; try discriminate Hw;
    unfold_commit; cbn; rewrite ?Eg; cbn; rewrite ?Es; cbn;
    repeat split; repeat constructor.
Qed.

(** X12.  The commit is not atomic across the two stores.  With both
    stores in use and everything up to the updates done, a group file
    that cannot be rewritten stops the run before the shadow store is
    closed, with both files as they were; a shadow file that cannot be
    rewritten stops it after the group file has been rewritten, which
    then holds the new record while the shadow file holds the old.
    Either way the exit has status 1 and gives both locks back, the
    group lock first. *)
Theorem commit_is_not_atomic (bld : build) (env : environment) (s : state) :
  lock_free s ->
  is_shadowgrp bld env = true ->
  writes_prepared bld env = true ->
  let r := output bld env s in
  (gr_close_ok env O_RDWR = false ->
     outcome_of r = Exits 1 /\
     trace_of r
       = [ESetuid true; EGrLock true; ESgrLock true; EGrOpen O_RDWR true;
          ESgrOpen O_RDWR true; EGrUpdate (grent s) true;
          ESgrUpdate (sgent s) true; EGrClose false;
          EStderr MsgCannotRewriteGroup; EGrUnlock true; ESgrUnlock true] /\
     group_file (stores (state_of r)) = group_file (stores s) /\
     gshadow_file (stores (state_of r)) = gshadow_file (stores s))
  /\
  (gr_close_ok env O_RDWR = true -> sgr_close_ok env O_RDWR = false ->
     outcome_of r = Exits 1 /\
     trace_of r
       = [ESetuid true; EGrLock true; ESgrLock true; EGrOpen O_RDWR true;
          ESgrOpen O_RDWR true; EGrUpdate (grent s) true;
          ESgrUpdate (sgent s) true; EGrClose true; ESgrClose false;
          EStderr MsgCannotRewriteShadow; EGrUnlock true; ESgrUnlock true] /\
     group_file (stores (state_of r))
       = put_group (group_file (stores s)) (grent s) /\
     gshadow_file (stores (state_of r)) = gshadow_file (stores s))
  /\ gr_lock_held (stores (state_of r)) = false
  /\ sgr_lock_held (stores (state_of r)) = false.
Proof.
  intros Hfree Hsh Hw r.
  destruct (output_releases_locks bld env Hfree) as (_ & L1 & L2).
  subst r. split; [| split; [| split; assumption]]; clear L1 L2;
    destruct Hfree as (H1 & H2 & H3 & H4);
    destruct s as [o gl sl nm p g sg [gf sf gdb sdb gh sh] i b];
    cbn in H1, H2, H3, H4; subst gl sl gh sh;
    destruct env as [uid present pwd me gbusy sbusy gopen sopen gclose sclose
                     gupd supd tty suid crypt c2l];
    destruct bld as [shadowgrp fmia bufsiz eusage];
    unfold writes_prepared, is_shadowgrp in *; cbn in Hsh, Hw |- *;
    apply andb_prop in Hsh; destruct Hsh as [-> ->];
    destruct suid, gbusy, sbusy, gupd, supd,
      (gopen O_RDWR) eqn:Eg, (sopen O_RDWR) eqn:Es;
      cbn in Hw; try discriminate Hw.
  - intros Ec. unfold_commit. cbn. rewrite Eg. cbn. rewrite Es. cbn.
    rewrite Ec. cbn. repeat split.
  - intros Ec Esc. unfold_commit. cbn. rewrite Eg. cbn. rewrite Es. cbn.
    rewrite Ec. cbn. rewrite Esc. cbn. repeat split.
Qed.

(** X13.  A commit that nothing hinders takes the group lock and then
    the shadow lock, opens both stores for writing, updates and closes
    them in that order, gives the locks back in reverse order, flushes
    the cache and exits with [E_SUCCESS]; the group file then holds
    [grent] and the shadow file [sgent] under the name of each, and the
    lock flags are clear.  Where the shadow store is not in use only the
    group store is locked, written and unlocked and the shadow file is
    as it was. *)
Theorem commit_writes_both_stores (bld : build) (env : environment)
    (s : state) :
  lock_free s ->
  commit_unhindered env ->
  let r := output bld env s in
  outcome_of r = Exits E_SUCCESS /\
  group_file (stores (state_of r)) = put_group (group_file (stores s)) (grent s)
  /\ lock_free (state_of r)
  /\ (is_shadowgrp bld env = true ->
      trace_of r
        = [ESetuid true; EGrLock true; ESgrLock true; EGrOpen O_RDWR true;
           ESgrOpen O_RDWR true; EGrUpdate (grent s) true;
           ESgrUpdate (sgent s) true; EGrClose true; ESgrClose true;
           ESgrUnlock true; EGrUnlock true; ENscdFlush] /\
      gshadow_file (stores (state_of r))
        = put_sgrp (gshadow_file (stores s)) (sgent s))
  /\ (is_shadowgrp bld env = false ->
      trace_of r
        = [ESetuid true; EGrLock true; EGrOpen O_RDWR true;
           EGrUpdate (grent s) true; EGrClose true; EGrUnlock true;
           ENscdFlush] /\
      gshadow_file (stores (state_of r)) = gshadow_file (stores s)).
Proof.
  intros (H1 & H2 & H3 & H4) (E1 & E2 & E3 & E4 & E5 & E6 & E7 & E8 & E9) r.
  subst r.
  destruct s as [o gl sl nm p g sg [gf sf gdb sdb gh sh] i b].
  cbn in H1, H2, H3, H4. subst gl sl gh sh.
  destruct env as [uid present pwd me gbusy sbusy gopen sopen gclose sclose
                   gupd supd tty suid crypt c2l].
  destruct bld as [shadowgrp fmia bufsiz eusage].
  cbn in E1, E2, E3, E4, E5, E6, E7, E8, E9. subst.
  unfold lock_free. unfold_commit.
  destruct shadowgrp, present;
    repeat (cbn; rewrite ?E4, ?E5, ?E8, ?E9);
    repeat split; intros; try discriminate; reflexivity.
Qed.

(** ** A host without a shadow group file *)

Ltac idle_side :=
  try (intros [? ? ? ? ? ? ? [? ? ? ? ? ?] ? ?];
       unfold shadow_idle; cbn; intuition congruence).

Lemma fail_exit_shadow_idle {A} bld sf n :
  keeps (shadow_idle sf) no_sgr_event (@fail_exit bld A n).
Proof.
  intros s (H1 & H2).
  destruct s as [o gl sl nm p g sg [gf sf0 gdb sdb gh sh] i b].
  cbn in H1, H2. subst sl sf0.
  unfold fail_exit, gr_unlock, sgr_unlock, fprintf_stderr, when, bind, gets,
    modify, emit, exit, ret, shadow_idle, state_of, trace_of.
  destruct gl, (SHADOWGRP bld), gh; cbn; repeat split;
    repeat constructor.
Qed.

(** One step of a derivation for a host on which [Hsh] says that the
    shadow store is not in use. *)
Ltac idle_step Hsh :=
  match goal with
  | |- keeps _ _ (when (is_shadowgrp _ _) _) => rewrite Hsh; apply keeps_ret
  | |- keeps _ _ (if is_shadowgrp _ _ then _ else _) => rewrite Hsh
  | |- keeps _ _ (fail_exit _ _) => apply fail_exit_shadow_idle
  | |- keeps _ _ _ => keeps_go idle_side
  end.

Lemma process_flags_loop_shadow_idle bld env sf fl :
  is_shadowgrp bld env = false ->
  keeps (shadow_idle sf) no_sgr_event (process_flags_loop bld env fl).
Proof.
  intros Hsh. induction fl as [| f fl IH]; cbn [process_flags_loop].
  - apply keeps_ret.
  - apply keeps_bind; [| intros _; exact IH].
    destruct f; unfold process_flag; repeat idle_step Hsh.
Qed.

Lemma change_passwd_loop_shadow_idle bld sf k r :
  keeps (shadow_idle sf) no_sgr_event (change_passwd_loop bld k r).
Proof.
  revert r. induction k as [| k IH]; intros r; cbn [change_passwd_loop].
  - apply keeps_ret.
  - apply keeps_bind.
    + unfold change_passwd_attempt.
      repeat first [apply fail_exit_shadow_idle | keeps_go idle_side].
    + intros [|]; [apply keeps_ret | apply IH].
Qed.

Lemma main_shadow_idle bld env cmd sf :
  is_shadowgrp bld env = false ->
  keeps (shadow_idle sf) no_sgr_event (main bld env cmd).
Proof.
  intros Hsh. unfold main, prepare, process_flags.
  repeat match goal with
         | |- keeps _ _ (bind _ _) => apply keeps_bind; [| intros ?]
         end;
    try (apply process_flags_loop_shadow_idle; exact Hsh).
  all: try (unfold get_group, check_perms, operation, add_member,
            delete_member, prompt_for_password, change_passwd, output,
            open_files, update_group, close_files).
  all: repeat first
         [ apply change_passwd_loop_shadow_idle
         | idle_step Hsh ].
Qed.

(** X14.  Where the shadow store is not in use, because the build has
    no shadow groups or because the host has no shadow group file, no
    run of [main] calls the shadow side of the record store adapter,
    and the shadow file and its lock flag are at the end as they were
    at the start. *)
Theorem shadow_store_left_alone (bld : build) (env : environment)
    (cmd : cmdline) (s : state) :
  is_shadowgrp bld env = false ->
  gshadow_locked s = false ->
  let r := main bld env cmd s in
  Forall (fun e => is_sgr_event e = false) (trace_of r) /\
  gshadow_file (stores (state_of r)) = gshadow_file (stores s) /\
  gshadow_locked (state_of r) = false.
Proof.
  intros Hsh Hl r. subst r.
  destruct (main_shadow_idle bld env cmd (gshadow_file (stores s)) Hsh s
              (conj Hl eq_refl)) as [(H1 & H2) H3].
  split; [exact H3 | split; assumption].
Qed.

(** ** From the command line to the commit *)

Lemma process_flags_untouched bld env cmd s s1 t1 :
  lock_free s ->
  process_flags bld env cmd s = (Returns tt, s1, t1) ->
  untouched s s1.
Proof.
  intros Hfree Hpf.
  assert (K : keeps (untouched s) no_store_event (process_flags bld env cmd)).
  { unfold process_flags.
    apply keeps_bind; [apply process_flags_loop_untouched |].
    intros _. keeps_auto untouched_side. }
  assert (Hun : untouched s s) by (unfold untouched; auto).
  destruct (K s Hun) as [H _]. now rewrite Hpf in H.
Qed.

Lemma process_flags_group bld env cmd s s1 t1 :
  process_flags bld env cmd s = (Returns tt, s1, t1) ->
  exists g, operands cmd = [g] /\ group (opts s1) = Some g.
Proof.
  unfold process_flags. intros H.
  destruct (process_flags_loop bld env (flags cmd) s) as [[[[] | n] s0] t0]
    eqn:EL.
  2: { erewrite bind_exits in H by exact EL. discriminate H. }
  erewrite bind_returns in H by exact EL.
  erewrite bind_returns in H by reflexivity.
  cbn [outcome_of state_of trace_of fst snd app] in H.
  unfold check_flags in H.
  erewrite bind_returns in H by reflexivity.
  cbv zeta beta in H. cbn [outcome_of state_of trace_of fst snd app] in H.
  destruct (1 <? _)%nat; [discriminate H |].
  erewrite bind_returns in H by reflexivity.
  cbn [outcome_of state_of trace_of fst snd app when] in H.
  destruct s0 as [[fa fA fd fM fr fR og ou om oa] gl sl nm p gr sg st i b].
  cbn in H.
  destruct (operands cmd) as [| g [| g' rest]]; cbn in H;
    try discriminate H.
  exists g. split; [reflexivity |].
  injection H as <- _. reflexivity.
Qed.

Lemma after_load_myname bld env pair me s :
  myname (after_load bld env pair (set_myname me s)) = me /\
  grent (after_load bld env pair (set_myname me s)) = fst pair /\
  sgent (after_load bld env pair (set_myname me s)) = snd pair /\
  opts (after_load bld env pair (set_myname me s)) = opts s.
Proof. destruct s. repeat split. Qed.

(** The run of [prepare] up to the permission check, for a command line
    that was accepted, a caller who is known and a group that is
    listed. *)
Lemma prepare_runs_to_check bld env cmd s s1 t1 me g t :
  lock_free s ->
  process_flags bld env cmd s = (Returns tt, s1, t1) ->
  my_pwent env = Some me ->
  stores_readable env ->
  group (opts s1) = Some g ->
  find (fun x => String.eqb (gr_name x) g) (group_file (stores s)) = Some t ->
  let pair := loaded_pair bld env g t (gshadow_file (stores s)) (sgent s) in
  let s2 := after_load bld env pair (set_myname me s1) in
  let k := bind (check_perms bld env) (fun _ => operation bld env) in
  lock_free s2 /\
  prepare bld env cmd s =
    (outcome_of (k s2), state_of (k s2),
     t1 ++ identify_and_load bld env g (gshadow_file (stores s))
        ++ trace_of (k s2)).
Proof.
  intros Hfree Hpf Hme Hread Hg Hfind pair s2 k.
  destruct (process_flags_untouched bld env cmd s s1 t1 Hfree Hpf)
    as (Hfree1 & Hst & _ & Hsg).
  assert (Hload : get_group bld env (set_myname me s1)
                  = (Returns tt, s2,
                     load_events bld env g (gshadow_file (stores s)))).
  { subst s2 pair. rewrite <- Hst in Hfind |- *. rewrite <- Hsg.
    rewrite (get_group_loads bld env (set_myname me s1) g t Hread).
    - destruct s1; reflexivity.
    - destruct s1; exact Hg.
    - destruct s1; exact Hfind. }
  split.
  - subst s2. unfold after_load.
    destruct s1 as [o gl sl nm p gr sg [gf sf gdb sdb gh sh] i b].
    destruct (is_shadowgrp bld env); exact Hfree1.
  - unfold prepare.
    erewrite bind_returns by exact Hpf.
    unfold get_my_pwent. rewrite Hme.
    erewrite bind_returns by reflexivity.
    erewrite bind_returns by reflexivity.
    erewrite bind_returns by exact Hload.
    cbn [outcome_of state_of trace_of fst snd app].
    unfold identify_and_load. subst k. reflexivity.
Qed.

Lemma output_commits bld env s :
  lock_free s -> commit_unhindered env ->
  committed bld env s [] (grent s) (sgent s) (output bld env s).
Proof.
  intros (H1 & H2 & H3 & H4) (E1 & E2 & E3 & E4 & E5 & E6 & E7 & E8 & E9).
  destruct s as [o gl sl nm p g sg [gf sf gdb sdb gh sh] i b].
  cbn in H1, H2, H3, H4. subst gl sl gh sh.
  destruct env as [uid present pwd me gbusy sbusy gopen sopen gclose sclose
                   gupd supd tty suid crypt c2l].
  destruct bld as [shadowgrp fmia bufsiz eusage].
  cbn in E1, E2, E3, E4, E5, E6, E7, E8, E9. subst.
  unfold committed, commit_events, lock_free. unfold_commit.
  destruct shadowgrp, present;
    repeat (cbn; rewrite ?E4, ?E5, ?E8, ?E9); repeat split.
Qed.

(** The whole run, for a caller the permission check lets through and
    an operation that returns. *)
Lemma main_runs_through bld env cmd s s1 t1 me g t s3 t3 :
  lock_free s ->
  process_flags bld env cmd s = (Returns tt, s1, t1) ->
  my_pwent env = Some me ->
  stores_readable env ->
  commit_unhindered env ->
  group (opts s1) = Some g ->
  find (fun x => String.eqb (gr_name x) g) (group_file (stores s)) = Some t ->
  let pair := loaded_pair bld env g t (gshadow_file (stores s)) (sgent s) in
  may_administer bld env me pair = true ->
  operation bld env (after_load bld env pair (set_myname me s1))
    = (Returns tt, s3, t3) ->
  committed bld env s
    (t1 ++ identify_and_load bld env g (gshadow_file (stores s)) ++ t3)
    (grent s3) (sgent s3) (main bld env cmd s).
Proof.
  intros Hfree Hpf Hme Hread Hcommit Hg Hfind pair Hmay Hop.
  destruct (prepare_runs_to_check bld env cmd s s1 t1 me g t Hfree Hpf Hme
              Hread Hg Hfind) as [Hfree2 Hprep].
  fold pair in Hfree2, Hprep.
  set (s2 := after_load bld env pair (set_myname me s1)) in *.
  destruct (after_load_myname bld env pair me s1) as (Hn & Hgr & Hsg & _).
  fold s2 in Hn, Hgr, Hsg.
  assert (Hcheck : check_perms bld env s2 = (Returns tt, s2, [])).
  { apply check_perms_passes. rewrite Hn, Hgr, Hsg.
    destruct pair; exact Hmay. }
  erewrite bind_returns in Hprep by exact Hcheck.
  rewrite Hop in Hprep. cbn [outcome_of state_of trace_of fst snd app] in Hprep.
  assert (Hf : files_are (group_file (stores s)) (gshadow_file (stores s)) s)
    by (unfold files_are; auto).
  destruct (prepare_keeps_files bld env cmd _ _ s Hf) as [Hfiles _].
  rewrite Hprep in Hfiles. cbn [state_of fst snd] in Hfiles.
  destruct Hfiles as (Hfree3 & Hgf & Hsf).
  destruct (output_commits bld env s3 Hfree3 Hcommit)
    as (O1 & O2 & O3 & O4 & O5).
  unfold main. erewrite bind_returns by exact Hprep.
  unfold committed. cbn [outcome_of state_of trace_of fst snd].
  rewrite Hgf in O3. rewrite Hsf in O4. cbn [app] in O2.
  split; [exact O1 |]. split; [| split; [exact O3 | split; [exact O4 | exact O5]]].
  rewrite O2, <- !app_assoc. reflexivity.
Qed.

(** X15.  A caller the permission check turns away gets that far and no
    further: the command line has been accepted, the caller identified
    and the record pair read from the stores, both by then closed
    again; the run ends there with the permission-denied message and
    status 1, the operation is not started, and the state is as the
    load left it. *)
Theorem denied_after_load (bld : build) (env : environment) (cmd : cmdline)
    (s s1 : state) (t1 : list event) (me g : string) (t : group_t) :
  lock_free s ->
  process_flags bld env cmd s = (Returns tt, s1, t1) ->
  my_pwent env = Some me ->
  stores_readable env ->
  group (opts s1) = Some g ->
  find (fun x => String.eqb (gr_name x) g) (group_file (stores s)) = Some t ->
  let pair := loaded_pair bld env g t (gshadow_file (stores s)) (sgent s) in
  may_administer bld env me pair = false ->
  main bld env cmd s
  = (Exits 1, after_load bld env pair (set_myname me s1),
     t1 ++ identify_and_load bld env g (gshadow_file (stores s))
        ++ [EStderr MsgPermissionDenied]).
Proof.
  intros Hfree Hpf Hme Hread Hg Hfind pair Hmay.
  destruct (prepare_runs_to_check bld env cmd s s1 t1 me g t Hfree Hpf Hme
              Hread Hg Hfind) as [Hfree2 Hprep].
  fold pair in Hfree2, Hprep.
  set (s2 := after_load bld env pair (set_myname me s1)) in *.
  destruct (after_load_myname bld env pair me s1) as (Hn & Hgr & Hsg & _).
  fold s2 in Hn, Hgr, Hsg.
  assert (Hcheck : check_perms bld env s2
                   = (Exits 1, s2, [EStderr MsgPermissionDenied])).
  { rewrite check_perms_denies.
    - apply (failure_lock_free bld Hfree2).
    - rewrite Hn, Hgr, Hsg. destruct pair; exact Hmay. }
  erewrite bind_exits in Hprep by exact Hcheck.
  cbn [outcome_of state_of trace_of fst snd] in Hprep.
  unfold main. erewrite bind_exits by exact Hprep. reflexivity.
Qed.

(** ** Whole runs *)

Lemma with_gr_passwd_loaded bld env g t sf sg0 p :
  with_gr_passwd p (fst (loaded_pair bld env g t sf sg0)) = with_gr_passwd p t.
Proof.
  unfold loaded_pair.
  destruct (is_shadowgrp bld env); [| reflexivity].
  destruct (find _ sf); destruct t; reflexivity.
Qed.

Lemma gr_mem_loaded bld env g t sf sg0 :
  gr_mem (fst (loaded_pair bld env g t sf sg0)) = gr_mem t.
Proof.
  unfold loaded_pair.
  destruct (is_shadowgrp bld env); [| reflexivity].
  destruct (find _ sf); destruct t; reflexivity.
Qed.

Lemma committed_without_shadow bld env s ev gr sg sg' r :
  is_shadowgrp bld env = false ->
  committed bld env s ev gr sg r -> committed bld env s ev gr sg' r.
Proof.
  unfold committed, commit_events. intros ->. exact (fun H => H).
Qed.

Lemma is_shadowgrp_build bld env :
  is_shadowgrp bld env = true -> SHADOWGRP bld = true.
Proof. unfold is_shadowgrp. intros H. now apply andb_prop in H. Qed.

(** X16.  [-r] and [-R] from end to end.  For a caller the permission
    check lets through, on a group the group file lists, with stores
    that can be read and written, the run prints nothing, exits with
    [E_SUCCESS] and leaves in the group file the record as listed but
    with an empty password field for [-r] and with [!] for [-R]; it
    does not keep the [x] that marks a shadowed password.  Where the
    shadow store is in use the shadow record, the listed one or the
    one made up for the group, is written with the same password
    field. *)
Theorem password_field_set_end_to_end (bld : build) (env : environment)
    (s : state) (me g : string) (t : group_t) (restrict : bool) :
  lock_free s ->
  no_operation (opts s) ->
  my_pwent env = Some me ->
  stores_readable env ->
  commit_unhindered env ->
  find (fun x => String.eqb (gr_name x) g) (group_file (stores s)) = Some t ->
  let pair := loaded_pair bld env g t (gshadow_file (stores s)) (sgent s) in
  may_administer bld env me pair = true ->
  let p := if restrict then "!"%string else ""%string in
  committed bld env s
    (identify_and_load bld env g (gshadow_file (stores s)))
    (with_gr_passwd p t) (with_sg_passwd p (snd pair))
    (main bld env (mkCmdline [if restrict then Flag_R else Flag_r] [g]) s).
Proof.
  intros Hfree (N1 & N2 & N3 & N4 & N5 & N6) Hme Hread Hcommit Hfind pair
    Hmay p.
  set (cmd := mkCmdline [if restrict then Flag_R else Flag_r] [g]).
  set (s1 := set_opts (fun o => mkOptions false false false false
                         (negb restrict) restrict (Some g) (user o)
                         (members o) (admins o)) s).
  assert (Hpf : process_flags bld env cmd s = (Returns tt, s1, [])).
  { subst cmd s1.
    destruct s as [[fa fA fd fM fr fR og ou om oa] gl sl nm p0 gr sg st i b].
    cbn in N1, N2, N3, N4, N5, N6. subst. destruct restrict; reflexivity. }
  assert (Hg : group (opts s1) = Some g) by (subst s1; destruct s; reflexivity).
  set (s2 := after_load bld env pair (set_myname me s1)).
  assert (Hop : operation bld env s2
    = (Returns tt,
       (if SHADOWGRP bld
        then set_sgent (with_sg_passwd p) (set_grent (with_gr_passwd p) s2)
        else set_grent (with_gr_passwd p) s2), [])).
  { subst s2 s1 p. destruct s. unfold operation, after_load.
    destruct restrict, (SHADOWGRP bld); reflexivity. }
  pose proof (main_runs_through bld env cmd s s1 [] me g t _ _ Hfree Hpf Hme
                Hread Hcommit Hg Hfind Hmay Hop) as H.
  cbn [app] in H. rewrite app_nil_r in H.
  destruct (after_load_myname bld env pair me s1) as (_ & Hgr & Hsg & _).
  fold s2 in Hgr, Hsg.
  assert (Egr : grent (if SHADOWGRP bld
        then set_sgent (with_sg_passwd p) (set_grent (with_gr_passwd p) s2)
        else set_grent (with_gr_passwd p) s2) = with_gr_passwd p t).
  { rewrite <- (with_gr_passwd_loaded bld env g t (gshadow_file (stores s))
                  (sgent s) p).
    fold pair. rewrite <- Hgr.
    destruct (SHADOWGRP bld); destruct s2; reflexivity. }
  rewrite Egr in H.
  destruct (is_shadowgrp bld env) eqn:Esh.
  - rewrite (is_shadowgrp_build bld env Esh) in H.
    replace (sgent (set_sgent (with_sg_passwd p)
                      (set_grent (with_gr_passwd p) s2)))
      with (with_sg_passwd p (snd pair)) in H
      by (rewrite <- Hsg; destruct s2; reflexivity).
    exact H.
  - eapply committed_without_shadow; [exact Esh | exact H].
Qed.

(** X17.  [-a] from end to end.  For a user [getpwnam] knows and a
    caller the permission check lets through, the run looks the user
    up, loads the pair, announces the addition, commits and exits with
    [E_SUCCESS].  The group file then holds the loaded record with the
    user put on its member list by [add_list]; where the shadow store
    is in use the shadow file holds the shadow record with the user put
    on its member list in the same way, and for a group the shadow file
    did not list the record written to the group file carries the
    password marker while the password itself has moved to the shadow
    record. *)
Theorem member_added_end_to_end (bld : build) (env : environment)
    (s : state) (me g u : string) (t : group_t) :
  lock_free s ->
  no_operation (opts s) ->
  my_pwent env = Some me ->
  stores_readable env ->
  commit_unhindered env ->
  pw_lookup env u = true ->
  find (fun x => String.eqb (gr_name x) g) (group_file (stores s)) = Some t ->
  let pair := loaded_pair bld env g t (gshadow_file (stores s)) (sgent s) in
  may_administer bld env me pair = true ->
  committed bld env s
    (EGetpwnam u true
       :: identify_and_load bld env g (gshadow_file (stores s))
       ++ [EStdout (MsgAdding u g)])
    (with_gr_mem (add_list (gr_mem t) u) (fst pair))
    (with_sg_mem (add_list (sg_mem (snd pair)) u) (snd pair))
    (main bld env (mkCmdline [Flag_a u] [g]) s)
  /\ In u (add_list (gr_mem t) u)
  /\ (is_shadowgrp bld env = true ->
      find (fun x => String.eqb (sg_name x) g) (gshadow_file (stores s)) = None ->
      gr_passwd (fst pair) = SHADOW_PASSWD_STRING /\
      sg_passwd (snd pair) = gr_passwd t).
Proof.
  intros Hfree (N1 & N2 & N3 & N4 & N5 & N6) Hme Hread Hcommit Hpw Hfind pair
    Hmay.
  split; [| split].
  2: { unfold add_list. destruct (is_on_list (gr_mem t) u) eqn:E.
       - now apply is_on_list_In.
       - apply in_or_app. right. now left. }
  2: { intros Hsh Hnone. subst pair. unfold loaded_pair.
       rewrite Hsh, Hnone. split; reflexivity. }
  set (cmd := mkCmdline [Flag_a u] [g]).
  set (s1 := set_opts (fun o => mkOptions true false false false false false
                         (Some g) u (members o) (admins o)) s).
  assert (Hpf : process_flags bld env cmd s
                = (Returns tt, s1, [EGetpwnam u true])).
  { subst cmd s1.
    destruct s as [[fa fA fd fM fr fR og ou om oa] gl sl nm p0 gr sg st i b].
    cbn in N1, N2, N3, N4, N5, N6. subst.
    unfold process_flags. cbn [flags process_flags_loop operands].
    unfold process_flag, getpwnam, check_flags, fprintf_stderr, when, bind,
      gets, modify, emit, ret.
    cbn -[pw_lookup]. rewrite Hpw. reflexivity. }
  assert (Hg : group (opts s1) = Some g) by (subst s1; destruct s; reflexivity).
  set (s2 := after_load bld env pair (set_myname me s1)).
  set (add_gr := fun gr : group_t => with_gr_mem (add_list (gr_mem gr) u) gr).
  set (add_sg := fun sg : sgrp_t => with_sg_mem (add_list (sg_mem sg) u) sg).
  assert (Hop : operation bld env s2
    = (Returns tt,
       (if is_shadowgrp bld env
        then set_sgent add_sg (set_grent add_gr s2)
        else set_grent add_gr s2), [EStdout (MsgAdding u g)])).
  { subst s2 s1 add_gr add_sg.
    destruct s as [[fa fA fd fM fr fR og ou om oa] gl sl nm p0 gr sg st i b].
    cbn in N1, N2, N3, N4, N5, N6. subst.
    unfold operation, add_member, after_load, puts, when, bind, gets, modify,
      emit, ret.
    destruct (is_shadowgrp bld env); reflexivity. }
  pose proof (main_runs_through bld env cmd s s1 _ me g t _ _ Hfree Hpf Hme
                Hread Hcommit Hg Hfind Hmay Hop) as H.
  cbn [app] in H.
  destruct (after_load_myname bld env pair me s1) as (_ & Hgr & Hsg & _).
  fold s2 in Hgr, Hsg.
  replace (with_gr_mem (add_list (gr_mem t) u) (fst pair))
    with (add_gr (fst pair))
    by (subst add_gr pair; cbv beta; now rewrite gr_mem_loaded).
  change (with_sg_mem (add_list (sg_mem (snd pair)) u) (snd pair))
    with (add_sg (snd pair)).
  destruct (is_shadowgrp bld env) eqn:Esh.
  - replace (grent (set_sgent add_sg (set_grent add_gr s2)))
      with (add_gr (fst pair)) in H
      by (rewrite <- Hgr; destruct s2; reflexivity).
    replace (sgent (set_sgent add_sg (set_grent add_gr s2)))
      with (add_sg (snd pair)) in H
      by (rewrite <- Hsg; destruct s2; reflexivity).
    exact H.
  - replace (grent (set_grent add_gr s2)) with (add_gr (fst pair)) in H
      by (rewrite <- Hgr; destruct s2; reflexivity).
    eapply committed_without_shadow; [exact Esh | exact H].
Qed.

(** ** Replacing the lists *)

Lemma root_may_administer bld env me pair :
  amroot env = true -> may_administer bld env me pair = true.
Proof. unfold may_administer, authorize. now intros ->. Qed.

Lemma is_valid_user_list_accepts env users st :
  forallb (fun t => pw_lookup env (truncated 31 t)) (split_commas users)
    = true ->
  is_valid_user_list env users st
  = (Returns true, st,
     flat_map (lookup_events (passwd env)) (split_commas users)).
Proof.
  intros H. unfold is_valid_user_list.
  rewrite (user_list_loop_split env users true). cbn [fst snd andb].
  now rewrite H.
Qed.

Lemma process_flag_M_valid bld env users s :
  amroot env = true ->
  forallb (fun t => pw_lookup env (truncated 31 t)) (split_commas users)
    = true ->
  process_flag bld env (Flag_M users) s
  = (Returns tt,
     set_opts (fun o => mkOptions (aflg o) (Aflg o) (dflg o) true (rflg o)
                          (Rflg o) (group o) (user o) users (admins o)) s,
     flat_map (lookup_events (passwd env)) (split_commas users)).
Proof.
  intros Hroot Hok. unfold process_flag. rewrite Hroot. cbn [negb when].
  erewrite bind_returns by reflexivity.
  erewrite bind_returns by reflexivity.
  erewrite bind_returns by (apply is_valid_user_list_accepts; exact Hok).
  cbn [outcome_of state_of trace_of fst snd app negb when].
  erewrite bind_returns by reflexivity.
  cbn [outcome_of state_of trace_of fst snd app ret modify].
  rewrite app_nil_r. destruct s as [[]]. reflexivity.
Qed.

Lemma process_flag_A_valid bld env users s :
  amroot env = true ->
  is_shadowgrp bld env = true ->
  forallb (fun t => pw_lookup env (truncated 31 t)) (split_commas users)
    = true ->
  process_flag bld env (Flag_A users) s
  = (Returns tt,
     set_opts (fun o => mkOptions (aflg o) true (dflg o) (Mflg o) (rflg o)
                          (Rflg o) (group o) (user o) (members o) users) s,
     flat_map (lookup_events (passwd env)) (split_commas users)).
Proof.
  intros Hroot Hsh Hok. unfold process_flag.
  rewrite (is_shadowgrp_build bld env Hsh), Hroot, Hsh. cbn [negb when].
  erewrite bind_returns by reflexivity.
  erewrite bind_returns by reflexivity.
  erewrite bind_returns by reflexivity.
  erewrite bind_returns by (apply is_valid_user_list_accepts; exact Hok).
  cbn [outcome_of state_of trace_of fst snd app negb when].
  erewrite bind_returns by reflexivity.
  cbn [outcome_of state_of trace_of fst snd app ret modify].
  rewrite app_nil_r. destruct s as [[]]. reflexivity.
Qed.

(** X18.  [-A], alone or with [-M], from end to end, for root on a host
    with a shadow group file.  When every name of the lists, cut to 31
    characters, is a user, the run scans the lists, loads the pair,
    commits and exits with [E_SUCCESS] without printing anything.  The
    shadow record written has as administrators what [comma_to_list]
    makes of the option as given, not of the names as cut; with [-M]
    both records have their members replaced likewise, and without it
    the members of both are as loaded. *)
Theorem admins_replaced_end_to_end (bld : build) (env : environment)
    (s : state) (me g admins : string) (new_members : option string)
    (t : group_t) :
  lock_free s ->
  no_operation (opts s) ->
  amroot env = true ->
  is_shadowgrp bld env = true ->
  my_pwent env = Some me ->
  stores_readable env ->
  commit_unhindered env ->
  forallb (fun n => pw_lookup env (truncated 31 n)) (split_commas admins)
    = true ->
  (forall m, new_members = Some m ->
     forallb (fun n => pw_lookup env (truncated 31 n)) (split_commas m)
       = true) ->
  find (fun x => String.eqb (gr_name x) g) (group_file (stores s)) = Some t ->
  let pair := loaded_pair bld env g t (gshadow_file (stores s)) (sgent s) in
  let scan := fun l => flat_map (lookup_events (passwd env)) (split_commas l) in
  let new_admins := with_sg_adm (comma_to_list env admins) (snd pair) in
  committed bld env s
    (scan admins
       ++ match new_members with Some m => scan m | None => [] end
       ++ identify_and_load bld env g (gshadow_file (stores s)))
    (match new_members with
     | Some m => with_gr_mem (comma_to_list env m) (fst pair)
     | None => fst pair
     end)
    (match new_members with
     | Some m => with_sg_mem (comma_to_list env m) new_admins
     | None => new_admins
     end)
    (main bld env
       (mkCmdline (Flag_A admins
                     :: match new_members with
                        | Some m => [Flag_M m]
                        | None => []
                        end) [g]) s).
Proof.
  intros Hfree (N1 & N2 & N3 & N4 & N5 & N6) Hroot Hsh Hme Hread Hcommit Hadm
    Hmem Hfind pair scan new_admins.
  pose proof (is_shadowgrp_build bld env Hsh) as Hb.
  pose proof (root_may_administer bld env me pair Hroot) as Hmay.
  destruct new_members as [m |].
  - specialize (Hmem m eq_refl).
    set (cmd := mkCmdline [Flag_A admins; Flag_M m] [g]).
    set (s1 := set_opts (fun o => mkOptions false true false true false false
                           (Some g) (user o) m admins) s).
    assert (Hpf : process_flags bld env cmd s
                  = (Returns tt, s1, scan admins ++ scan m)).
    { subst cmd s1 scan. unfold process_flags.
      cbn [flags process_flags_loop operands].
      erewrite bind_returns.
      2: { erewrite bind_returns
             by (apply process_flag_A_valid; assumption).
           erewrite bind_returns
             by (apply process_flag_M_valid; assumption).
           reflexivity. }
      destruct s as [[fa fA fd fM fr fR og ou om oa] gl sl nm p0 gr sg st i b].
      cbn in N1, N2, N3, N4, N5, N6. subst.
      cbn [outcome_of state_of trace_of fst snd ret app].
      rewrite ?app_nil_r. reflexivity. }
    assert (Hg : group (opts s1) = Some g)
      by (subst s1; destruct s; reflexivity).
    set (s2 := after_load bld env pair (set_myname me s1)).
    assert (Hop : operation bld env s2
      = (Returns tt,
         set_grent (with_gr_mem (comma_to_list env m))
           (set_sgent (with_sg_mem (comma_to_list env m))
              (set_sgent (with_sg_adm (comma_to_list env admins)) s2)), [])).
    { subst s2 s1. destruct s. unfold operation, after_load.
      rewrite Hb, Hsh. reflexivity. }
    pose proof (main_runs_through bld env cmd s s1 _ me g t _ _ Hfree Hpf Hme
                  Hread Hcommit Hg Hfind Hmay Hop) as H.
    rewrite app_nil_r, <- app_assoc in H.
    destruct (after_load_myname bld env pair me s1) as (_ & Hgr & Hsg & _).
    fold s2 in Hgr, Hsg. subst new_admins.
    rewrite <- Hgr, <- Hsg. destruct s2. exact H.
  - set (cmd := mkCmdline [Flag_A admins] [g]).
    set (s1 := set_opts (fun o => mkOptions false true false false false false
                           (Some g) (user o) (members o) admins) s).
    assert (Hpf : process_flags bld env cmd s
                  = (Returns tt, s1, scan admins)).
    { subst cmd s1 scan. unfold process_flags.
      cbn [flags process_flags_loop operands].
      erewrite bind_returns.
      2: { erewrite bind_returns
             by (apply process_flag_A_valid; assumption).
           reflexivity. }
      destruct s as [[fa fA fd fM fr fR og ou om oa] gl sl nm p0 gr sg st i b].
      cbn in N1, N2, N3, N4, N5, N6. subst.
      cbn [outcome_of state_of trace_of fst snd ret app].
      rewrite ?app_nil_r. reflexivity. }
    assert (Hg : group (opts s1) = Some g)
      by (subst s1; destruct s; reflexivity).
    set (s2 := after_load bld env pair (set_myname me s1)).
    assert (Hop : operation bld env s2
      = (Returns tt,
         set_sgent (with_sg_adm (comma_to_list env admins)) s2, [])).
    { subst s2 s1. destruct s. unfold operation, after_load.
      rewrite Hb, Hsh. reflexivity. }
    pose proof (main_runs_through bld env cmd s s1 _ me g t _ _ Hfree Hpf Hme
                  Hread Hcommit Hg Hfind Hmay Hop) as H.
    rewrite app_nil_r in H. cbn [app].
    destruct (after_load_myname bld env pair me s1) as (_ & Hgr & Hsg & _).
    fold s2 in Hgr, Hsg. subst new_admins.
    rewrite <- Hgr, <- Hsg. destruct s2. exact H.
Qed.

(** X19.  [-M] alone from end to end, for root on any host: when every
    name of the list, cut to 31 characters, is a user, the run scans
    the list, loads the pair, commits and exits with [E_SUCCESS].  The
    record written to the group file has as members what
    [comma_to_list] makes of the option; where the shadow store is in
    use the shadow record has the same members and the administrators
    it was loaded with. *)
Theorem members_replaced_end_to_end (bld : build) (env : environment)
    (s : state) (me g members : string) (t : group_t) :
  lock_free s ->
  no_operation (opts s) ->
  amroot env = true ->
  my_pwent env = Some me ->
  stores_readable env ->
  commit_unhindered env ->
  forallb (fun n => pw_lookup env (truncated 31 n)) (split_commas members)
    = true ->
  find (fun x => String.eqb (gr_name x) g) (group_file (stores s)) = Some t ->
  let pair := loaded_pair bld env g t (gshadow_file (stores s)) (sgent s) in
  committed bld env s
    (flat_map (lookup_events (passwd env)) (split_commas members)
       ++ identify_and_load bld env g (gshadow_file (stores s)))
    (with_gr_mem (comma_to_list env members) (fst pair))
    (with_sg_mem (comma_to_list env members) (snd pair))
    (main bld env (mkCmdline [Flag_M members] [g]) s).
Proof.
  intros Hfree (N1 & N2 & N3 & N4 & N5 & N6) Hroot Hme Hread Hcommit Hmem
    Hfind pair.
  pose proof (root_may_administer bld env me pair Hroot) as Hmay.
  set (cmd := mkCmdline [Flag_M members] [g]).
  set (s1 := set_opts (fun o => mkOptions false false false true false false
                         (Some g) (user o) members (admins o)) s).
  assert (Hpf : process_flags bld env cmd s
                = (Returns tt, s1,
                   flat_map (lookup_events (passwd env))
                            (split_commas members))).
  { subst cmd s1. unfold process_flags.
    cbn [flags process_flags_loop operands].
    erewrite bind_returns.
    2: { erewrite bind_returns
           by (apply process_flag_M_valid; assumption).
         reflexivity. }
    destruct s as [[fa fA fd fM fr fR og ou om oa] gl sl nm p0 gr sg st i b].
    cbn in N1, N2, N3, N4, N5, N6. subst.
    cbn [outcome_of state_of trace_of fst snd ret app].
    rewrite ?app_nil_r. reflexivity. }
  assert (Hg : group (opts s1) = Some g)
    by (subst s1; destruct s; reflexivity).
  set (s2 := after_load bld env pair (set_myname me s1)).
  assert (Hop : operation bld env s2
    = (Returns tt,
       (if SHADOWGRP bld
        then set_grent (with_gr_mem (comma_to_list env members))
               (set_sgent (with_sg_mem (comma_to_list env members)) s2)
        else set_grent (with_gr_mem (comma_to_list env members)) s2), [])).
  { subst s2 s1.
    destruct s as [[fa fA fd fM fr fR og ou om oa] gl sl nm p0 gr sg st i b].
    cbn in N1, N2, N3, N4, N5, N6. subst.
    unfold operation, after_load.
    destruct (SHADOWGRP bld); reflexivity. }
  pose proof (main_runs_through bld env cmd s s1 _ me g t _ _ Hfree Hpf Hme
                Hread Hcommit Hg Hfind Hmay Hop) as H.
  rewrite app_nil_r in H.
  destruct (after_load_myname bld env pair me s1) as (_ & Hgr & Hsg & _).
  fold s2 in Hgr, Hsg.
  destruct (is_shadowgrp bld env) eqn:Esh.
  - rewrite (is_shadowgrp_build bld env Esh) in H.
    rewrite <- Hgr, <- Hsg. destruct s2. exact H.
  - rewrite <- Hgr.
    destruct (SHADOWGRP bld); destruct s2;
      (eapply committed_without_shadow; [exact Esh | exact H]).
Qed.

(** ** Changing the password, from the command line to the files *)

Lemma change_passwd_first_try bld env s a b rest :
  (0 < BUFSIZ bld)%nat ->
  tty_input s = Some a :: Some b :: rest ->
  agree (BUFSIZ bld) a b ->
  let h := pw_encrypt env (kept_password (BUFSIZ bld) a) in
  exists s3,
    change_passwd bld env s
    = (Returns tt, s3,
       [EStdout (MsgChangingPassword (the_group s));
        EGetpass NewPassword true; EGetpass ReEnterNewPassword true]) /\
    grent s3 = (if is_shadowgrp bld env then grent s
                else with_gr_passwd h (grent s)) /\
    sgent s3 = (if is_shadowgrp bld env then with_sg_passwd h (sgent s)
                else sgent s).
Proof.
  intros Hbuf Hin Hag h.
  assert (Hloop : change_passwd_loop bld RETRIES 0 s =
    (Returns 0%nat,
     set_getpass_buf (strzero (cstr (list_ascii_of_string b)))
       (set_pass (STRFCPY (BUFSIZ bld) (cstr (list_ascii_of_string a)))
          (set_tty_input rest s)),
     [EGetpass NewPassword true; EGetpass ReEnterNewPassword true])).
  { unfold RETRIES at 1. cbn [change_passwd_loop].
    erewrite bind_returns by (eapply attempt_match_run; eassumption).
    reflexivity. }
  rewrite (change_passwd_matched bld env s 0 _ _ Hloop)
    by (unfold RETRIES; lia).
  eexists. split; [reflexivity |].
  destruct s as [o gl sl nm p g sg st i buf].
  cbn [set_getpass_buf set_pass set_tty_input pass].
  rewrite cstr_STRFCPY, cstr_idem by exact Hbuf.
  fold (kept_password (BUFSIZ bld) a). subst h.
  destruct (is_shadowgrp bld env); split; reflexivity.
Qed.

(** X20.  A change of password from end to end.  With no option, both
    ends a terminal, a caller the permission check lets through and two
    entries at the prompt that agree, the run loads the pair, checks
    the two descriptors, announces the change, asks twice, commits and
    exits with [E_SUCCESS].  Where the shadow store is in use the hash
    of the entry is the password of the shadow record written and the
    record written to the group file is the loaded one, with the marker
    as its password for a group the shadow file did not list; where it
    is not, the hash is the password of the record in the group
    file. *)
Theorem password_changed_end_to_end (bld : build) (env : environment)
    (s : state) (me g a b : string) (rest : list (option string))
    (t : group_t) :
  lock_free s ->
  no_operation (opts s) ->
  (0 < BUFSIZ bld)%nat ->
  my_pwent env = Some me ->
  stores_readable env ->
  commit_unhindered env ->
  isatty env 0 = true ->
  isatty env 1 = true ->
  tty_input s = Some a :: Some b :: rest ->
  agree (BUFSIZ bld) a b ->
  find (fun x => String.eqb (gr_name x) g) (group_file (stores s)) = Some t ->
  let pair := loaded_pair bld env g t (gshadow_file (stores s)) (sgent s) in
  may_administer bld env me pair = true ->
  let h := pw_encrypt env (kept_password (BUFSIZ bld) a) in
  committed bld env s
    (identify_and_load bld env g (gshadow_file (stores s))
       ++ [EIsatty 0 true; EIsatty 1 true; EStdout (MsgChangingPassword g);
           EGetpass NewPassword true; EGetpass ReEnterNewPassword true])
    (if is_shadowgrp bld env then fst pair else with_gr_passwd h t)
    (with_sg_passwd h (snd pair))
    (main bld env (mkCmdline [] [g]) s).
Proof.
  intros Hfree (N1 & N2 & N3 & N4 & N5 & N6) Hbuf Hme Hread Hcommit Htty0
    Htty1 Hin Hag Hfind pair Hmay h.
  set (cmd := mkCmdline [] [g]).
  set (s1 := set_opts (fun o => mkOptions false false false false false false
                         (Some g) (user o) (members o) (admins o)) s).
  assert (Hpf : process_flags bld env cmd s = (Returns tt, s1, [])).
  { subst cmd s1.
    destruct s as [[fa fA fd fM fr fR og ou om oa] gl sl nm p0 gr sg st i b0].
    cbn in N1, N2, N3, N4, N5, N6. subst. reflexivity. }
  assert (Hg : group (opts s1) = Some g) by (subst s1; destruct s; reflexivity).
  set (s2 := after_load bld env pair (set_myname me s1)).
  assert (Hin2 : tty_input s2 = Some a :: Some b :: rest).
  { subst s2 s1. destruct s. exact Hin. }
  assert (Hg2 : the_group s2 = g).
  { subst s2 s1. destruct s. reflexivity. }
  destruct (change_passwd_first_try bld env s2 a b rest Hbuf Hin2 Hag)
    as (s3 & Hcp & Hgr3 & Hsg3).
  rewrite Hg2 in Hcp.
  assert (Hop : operation bld env s2
    = (Returns tt, s3,
       [EIsatty 0 true; EIsatty 1 true; EStdout (MsgChangingPassword g);
        EGetpass NewPassword true; EGetpass ReEnterNewPassword true])).
  { assert (Ho : opts s2 = mkOptions false false false false false false
                   (Some g) (user (opts s)) (members (opts s))
                   (admins (opts s))).
    { subst s2 s1. destruct s. reflexivity. }
    unfold operation. erewrite bind_returns by reflexivity.
    cbn [outcome_of state_of trace_of fst snd app]. rewrite Ho.
    cbn [rflg Rflg aflg dflg Aflg Mflg andb negb when].
    rewrite andb_false_r. cbn [andb when].
    erewrite bind_returns by reflexivity.
    cbn [outcome_of state_of trace_of fst snd app ret].
    unfold prompt_for_password, c_isatty. rewrite Htty0, Htty1.
    erewrite bind_returns by reflexivity.
    erewrite bind_returns by reflexivity.
    erewrite bind_returns by reflexivity.
    cbn [outcome_of state_of trace_of fst snd app ret negb orb when].
    rewrite Hcp. reflexivity. }
  pose proof (main_runs_through bld env cmd s s1 _ me g t _ _ Hfree Hpf Hme
                Hread Hcommit Hg Hfind Hmay Hop) as H.
  cbn [app] in H.
  destruct (after_load_myname bld env pair me s1) as (_ & Hgr & Hsg & _).
  fold s2 in Hgr, Hsg.
  rewrite Hgr3, Hsg3, Hgr, Hsg in H.
  destruct (is_shadowgrp bld env) eqn:Esh; [exact H |].
  eapply committed_without_shadow; [exact Esh |].
  replace t with (fst pair)
    by (subst pair; unfold loaded_pair; now rewrite Esh).
  exact H.
Qed.

(** ** Order of loading and locking *)

Lemma output_writes_under_lock bld env s :
  lock_free s ->
  writes_under_lock false false (trace_of (output bld env s)) = true.
Proof.
  intros (H1 & H2 & H3 & H4).
  destruct s as [o gl sl nm p g sg [gf sf gdb sdb gh sh] i b].
  cbn in H1, H2, H3, H4. subst gl sl gh sh.
  destruct env as [uid present pwd me gbusy sbusy gopen sopen gclose sclose
                   gupd supd tty suid crypt c2l].
  destruct bld as [shadowgrp fmia bufsiz eusage].
  unfold_commit.
  destruct shadowgrp, present, suid, gbusy, sbusy, gupd, supd,
    (gopen O_RDWR) eqn:Eg, (sopen O_RDWR) eqn:Es,
    (gclose O_RDWR) eqn:Egc, (sclose O_RDWR) eqn:Esc;
    cbn; rewrite ?Eg; cbn; rewrite ?Es; cbn; rewrite ?Egc; cbn;
    rewrite ?Esc; reflexivity.
Qed.

(** A run whose first part returns goes through the commit, when
    nothing hinders it. *)
Lemma main_commits bld env cmd s s3 t3 :
  lock_free s ->
  commit_unhindered env ->
  prepare bld env cmd s = (Returns tt, s3, t3) ->
  committed bld env s t3 (grent s3) (sgent s3) (main bld env cmd s).
Proof.
  intros Hfree Hcommit Hprep.
  assert (Hf : files_are (group_file (stores s)) (gshadow_file (stores s)) s)
    by (unfold files_are; auto).
  destruct (prepare_keeps_files bld env cmd _ _ s Hf) as [Hfiles _].
  rewrite Hprep in Hfiles. cbn [state_of fst snd] in Hfiles.
  destruct Hfiles as (Hfree3 & Hgf & Hsf).
  destruct (output_commits bld env s3 Hfree3 Hcommit)
    as (O1 & O2 & O3 & O4 & O5).
  unfold main. erewrite bind_returns by exact Hprep.
  unfold committed. cbn [outcome_of state_of trace_of fst snd].
  rewrite Hgf in O3. rewrite Hsf in O4. cbn [app] in O2.
  split; [exact O1 |].
  split; [| split; [exact O3 | split; [exact O4 | exact O5]]].
  now rewrite O2.
Qed.

(** C3, as the code has it.  Every run of [main] that starts with
    nothing locked has two parts.  The first is the whole of [prepare]:
    parsing, the read-only load of the record pair, the permission
    check and the in-memory change; it contains no lock event and ends
    with nothing locked, and a run that exits there is over.  The
    second is the commit phase [output], which starts from the state
    the first part returned in.  It contains no record lookup and no
    read-only open; every open for writing, update and close in it
    happens while the lock of that store is held; it ends with neither
    lock held; and when nothing hinders it, it is exactly: take the
    lock(s), open the store(s) for writing, update, close, unlock, and
    exit with [E_SUCCESS], the files then holding the changed pair.  So
    the record is loaded, the caller authorized and the record changed
    before any lock is acquired, and the locks are acquired for the
    write-back. *)
Theorem locks_taken_after_load (bld : build) (env : environment)
    (cmd : cmdline) (s : state) :
  lock_free s ->
  let p := prepare bld env cmd s in
  let c := output bld env (state_of p) in
  let m := main bld env cmd s in
  Forall (fun e => is_lock_event e = false) (trace_of p) /\
  lock_free (state_of p) /\
  (forall n, outcome_of p = Exits n -> m = p) /\
  (outcome_of p = Returns tt ->
     trace_of m = trace_of p ++ trace_of c /\
     Forall (fun e => is_load_event e = false) (trace_of c) /\
     writes_under_lock false false (trace_of c) = true /\
     gr_lock_held (stores (state_of m)) = false /\
     sgr_lock_held (stores (state_of m)) = false /\
     (commit_unhindered env ->
        committed bld env s (trace_of p) (grent (state_of p))
                  (sgent (state_of p)) m)).
Proof.
  intros Hs p c m.
  destruct (prepare_lock_free bld env cmd Hs) as [Hfree Hnolock].
  fold p in Hfree, Hnolock.
  split; [exact Hnolock | split; [exact Hfree |]].
  destruct (main_releases_locks bld env cmd Hs) as (_ & L1 & L2).
  fold m in L1, L2.
  subst m c. unfold main.
  destruct p as [[[[] | n] s1] t1] eqn:Ep; subst p.
  - split; [intros n Hn; discriminate Hn |]. intros _.
    cbn [state_of trace_of fst snd] in *.
    erewrite bind_returns by exact Ep.
    cbn [state_of trace_of fst snd].
    split; [reflexivity |].
    split; [apply (output_no_load bld env (s := s1) I) |].
    split; [apply output_writes_under_lock; exact Hfree |].
    unfold main in L1, L2. erewrite bind_returns in L1, L2 by exact Ep.
    split; [exact L1 | split; [exact L2 |]].
    intros Hcommit.
    pose proof (main_commits bld env cmd s s1 t1 Hs Hcommit Ep) as K.
    unfold main in K. erewrite bind_returns in K by exact Ep. exact K.
  - split; [| intros H; discriminate H].
    intros n0 _. erewrite bind_exits by exact Ep. reflexivity.
Qed.

(** ** Concrete runs of the further properties *)

Lemma accepted_lock_free o input : lock_free (accepted o input).
Proof. repeat split. Qed.

Lemma bare_start_lock_free : lock_free bare_start.
Proof. repeat split. Qed.

Lemma as_root_unhindered : commit_unhindered as_root.
Proof. repeat split. Qed.

Lemma as_alice_unhindered : commit_unhindered as_alice.
Proof. repeat split. Qed.

Lemma as_root_readable : stores_readable as_root.
Proof. repeat split. Qed.

Lemma as_alice_readable : stores_readable as_alice.
Proof. repeat split. Qed.

Lemma no_options_no_operation input : no_operation (opts (start input)).
Proof. repeat split. Qed.

(** C3, on a run: root adding carol to eng.  The first part has no lock
    event; the second is the locked write-back. *)
Lemma locks_taken_after_load_witness :
  let cmd := mkCmdline [Flag_a "carol"] ["eng"]%string in
  let p := prepare shadow_build as_root cmd (start []) in
  let m := main shadow_build as_root cmd (start []) in
  Forall (fun e => is_lock_event e = false) (trace_of p) /\
  lock_free (state_of p) /\
  writes_under_lock false false
    (trace_of (output shadow_build as_root (state_of p))) = true /\
  trace_of m
  = trace_of p
    ++ [ESetuid true; EGrLock true; ESgrLock true;
        EGrOpen O_RDWR true; ESgrOpen O_RDWR true;
        EGrUpdate (mkGroup "eng" "secret" 100 ["alice"; "bob"; "carol"]%string)
                  true;
        ESgrUpdate (mkSgrp "eng" "!" ["alice"]%string
                           ["alice"; "bob"; "carol"]%string) true;
        EGrClose true; ESgrClose true; ESgrUnlock true; EGrUnlock true;
        ENscdFlush] /\
  group_file (stores (state_of m))
  = [mkGroup "eng" "secret" 100 ["alice"; "bob"; "carol"]%string; ops].
Proof.
  intros cmd p m.
  pose proof (locks_taken_after_load shadow_build as_root cmd (start [])
                (start_lock_free [])) as H.
  cbv zeta in H. destruct H as (H1 & H2 & _ & H4).
  destruct (H4 eq_refl) as (_ & _ & H7 & _ & _ & H10).
  destruct (H10 as_root_unhindered) as (_ & K2 & K3 & _).
  split; [exact H1 | split; [exact H2 | split; [exact H7 |
    split; [exact K2 | exact K3]]]].
Defined.

(** X1, on a run: root asks to remove the password of eng and to delete
    bob from it. *)
Lemma exclusive_operations_rejected_witness :
  let r := main shadow_build as_root
             (mkCmdline [Flag_r; Flag_d "bob"] ["eng"]%string) (start []) in
  outcome_of r = Exits 2 /\
  trace_of r = [EStderr MsgUsage] /\
  stores (state_of r) = stores (start []).
Proof.
  intros r.
  pose proof (exclusive_operations_rejected shadow_build as_root
                (mkCmdline [Flag_r; Flag_d "bob"] ["eng"]%string) (start [])
                Flag_r (Flag_d "bob") 2 1 (start_lock_free [])) as H.
  cbv zeta in H.
  destruct H as (_ & _ & H3 & H4);
    [now left | right; now left | reflexivity | reflexivity | lia |].
  destruct (H4 eq_refl) as [H5 H6].
  split; [exact H5 | split; [exact H6 | exact H3]].
Defined.

(** X2, on a run: no group, and two groups. *)
Lemma one_group_operand_required_witness :
  outcome_of (main shadow_build as_root (mkCmdline [Flag_r] []) (start []))
    = Exits 2 /\
  trace_of (main shadow_build as_root
              (mkCmdline [Flag_r] ["eng"; "ops"]%string) (start []))
    = [EStderr MsgUsage].
Proof.
  split.
  - pose proof (one_group_operand_required shadow_build as_root
                  (mkCmdline [Flag_r] []) (start []) (start_lock_free [])) as H.
    cbv zeta in H. destruct H as (H1 & _); [simpl; lia | reflexivity |].
    exact H1.
  - pose proof (one_group_operand_required shadow_build as_root
                  (mkCmdline [Flag_r] ["eng"; "ops"]%string) (start [])
                  (start_lock_free [])) as H.
    cbv zeta in H. destruct H as (_ & H2 & _); [simpl; lia | reflexivity |].
    exact H2.
Defined.

(** X3, on a run: two of the four names root lists are no users, and
    both are reported. *)
Lemma invalid_list_stops_root_witness :
  let r := main shadow_build as_root
             (mkCmdline [Flag_M "alice,nobody,bob,ghost"] ["eng"]%string)
             (start []) in
  outcome_of r = Exits 1 /\
  trace_of r = [EGetpwnam "alice" true;
                EGetpwnam "nobody" false; EStderr (MsgUserNotExist "nobody");
                EGetpwnam "bob" true;
                EGetpwnam "ghost" false; EStderr (MsgUserNotExist "ghost")] /\
  stores (state_of r) = stores (start []).
Proof.
  intros r.
  pose proof (invalid_list_stops_root shadow_build as_root
                (mkCmdline [Flag_M "alice,nobody,bob,ghost"] ["eng"]%string)
                (start []) [] [] (Flag_M "alice,nobody,bob,ghost")
                "alice,nobody,bob,ghost") as H.
  cbv zeta in H.
  destruct H as (H1 & H2 & _ & _ & H5);
    [reflexivity | now left | apply start_lock_free | reflexivity
    | reflexivity | reflexivity |].
  split; [exact H1 | split; [exact H2 | exact H5]].
Defined.

(** X4, on a run: root sets the administrators of eng on a host
    without a shadow group file. *)
Lemma admins_need_shadow_file_witness :
  let r := main shadow_build bare_host
             (mkCmdline [Flag_A "alice"] ["eng"]%string) bare_start in
  outcome_of r = Exits 2 /\
  trace_of r = [EStderr MsgShadowRequired].
Proof.
  intros r.
  pose proof (admins_need_shadow_file shadow_build bare_host
                (mkCmdline [Flag_A "alice"] ["eng"]%string) bare_start
                [] [] "alice") as H.
  cbv zeta in H.
  destruct H as (H1 & H2 & _);
    [reflexivity | reflexivity | reflexivity | apply bare_start_lock_free
    | reflexivity | reflexivity |].
  split; [exact H1 | exact H2].
Defined.

(** X5, on a run: root without an entry in the user database. *)
Lemma unknown_caller_refused_witness :
  main shadow_build nameless (mkCmdline [Flag_r] ["eng"]%string) (start [])
  = (Exits 1, accepted (remove_password_of "eng") [],
     [EGetMyPwent false; EStderr MsgWhoAreYou; EStderr MsgPermissionDenied]).
Proof.
  apply (unknown_caller_refused shadow_build nameless
           (mkCmdline [Flag_r] ["eng"]%string) (start [])
           (accepted (remove_password_of "eng") []) []);
    [reflexivity | apply start_lock_free | reflexivity].
Defined.

(** X6, on a run: eng is listed in both files. *)
Lemma get_group_copies_records_witness :
  let r := get_group shadow_build as_root
             (accepted (remove_password_of "eng") []) in
  outcome_of r = Returns tt /\
  grent (state_of r) = eng /\ sgent (state_of r) = eng_shadow /\
  group_file (stores (state_of r)) = [eng; ops].
Proof.
  intros r.
  pose proof (get_group_copies_records shadow_build as_root
                (accepted (remove_password_of "eng") []) "eng" eng
                as_root_readable eq_refl eq_refl) as H.
  cbv zeta in H. destruct H as (H1 & H2 & _ & _ & H5 & _).
  destruct (H2 eng_shadow eq_refl eq_refl) as (H3 & H4 & _).
  split; [exact H1 | split; [exact H3 | split; [exact H4 | exact H5]]].
Defined.

(** X7, on a run: root deletes carol, who is no member of eng. *)
Lemma nothing_written_before_commit_witness :
  let cmd := mkCmdline [Flag_d "carol"] ["eng"]%string in
  outcome_of (main shadow_build as_root cmd (start [])) = Exits 1 /\
  group_file (stores (state_of (main shadow_build as_root cmd (start []))))
    = [eng; ops] /\
  gshadow_file (stores (state_of (main shadow_build as_root cmd (start []))))
    = [eng_shadow].
Proof.
  intros cmd.
  pose proof (nothing_written_before_commit shadow_build as_root cmd (start [])
                (start_lock_free [])) as H.
  cbv zeta in H. destruct H as (_ & _ & H3).
  destruct (H3 1 eq_refl) as (H4 & _ & H5 & H6).
  split; [exact H4 | split; [exact H5 | exact H6]].
Defined.

(** X8, on a run: the same entry twice, for eng. *)
Lemma change_passwd_accepts_witness :
  let r := change_passwd shadow_build as_root
             (accepted (change_password_of "eng")
                       [Some "pw"; Some "pw"]%string) in
  outcome_of r = Returns tt /\
  sg_passwd (sgent (state_of r)) = "$6$pw"%string /\
  grent (state_of r) = junk_group /\
  pass (state_of r) = repeat NUL 64 /\
  getpass_buf (state_of r) = [NUL; NUL] /\
  trace_of r = [EStdout (MsgChangingPassword "eng");
                EGetpass NewPassword true; EGetpass ReEnterNewPassword true].
Proof.
  intros r.
  pose proof (change_passwd_accepts shadow_build as_root
                (accepted (change_password_of "eng")
                          [Some "pw"; Some "pw"]%string) "pw" "pw" []) as H.
  destruct H as [H _]; [simpl; lia |].
  destruct (H eq_refl eq_refl)
    as ((H1 & H2 & _ & _ & _ & H6 & H7 & _) & H3 & _).
  destruct (H2 eq_refl) as [H4 H5].
  split; [exact H1 | split; [| split; [exact H5 | split; [exact H6 |
    split; [exact H7 | exact H3]]]]].
  subst r. rewrite H4. reflexivity.
Defined.

(** X9, on a run: the terminal is closed at the first prompt, and at
    the second. *)
Lemma change_passwd_abandoned_witness :
  trace_of (change_passwd shadow_build as_root (start []))
    = [EStdout (MsgChangingPassword ""); EGetpass NewPassword false] /\
  trace_of (change_passwd shadow_build as_root (start [Some "pw"%string; None]))
    = [EStdout (MsgChangingPassword ""); EGetpass NewPassword true;
       EGetpass ReEnterNewPassword false].
Proof.
  split.
  - pose proof (change_passwd_abandoned shadow_build as_root (start [])
                  (start_lock_free [])) as H.
    cbv zeta in H. destruct H as [H _].
    destruct (H I) as (_ & H2 & _). exact H2.
  - pose proof (change_passwd_abandoned shadow_build as_root
                  (start [Some "pw"%string; None])
                  (start_lock_free [Some "pw"%string; None])) as H.
    cbv zeta in H. destruct H as [_ H].
    destruct (H "pw"%string [None] eq_refl I) as (_ & H2 & _). exact H2.
Defined.

(** X10, on a run: standard output goes to a file. *)
Lemma password_change_needs_tty_witness :
  operation shadow_build piped (start [])
  = (Exits 1, start [],
     [EIsatty 0 true; EIsatty 1 false; EStderr MsgNotATty]).
Proof.
  exact (proj2 (password_change_needs_tty shadow_build piped (start [])
                  (start_lock_free []) (no_options_no_operation []))
           eq_refl eq_refl).
Defined.

(** X11, on a run: another process holds the lock of the group file. *)
Lemma failed_commit_writes_nothing_witness :
  let r := output shadow_build (world 0 "root" true false) (loaded "bob") in
  outcome_of r = Exits 1 /\
  group_file (stores (state_of r)) = [eng; ops] /\
  gshadow_file (stores (state_of r)) = [eng_shadow].
Proof.
  intros r.
  pose proof (failed_commit_writes_nothing shadow_build
                (world 0 "root" true false) (loaded "bob")
                (loaded_lock_free "bob") eq_refl) as H.
  cbv zeta in H. destruct H as (H1 & _ & H3 & H4 & _).
  split; [exact H1 | split; [exact H3 | exact H4]].
Defined.

(** X12, on a run: bob has been taken off both member lists of eng and
    the shadow file cannot be rewritten.  The group file no longer
    lists bob; the shadow file still does. *)
Lemma commit_is_not_atomic_witness :
  let s := set_sgent (with_sg_mem ["alice"]%string)
             (set_grent (with_gr_mem ["alice"]%string) (loaded "bob")) in
  let r := output shadow_build shadow_disk_full s in
  outcome_of r = Exits 1 /\
  group_file (stores (state_of r))
    = [mkGroup "eng" "secret" 100 ["alice"]%string; ops] /\
  gshadow_file (stores (state_of r)) = [eng_shadow].
Proof.
  intros s r.
  pose proof (commit_is_not_atomic shadow_build shadow_disk_full s) as H.
  cbv zeta in H.
  destruct H as (_ & H & _); [repeat split | reflexivity | reflexivity |].
  destruct (H eq_refl eq_refl) as (H1 & _ & H3 & H4).
  split; [exact H1 | split; [exact H3 | exact H4]].
Defined.

(** X13, on a run: the same change where nothing hinders the commit. *)
Lemma commit_writes_both_stores_witness :
  let s := set_sgent (with_sg_mem ["alice"]%string)
             (set_grent (with_gr_mem ["alice"]%string) (loaded "bob")) in
  let r := output shadow_build as_root s in
  outcome_of r = Exits E_SUCCESS /\
  group_file (stores (state_of r))
    = [mkGroup "eng" "secret" 100 ["alice"]%string; ops] /\
  gshadow_file (stores (state_of r))
    = [mkSgrp "eng" "!" ["alice"]%string ["alice"]%string].
Proof.
  intros s r.
  pose proof (commit_writes_both_stores shadow_build as_root s) as H.
  cbv zeta in H.
  destruct H as (H1 & H2 & _ & H4 & _); [repeat split | repeat split |].
  destruct (H4 eq_refl) as [_ H5].
  split; [exact H1 | split; [exact H2 | exact H5]].
Defined.

(** X14, on a run: root locks the password of eng on a host without a
    shadow group file. *)
Lemma shadow_store_left_alone_witness :
  let r := main shadow_build bare_host
             (mkCmdline [Flag_R] ["eng"]%string) bare_start in
  Forall (fun e => is_sgr_event e = false) (trace_of r) /\
  gshadow_file (stores (state_of r)) = [] /\
  gshadow_locked (state_of r) = false.
Proof.
  intros r.
  exact (shadow_store_left_alone shadow_build bare_host
           (mkCmdline [Flag_R] ["eng"]%string) bare_start eq_refl eq_refl).
Defined.

(** X15, on a run: bob, a member of eng but not one of its
    administrators, asks to remove its password. *)
Lemma denied_after_load_witness :
  trace_of (main shadow_build as_bob (mkCmdline [Flag_r] ["eng"]%string)
              (start []))
  = [EGetMyPwent true; EGrOpen O_RDONLY true; EGrLocate "eng" true;
     EGrClose true; ESgrOpen O_RDONLY true; ESgrLocate "eng" true;
     ESgrClose true; EStderr MsgPermissionDenied].
Proof.
  pose proof (denied_after_load shadow_build as_bob
                (mkCmdline [Flag_r] ["eng"]%string) (start [])
                (accepted (remove_password_of "eng") []) [] "bob" "eng" eng
                (start_lock_free [])) as H.
  cbv zeta in H. rewrite H; [reflexivity | ..]; try reflexivity.
  repeat split.
Defined.

(** X16, on a run: root removes the password of ops, which the shadow
    file does not list. *)
Lemma password_field_set_end_to_end_witness :
  let r := main shadow_build as_root (mkCmdline [Flag_r] ["ops"]%string)
             (start []) in
  outcome_of r = Exits E_SUCCESS /\
  group_file (stores (state_of r))
    = [eng; mkGroup "ops" "" 101 ["bob"; "ghost"]%string] /\
  gshadow_file (stores (state_of r))
    = [eng_shadow; mkSgrp "ops" "" [] ["bob"; "ghost"]%string].
Proof.
  intros r.
  pose proof (password_field_set_end_to_end shadow_build as_root (start [])
                "root" "ops" ops false (start_lock_free [])
                (no_options_no_operation []) eq_refl as_root_readable
                as_root_unhindered eq_refl eq_refl) as H.
  cbv zeta in H. destruct H as (H1 & _ & H3 & H4 & _).
  split; [exact H1 | split; [exact H3 | exact H4]].
Defined.

(** X17, on a run: alice, an administrator of eng, adds carol. *)
Lemma member_added_end_to_end_witness :
  let r := main shadow_build as_alice
             (mkCmdline [Flag_a "carol"] ["eng"]%string) (start []) in
  outcome_of r = Exits E_SUCCESS /\
  group_file (stores (state_of r))
    = [mkGroup "eng" "secret" 100 ["alice"; "bob"; "carol"]%string; ops] /\
  gshadow_file (stores (state_of r))
    = [mkSgrp "eng" "!" ["alice"]%string ["alice"; "bob"; "carol"]%string].
Proof.
  intros r.
  pose proof (member_added_end_to_end shadow_build as_alice (start [])
                "alice" "eng" "carol" eng (start_lock_free [])
                (no_options_no_operation []) eq_refl as_alice_readable
                as_alice_unhindered eq_refl eq_refl eq_refl) as H.
  cbv zeta in H. destruct H as ((H1 & _ & H3 & H4 & _) & _).
  split; [exact H1 | split; [exact H3 | exact H4]].
Defined.

(** X18, on a run: root names two administrators and two members of
    eng at once; each list is written name by name. *)
Lemma admins_replaced_end_to_end_witness :
  let r := main shadow_build as_root
             (mkCmdline [Flag_A "bob,alice"; Flag_M "alice,carol"]
                        ["eng"]%string)
             (start []) in
  outcome_of r = Exits E_SUCCESS /\
  group_file (stores (state_of r))
    = [mkGroup "eng" "secret" 100 ["alice"; "carol"]%string; ops] /\
  gshadow_file (stores (state_of r))
    = [mkSgrp "eng" "!" ["bob"; "alice"]%string ["alice"; "carol"]%string].
Proof.
  intros r.
  pose proof (admins_replaced_end_to_end shadow_build as_root (start [])
                "root" "eng" "bob,alice" (Some "alice,carol"%string) eng
                (start_lock_free []) (no_options_no_operation [])
                eq_refl eq_refl eq_refl as_root_readable as_root_unhindered
                eq_refl) as H.
  cbv zeta in H.
  destruct H as (H1 & _ & H3 & H4 & _);
    [intros m Hm; injection Hm as <-; reflexivity | reflexivity |].
  split; [exact H1 | split; [exact H3 | exact H4]].
Defined.

(** X19, on a run: root names the members of ops, which the shadow
    file does not list. *)
Lemma members_replaced_end_to_end_witness :
  let r := main shadow_build as_root
             (mkCmdline [Flag_M "carol"] ["ops"]%string) (start []) in
  outcome_of r = Exits E_SUCCESS /\
  group_file (stores (state_of r))
    = [eng; mkGroup "ops" "x" 101 ["carol"]%string] /\
  gshadow_file (stores (state_of r))
    = [eng_shadow; mkSgrp "ops" "x" [] ["carol"]%string].
Proof.
  intros r.
  pose proof (members_replaced_end_to_end shadow_build as_root (start [])
                "root" "ops" "carol" ops (start_lock_free [])
                (no_options_no_operation []) eq_refl eq_refl as_root_readable
                as_root_unhindered eq_refl eq_refl) as H.
  cbv zeta in H. destruct H as (H1 & _ & H3 & H4 & _).
  split; [exact H1 | split; [exact H3 | exact H4]].
Defined.

(** X20, on a run: alice gives eng a new password. *)
Lemma password_changed_end_to_end_witness :
  let r := main shadow_build as_alice (mkCmdline [] ["eng"]%string)
             (start [Some "pw"; Some "pw"]%string) in
  outcome_of r = Exits E_SUCCESS /\
  group_file (stores (state_of r)) = [eng; ops] /\
  gshadow_file (stores (state_of r))
    = [mkSgrp "eng" "$6$pw" ["alice"]%string ["alice"; "bob"]%string].
Proof.
  intros r.
  pose proof (password_changed_end_to_end shadow_build as_alice
                (start [Some "pw"; Some "pw"]%string) "alice" "eng" "pw" "pw"
                [] eng (start_lock_free _) (no_options_no_operation _)) as H.
  cbv zeta in H.
  destruct H as (H1 & _ & H3 & H4 & _);
    [simpl; lia | reflexivity | apply as_alice_readable
    | apply as_alice_unhindered | reflexivity | reflexivity | reflexivity
    | reflexivity | reflexivity | reflexivity |].
  split; [exact H1 | split; [exact H3 | exact H4]].
Defined.
